(** * ReadoutCard: the C-RORC superpage pipeline and the DMA benchmark checker

    A shallow embedding of
    - [src/Crorc/CrorcDmaChannel.cxx]: the per-channel superpage state machine
      ([deviceStartDma], [startPendingDma], [pushSuperpage], [getSuperpage],
      [popSuperpage], [fillSuperpages], [dataArrived]);
    - [src/CommandLineUtilities/ProgramDmaBench.cxx]: the pattern verifier of
      the benchmark ([readoutPage], [checkErrorsCru], [checkErrorsCrorc],
      [addError], [outputErrors]).

    C++ member functions become computations in a state-and-exception monad
    whose result keeps the object as it is at the point of the [throw].
    Machine integers are [Z] with the wrap-around written out. *)

From Stdlib Require Import ZArith String Ascii List Lia Bool.
From Stdlib Require DecimalString HexadecimalString.
From stdpp Require Import base list numbers.

Open Scope Z_scope.

(** ** Outcomes and the state-and-exception monad *)

(** What a call does: it returns, it throws, or it runs into behaviour the
    language leaves undefined (reading [front()] of an empty queue, indexing
    an array out of its bounds). *)
Inductive Outcome (E A : Type) : Type :=
| Returns (a : A)
| Throws (e : E)
| Undefined.

Arguments Returns {E A} a.
Arguments Throws {E A} e.
Arguments Undefined {E A}.

Definition M (St E A : Type) : Type := St -> Outcome E A * St.

Section StateExn.
Context {St E : Type}.

Definition ret {A} (a : A) : M St E A := fun s => (Returns a, s).
Definition throw {A} (e : E) : M St E A := fun s => (Throws e, s).
Definition undefined {A} : M St E A := fun s => (Undefined, s).

Definition bind {A B} (m : M St E A) (k : A -> M St E B) : M St E B :=
  fun s =>
    match m s with
    | (Returns a, s') => k a s'
    | (Throws e, s') => (Throws e, s')
    | (Undefined, s') => (Undefined, s')
    end.

Definition gets {A} (f : St -> A) : M St E A := fun s => (Returns (f s), s).
Definition modify (f : St -> St) : M St E unit := fun s => (Returns tt, f s).
End StateExn.

Declare Scope cxx_scope.
Delimit Scope cxx_scope with cxx.
Notation "x <- m ;; k" := (bind m (fun x => k))
  (at level 100, m at next level, right associativity) : cxx_scope.
Notation "m ;; k" := (bind m (fun _ => k))
  (at level 100, right associativity) : cxx_scope.
Open Scope cxx_scope.

(** ** Fixed-width integers *)

Definition int32 (x : Z) : Z := (x + 2 ^ 31) mod 2 ^ 32 - 2 ^ 31.
Definition uint32 (x : Z) : Z := x mod 2 ^ 32.
Definition to_size_t (x : Z) : Z := x mod 2 ^ 64.

(** ** The C-RORC DMA channel *)

Module CrorcDmaChannel.

(** [ReadoutCard/Superpage.h]: the attributes the channel reads and writes. *)
Record Superpage : Type := {
  offset : Z;
  size : Z;
  received : Z;
  ready : bool;
  userData : Z
}.

Definition setReceived (r : Z) (sp : Superpage) : Superpage :=
  {| offset := offset sp; size := size sp; received := r;
     ready := ready sp; userData := userData sp |}.

Definition setReady (b : bool) (sp : Superpage) : Superpage :=
  {| offset := offset sp; size := size sp; received := received sp;
     ready := b; userData := userData sp |}.

(** The ready-FIFO: the host-resident array the card writes completions to. *)
Module ReadyFifo.
Record FifoEntry : Type := { length : Z; status : Z }.

(** Modelled from the spec: [FifoEntry::reset()] is declared in
    [Crorc/ReadyFifo.h], which is not among the sources; the specification
    says the descriptor is reset "to sentinel", the sentinel status being
    [-1] ("none arrived"). Both fields take the sentinel. *)
Definition reset : FifoEntry := {| length := -1; status := -1 |}.
End ReadyFifo.

Inductive DataSource : Type := Fee | Diu | Siu | Internal | Ddg.

Inductive ResetLevel : Type := Nothing | LevelInternal | InternalDiu | InternalDiuSiu.

Inductive DataArrivalStatus : Type := NoneArrived | PartArrived | WholeArrived.

(** Bits of [Rorc::Reset], commands of [Ddl] and [Fee]. *)
Inductive ResetBit : Type := RORC | DIU | SIU | FF | FIFOS | ERROR | COUNTERS.
Inductive DdlCommand : Type := RandCIFST.
Inductive FeeCommand : Type := RDYRX | STBRD.

(** The calls made on the card object ([getCrorc()]). *)
Inductive CardCmd : Type :=
| InitDiuVersion
| ResetCommand (mask : list ResetBit)
| ArmDdl (mask : list ResetBit)
| StartDataReceiver
| ArmDataGenerator (pageSize : Z)
| SetLoopbackOn
| SetSiuLoopback
| SetDiuLoopback
| AssertLinkUp
| AssertFreeFifoEmpty
| SiuCommand (c : DdlCommand)
| DiuCommand (c : DdlCommand)
| StartDataGenerator
| StartTrigger (c : FeeCommand)
| PushRxFreeFifo (pageBusAddress pageWords : Z) (readyFifoIndex : Z).

(** What the channel throws. *)
Inductive Thrown : Type :=
| SuperpageRejected
| TransferQueueFull
| FirmwareQueueFull
| ReadyQueueEmptyOnGet
| ReadyQueueEmptyOnPop
| ArrivalErrorBits (status length index : Z)
| ArrivalUnrecognized (status length index : Z)
| CardFault (c : CardCmd).

(** The [ErrorInfo::Message] of each exception the channel itself raises. *)
Definition what (e : Thrown) : string :=
  match e with
  | SuperpageRejected => "checkSuperpage"
  | TransferQueueFull => "Could not push superpage, transfer queue was full"
  | FirmwareQueueFull =>
      "Could not push superpage, firmware queue was full (this should never happen)"
  | ReadyQueueEmptyOnGet => "Could not get superpage, ready queue was empty"
  | ReadyQueueEmptyOnPop => "Could not pop superpage, ready queue was empty"
  | ArrivalErrorBits _ _ _ => "Data arrival status word contains error bits"
  | ArrivalUnrecognized _ _ _ => "Unrecognized data arrival status word"
  | CardFault _ => "card"
  end.

(** Modelled from the spec: the error taxonomy of the specification (its
    section on error handling); the code has exception classes and messages
    only. *)
Inductive ErrorKind : Type :=
  InvalidSuperpage | QueueFull | QueueEmpty | DataArrivalError | HardwareError.

Definition kind (e : Thrown) : ErrorKind :=
  match e with
  | SuperpageRejected => InvalidSuperpage
  | TransferQueueFull | FirmwareQueueFull => QueueFull
  | ReadyQueueEmptyOnGet | ReadyQueueEmptyOnPop => QueueEmpty
  | ArrivalErrorBits _ _ _ | ArrivalUnrecognized _ _ _ => DataArrivalError
  | CardFault _ => HardwareError
  end.

(** What [CrorcDmaChannel.h], [Crorc/Constants.h] and the base class declare;
    none of them is among the sources, so they are parameters of the model.
    The ready-FIFO array has [MAX_SUPERPAGE_DESCRIPTORS] entries (the
    specification: "a host-resident array of the same length"). *)
Record Declarations : Type := {
  MAX_SUPERPAGE_DESCRIPTORS : Z;
  TRANSFER_QUEUE_CAPACITY : Z;
  DTSW : Z;
  checkSuperpage : Superpage -> bool;
  getBusOffsetAddress : Z -> Z;
  isExternal : DataSource -> bool
}.

(** The members of [CrorcDmaChannel] the modelled functions touch, the
    ready-FIFO the card writes to, and the calls issued to the card so far.
    The two queues are FIFO sequences (their container type is declared in
    the header; the specification has them as ordered sequences). The three
    [int] counters stay within the ring size and are left unbounded. *)
Record Channel : Type := {
  mDataSource : DataSource;
  mSTBRD : bool;
  mGeneratorEnabled : bool;
  mRDYRX : bool;
  mPageSize : Z;
  mFreeFifoFront : Z;
  mFreeFifoBack : Z;
  mFreeFifoSize : Z;
  mTransferQueue : list Superpage;
  mReadyQueue : list Superpage;
  mPendingDmaStart : bool;
  entries : list ReadyFifo.FifoEntry;
  cardLog : list CardCmd
}.

Definition set_mFreeFifoFront (v : Z) (s : Channel) : Channel :=
  {| mDataSource := mDataSource s; mSTBRD := mSTBRD s;
     mGeneratorEnabled := mGeneratorEnabled s; mRDYRX := mRDYRX s;
     mPageSize := mPageSize s; mFreeFifoFront := v;
     mFreeFifoBack := mFreeFifoBack s; mFreeFifoSize := mFreeFifoSize s;
     mTransferQueue := mTransferQueue s; mReadyQueue := mReadyQueue s;
     mPendingDmaStart := mPendingDmaStart s; entries := entries s;
     cardLog := cardLog s |}.

Definition set_mFreeFifoBack (v : Z) (s : Channel) : Channel :=
  {| mDataSource := mDataSource s; mSTBRD := mSTBRD s;
     mGeneratorEnabled := mGeneratorEnabled s; mRDYRX := mRDYRX s;
     mPageSize := mPageSize s; mFreeFifoFront := mFreeFifoFront s;
     mFreeFifoBack := v; mFreeFifoSize := mFreeFifoSize s;
     mTransferQueue := mTransferQueue s; mReadyQueue := mReadyQueue s;
     mPendingDmaStart := mPendingDmaStart s; entries := entries s;
     cardLog := cardLog s |}.

Definition set_mFreeFifoSize (v : Z) (s : Channel) : Channel :=
  {| mDataSource := mDataSource s; mSTBRD := mSTBRD s;
     mGeneratorEnabled := mGeneratorEnabled s; mRDYRX := mRDYRX s;
     mPageSize := mPageSize s; mFreeFifoFront := mFreeFifoFront s;
     mFreeFifoBack := mFreeFifoBack s; mFreeFifoSize := v;
     mTransferQueue := mTransferQueue s; mReadyQueue := mReadyQueue s;
     mPendingDmaStart := mPendingDmaStart s; entries := entries s;
     cardLog := cardLog s |}.

Definition set_mTransferQueue (v : list Superpage) (s : Channel) : Channel :=
  {| mDataSource := mDataSource s; mSTBRD := mSTBRD s;
     mGeneratorEnabled := mGeneratorEnabled s; mRDYRX := mRDYRX s;
     mPageSize := mPageSize s; mFreeFifoFront := mFreeFifoFront s;
     mFreeFifoBack := mFreeFifoBack s; mFreeFifoSize := mFreeFifoSize s;
     mTransferQueue := v; mReadyQueue := mReadyQueue s;
     mPendingDmaStart := mPendingDmaStart s; entries := entries s;
     cardLog := cardLog s |}.

Definition set_mReadyQueue (v : list Superpage) (s : Channel) : Channel :=
  {| mDataSource := mDataSource s; mSTBRD := mSTBRD s;
     mGeneratorEnabled := mGeneratorEnabled s; mRDYRX := mRDYRX s;
     mPageSize := mPageSize s; mFreeFifoFront := mFreeFifoFront s;
     mFreeFifoBack := mFreeFifoBack s; mFreeFifoSize := mFreeFifoSize s;
     mTransferQueue := mTransferQueue s; mReadyQueue := v;
     mPendingDmaStart := mPendingDmaStart s; entries := entries s;
     cardLog := cardLog s |}.

Definition set_mPendingDmaStart (v : bool) (s : Channel) : Channel :=
  {| mDataSource := mDataSource s; mSTBRD := mSTBRD s;
     mGeneratorEnabled := mGeneratorEnabled s; mRDYRX := mRDYRX s;
     mPageSize := mPageSize s; mFreeFifoFront := mFreeFifoFront s;
     mFreeFifoBack := mFreeFifoBack s; mFreeFifoSize := mFreeFifoSize s;
     mTransferQueue := mTransferQueue s; mReadyQueue := mReadyQueue s;
     mPendingDmaStart := v; entries := entries s;
     cardLog := cardLog s |}.

Definition set_entries (v : list ReadyFifo.FifoEntry) (s : Channel) : Channel :=
  {| mDataSource := mDataSource s; mSTBRD := mSTBRD s;
     mGeneratorEnabled := mGeneratorEnabled s; mRDYRX := mRDYRX s;
     mPageSize := mPageSize s; mFreeFifoFront := mFreeFifoFront s;
     mFreeFifoBack := mFreeFifoBack s; mFreeFifoSize := mFreeFifoSize s;
     mTransferQueue := mTransferQueue s; mReadyQueue := mReadyQueue s;
     mPendingDmaStart := mPendingDmaStart s; entries := v;
     cardLog := cardLog s |}.

Definition set_cardLog (v : list CardCmd) (s : Channel) : Channel :=
  {| mDataSource := mDataSource s; mSTBRD := mSTBRD s;
     mGeneratorEnabled := mGeneratorEnabled s; mRDYRX := mRDYRX s;
     mPageSize := mPageSize s; mFreeFifoFront := mFreeFifoFront s;
     mFreeFifoBack := mFreeFifoBack s; mFreeFifoSize := mFreeFifoSize s;
     mTransferQueue := mTransferQueue s; mReadyQueue := mReadyQueue s;
     mPendingDmaStart := mPendingDmaStart s; entries := entries s;
     cardLog := v |}.

Abbreviation Op := (M Channel Thrown).

(** A call on the card object. The card is hardware: [faults c] says whether
    the call [c] raises during the operation at hand; a call that does not
    raise is appended to the log of issued calls. *)
Definition issue (faults : CardCmd -> bool) (c : CardCmd) : Op unit :=
  if faults c then throw (CardFault c)
  else modify (fun s => set_cardLog (cardLog s ++ [c]) s).

(** [entries[index]] of the ready-FIFO, a [std::array]: no bounds check. *)
Definition entry (index : Z) : Op ReadyFifo.FifoEntry :=
  fun s =>
    if index <? 0 then (Undefined, s)
    else match entries s !! Z.to_nat index with
         | Some e => (Returns e, s)
         | None => (Undefined, s)
         end.

(** [mTransferQueue.front()]. *)
Definition transferFront : Op Superpage :=
  fun s =>
    match mTransferQueue s with
    | sp :: _ => (Returns sp, s)
    | [] => (Undefined, s)
    end.

(** A computation that only talks to the card: all it changes is the log of
    issued calls, and all it can throw is the fault of a card call. *)
Definition cardOnly {A : Type} (faults : CardCmd -> bool) (m : Op A) : Prop :=
  forall s,
    exists log,
      snd (m s) = set_cardLog log s /\
      match fst (m s) with
      | Returns _ => True
      | Throws (CardFault c) => faults c = true
      | _ => False
      end.

(** The outcomes of the scan: it returns, or a descriptor is in error. *)
Definition scanOutcome (r : Outcome Thrown unit) : Prop :=
  r = Returns tt \/ exists x, r = Throws x /\ kind x = DataArrivalError.

(** The outcomes of [fillSuperpages]: it returns, a descriptor is in error,
    or a card call of the pending start raises. *)
Definition fillOutcome (r : Outcome Thrown unit) : Prop :=
  r = Returns tt \/
  exists x, r = Throws x /\ (kind x = DataArrivalError \/ kind x = HardwareError).

Section Channel.
Context (decl : Declarations).

Abbreviation N := (MAX_SUPERPAGE_DESCRIPTORS decl).

(** The error bit of a status word: [(status & (1 << 31)) != 0]. *)
Definition errorBit (status : Z) : bool :=
  negb (Z.land status (Z.shiftl 1 31) =? 0).

(** [CrorcDmaChannel::dataArrived]. The two fields are 32-bit signed. *)
Definition dataArrived (index : Z) : Op DataArrivalStatus :=
  e <- entry index ;;
  let length := int32 (ReadyFifo.length e) in
  let status := int32 (ReadyFifo.status e) in
  if status =? -1 then ret NoneArrived
  else if status =? 0 then ret PartArrived
  else if Z.land status 255 =? DTSW decl then
    if errorBit status then throw (ArrivalErrorBits status length index)
    else ret WholeArrived
  else throw (ArrivalUnrecognized status length index).

(** [CrorcDmaChannel::pushFreeFifoPage]: [pageSize] is an [int]. *)
Definition pushFreeFifoPage (faults : CardCmd -> bool)
    (readyFifoIndex pageBusAddress pageSize : Z) : Op unit :=
  let pageWords := to_size_t (Z.quot (int32 pageSize) 4) in
  issue faults (PushRxFreeFifo pageBusAddress pageWords readyFifoIndex).

(** [CrorcDmaChannel::startDataReceiving]. *)
Definition startDataReceiving (faults : CardCmd -> bool) : Op unit :=
  issue faults StartDataReceiver.

Definition isDiu (d : DataSource) : bool :=
  match d with Diu => true | _ => false end.

Definition isInternalDiuSiu (l : ResetLevel) : bool :=
  match l with InternalDiuSiu => true | _ => false end.

Definition isLevelInternal (l : ResetLevel) : bool :=
  match l with LevelInternal => true | _ => false end.

(** [CrorcDmaChannel::armDdl] (the settle waits leave no trace here; the
    [catch] only annotates the exception and rethrows it). *)
Definition armDdl (faults : CardCmd -> bool) (resetLevel : ResetLevel) : Op unit :=
  match resetLevel with
  | Nothing => ret tt
  | _ =>
    issue faults (ResetCommand [RORC]) ;;
    src <- gets mDataSource ;;
    (if isExternal decl src && negb (isLevelInternal resetLevel) then
       issue faults (ArmDdl [DIU]) ;;
       (if isInternalDiuSiu resetLevel && negb (isDiu src) then
          issue faults (ArmDdl [SIU]) ;;
          issue faults (ArmDdl [DIU])
        else ret tt) ;;
       issue faults (ArmDdl [RORC]) ;;
       (if isInternalDiuSiu resetLevel && negb (isDiu src) then
          issue faults AssertLinkUp ;;
          issue faults (SiuCommand RandCIFST)
        else ret tt) ;;
       issue faults (DiuCommand RandCIFST)
     else ret tt) ;;
    issue faults (ResetCommand [FF]) ;;
    issue faults AssertFreeFifoEmpty
  end.

(** [CrorcDmaChannel::deviceStartDma]. *)
Definition deviceStartDma (faults : CardCmd -> bool) : Op unit :=
  issue faults InitDiuVersion ;;
  src <- gets mDataSource ;;
  match src with
  | Siu | Fee => armDdl faults InternalDiuSiu
  | Diu => armDdl faults InternalDiu
  | _ => armDdl faults LevelInternal
  end ;;
  startDataReceiving faults ;;
  modify (set_mFreeFifoFront 0) ;;
  modify (set_mFreeFifoBack 0) ;;
  modify (set_mFreeFifoSize 0) ;;
  modify (set_mReadyQueue []) ;;
  modify (set_mTransferQueue []) ;;
  modify (set_mPendingDmaStart true).

(** [CrorcDmaChannel::startDataGenerator]. *)
Definition startDataGenerator (faults : CardCmd -> bool) : Op unit :=
  pageSize <- gets mPageSize ;;
  issue faults (ArmDataGenerator pageSize) ;;
  src <- gets mDataSource ;;
  match src with
  | Internal => issue faults SetLoopbackOn
  | Siu =>
      issue faults SetSiuLoopback ;;
      issue faults AssertLinkUp ;;
      issue faults (SiuCommand RandCIFST) ;;
      issue faults (DiuCommand RandCIFST)
  | Diu =>
      issue faults SetDiuLoopback ;;
      issue faults (DiuCommand RandCIFST)
  | _ => ret tt
  end ;;
  issue faults StartDataGenerator.

(** [CrorcDmaChannel::startPendingDma]. *)
Definition startPendingDma (faults : CardCmd -> bool) : Op unit :=
  pending <- gets mPendingDmaStart ;;
  if negb pending then ret tt
  else
    tq <- gets mTransferQueue ;;
    match tq with
    | [] => ret tt
    | _ :: _ =>
      generatorEnabled <- gets mGeneratorEnabled ;;
      (if generatorEnabled then startDataGenerator faults
       else
         rdyrx <- gets mRDYRX ;;
         stbrd <- gets mSTBRD ;;
         if rdyrx || stbrd then
           issue faults AssertLinkUp ;;
           issue faults (SiuCommand RandCIFST) ;;
           issue faults (DiuCommand RandCIFST) ;;
           issue faults (StartTrigger (if rdyrx then RDYRX else STBRD))
         else ret tt) ;;
      modify (set_mPendingDmaStart false)
    end.

(** [CrorcDmaChannel::getTransferQueueAvailable], [getReadyQueueSize],
    [isTransferQueueEmpty]. *)
Definition getTransferQueueAvailable (s : Channel) : Z :=
  TRANSFER_QUEUE_CAPACITY decl - Z.of_nat (length (mTransferQueue s)).


Definition isTransferQueueEmpty (s : Channel) : bool :=
  match mTransferQueue s with [] => true | _ => false end.

(** [CrorcDmaChannel::getSuperpage]. *)
Definition getSuperpage : Op Superpage :=
  rq <- gets mReadyQueue ;;
  match rq with
  | [] => throw ReadyQueueEmptyOnGet
  | sp :: _ => ret sp
  end.

(** [CrorcDmaChannel::pushSuperpage]. *)
Definition pushSuperpage (faults : CardCmd -> bool) (superpage : Superpage) : Op unit :=
  (if checkSuperpage decl superpage then ret tt else throw SuperpageRejected) ;;
  tq <- gets mTransferQueue ;;
  if Z.of_nat (length tq) >=? TRANSFER_QUEUE_CAPACITY decl
  then throw TransferQueueFull
  else
    freeFifoSize <- gets mFreeFifoSize ;;
    if freeFifoSize >=? N then throw FirmwareQueueFull
    else
      let busAddress := getBusOffsetAddress decl (offset superpage) in
      front <- gets mFreeFifoFront ;;
      pushFreeFifoPage faults front busAddress (size superpage) ;;
      modify (fun s => set_mFreeFifoSize (mFreeFifoSize s + 1) s) ;;
      modify (fun s => set_mFreeFifoFront (Z.rem (mFreeFifoFront s + 1) N) s) ;;
      modify (fun s => set_mTransferQueue (mTransferQueue s ++ [superpage]) s).

(** [CrorcDmaChannel::popSuperpage]. *)
Definition popSuperpage : Op Superpage :=
  rq <- gets mReadyQueue ;;
  match rq with
  | [] => throw ReadyQueueEmptyOnPop
  | superpage :: rest =>
      modify (set_mReadyQueue rest) ;;
      ret superpage
  end.

(** The three lambdas of [fillSuperpages]. *)
Definition isArrived (descriptorIndex : Z) : Op bool :=
  st <- dataArrived descriptorIndex ;;
  ret (match st with WholeArrived => true | _ => false end).

Definition resetDescriptor (descriptorIndex : Z) : Op unit :=
  _ <- entry descriptorIndex ;;
  modify (fun s =>
    set_entries (<[Z.to_nat descriptorIndex := ReadyFifo.reset]> (entries s)) s).

(** [length * 4] on a 32-bit [int], then stored in a [size_t]. *)
Definition getLength (descriptorIndex : Z) : Op Z :=
  e <- entry descriptorIndex ;;
  ret (to_size_t (int32 (int32 (ReadyFifo.length e) * 4))).

(** One pass of the body of [while (mFreeFifoSize > 0)]; [true] asks for
    another pass, [false] is the [break]. *)
Definition arrivalStep : Op bool :=
  back <- gets mFreeFifoBack ;;
  arrived <- isArrived back ;;
  if arrived then
    superpageFilled <- getLength back ;;
    resetDescriptor back ;;
    modify (fun s => set_mFreeFifoSize (mFreeFifoSize s - 1) s) ;;
    modify (fun s => set_mFreeFifoBack (Z.rem (mFreeFifoBack s + 1) N) s) ;;
    superpage <- transferFront ;;
    let superpage := setReady true (setReceived superpageFilled superpage) in
    modify (fun s => set_mReadyQueue (mReadyQueue s ++ [superpage]) s) ;;
    modify (fun s => set_mTransferQueue (tail (mTransferQueue s)) s) ;;
    ret true
  else ret false.

(** The [while] loop, on a bound of passes. Every pass that asks for another
    one has decremented [mFreeFifoSize], so [mFreeFifoSize] passes are all
    the loop can make ([arrivalLoop_unfold] is the loop's equation). *)
Fixpoint arrivalPasses (passes : nat) : Op unit :=
  match passes with
  | O => ret tt
  | S passes' =>
      freeFifoSize <- gets mFreeFifoSize ;;
      if freeFifoSize >? 0 then
        again <- arrivalStep ;;
        if again then arrivalPasses passes' else ret tt
      else ret tt
  end.

Definition arrivalLoop : Op unit :=
  freeFifoSize <- gets mFreeFifoSize ;;
  arrivalPasses (Z.to_nat freeFifoSize).

(** [CrorcDmaChannel::fillSuperpages]. *)
Definition fillSuperpages (faults : CardCmd -> bool) : Op unit :=
  pending <- gets mPendingDmaStart ;;
  empty <- gets isTransferQueueEmpty ;;
  if pending && empty then ret tt
  else
    (if pending then startPendingDma faults else ret tt) ;;
    empty <- gets isTransferQueueEmpty ;;
    if negb empty then arrivalLoop else ret tt.

(** *** The calls of a client, and the states a channel can be in *)

Inductive Call : Type :=
| CallDeviceStartDma (faults : CardCmd -> bool)
| CallPushSuperpage (faults : CardCmd -> bool) (superpage : Superpage)
| CallFillSuperpages (faults : CardCmd -> bool)
| CallGetSuperpage
| CallPopSuperpage.

Definition run (c : Call) : Op unit :=
  match c with
  | CallDeviceStartDma faults => deviceStartDma faults
  | CallPushSuperpage faults superpage => pushSuperpage faults superpage
  | CallFillSuperpages faults => fillSuperpages faults
  | CallGetSuperpage => _ <- getSuperpage ;; ret tt
  | CallPopSuperpage => _ <- popSuperpage ;; ret tt
  end.

(** A sequence of calls; a call that throws leaves the channel as it was at
    the [throw], and the client goes on with the next call. *)
Fixpoint runAll (cs : list Call) (s : Channel) : Channel :=
  match cs with
  | [] => s
  | c :: cs' => runAll cs' (snd (run c s))
  end.

(** The states reached from a constructed channel (whose ready-FIFO has its
    [N] entries) by a first successful [deviceStartDma], then by any calls,
    the card writing any content to the ready-FIFO at any time in between. *)
Inductive Reachable : Channel -> Prop :=
| reach_start s faults s' :
    length (entries s) = Z.to_nat N ->
    deviceStartDma faults s = (Returns tt, s') ->
    Reachable s'
| reach_call s c :
    Reachable s ->
    Reachable (snd (run c s))
| reach_card s es :
    Reachable s ->
    length es = length (entries s) ->
    Reachable (set_entries es s).

(** The consistency of the ring indices with the two counters. *)
Record Inv (s : Channel) : Prop := {
  inv_front : 0 <= mFreeFifoFront s < N;
  inv_back : 0 <= mFreeFifoBack s < N;
  inv_size : 0 <= mFreeFifoSize s <= N;
  inv_entries : length (entries s) = Z.to_nat N;
  inv_queue : Z.of_nat (length (mTransferQueue s)) = mFreeFifoSize s;
  inv_ring : mFreeFifoFront s = (mFreeFifoBack s + mFreeFifoSize s) mod N
}.

(** What [dataArrived] makes of one descriptor. *)
Definition arrival (index : Z) (e : ReadyFifo.FifoEntry)
  : Outcome Thrown DataArrivalStatus :=
  let length := int32 (ReadyFifo.length e) in
  let status := int32 (ReadyFifo.status e) in
  if status =? -1 then Returns NoneArrived
  else if status =? 0 then Returns PartArrived
  else if Z.land status 255 =? DTSW decl then
    if errorBit status then Throws (ArrivalErrorBits status length index)
    else Returns WholeArrived
  else Throws (ArrivalUnrecognized status length index).

(** The byte count [fillSuperpages] stores for a descriptor. *)
Definition lengthBytes (e : ReadyFifo.FifoEntry) : Z :=
  to_size_t (int32 (int32 (ReadyFifo.length e) * 4)).

(** The channel after the completion of the descriptor at the back, for the
    superpage [sp] at the head of the transfer queue [sp :: rest]. *)
Definition complete (e : ReadyFifo.FifoEntry) (sp : Superpage)
    (rest : list Superpage) (s : Channel) : Channel :=
  set_mTransferQueue rest
    (set_mReadyQueue
       (mReadyQueue s ++ [setReady true (setReceived (lengthBytes e) sp)])
       (set_mFreeFifoBack (Z.rem (mFreeFifoBack s + 1) N)
          (set_mFreeFifoSize (mFreeFifoSize s - 1)
             (set_entries
                (<[Z.to_nat (mFreeFifoBack s) := ReadyFifo.reset]> (entries s))
                s)))).

(** The status words [dataArrived] reads without throwing. *)
Definition recognised (e : ReadyFifo.FifoEntry) : bool :=
  let status := int32 (ReadyFifo.status e) in
  (status =? -1) || (status =? 0)
  || ((Z.land status 255 =? DTSW decl) && negb (errorBit status)).

(** What the constructor establishes (its lines on [mGeneratorEnabled] and
    [mRDYRX]): the generator is off exactly for the front-end source, and
    then exactly one of the two triggers is selected. No modelled function
    assigns these members. *)
Definition flagsFromConstructor (s : Channel) : Prop :=
  mGeneratorEnabled s = (match mDataSource s with Fee => false | _ => true end) /\
  (mGeneratorEnabled s = false -> mRDYRX s = negb (mSTBRD s)).

(** What a delivered superpage is, relative to the channel the scan started
    from. *)
Definition deliveredFrom (s : Channel) (sp : Superpage) : Prop :=
  ready sp = true /\
  received sp mod 4 = 0 /\
  exists e sp0,
    In e (entries s) /\ In sp0 (mTransferQueue s) /\
    (exists i, arrival i e = Returns WholeArrived) /\
    sp = setReady true (setReceived (lengthBytes e) sp0) /\
    (0 < int32 (ReadyFifo.length e) < 2 ^ 29 ->
     4 * int32 (ReadyFifo.length e) <= size sp0 ->
     0 < received sp <= size sp).

(** The channel after the assignments that end [deviceStartDma], and after
    those that end a successful [pushSuperpage]. *)
Definition started (s : Channel) : Channel :=
  set_mPendingDmaStart true
    (set_mTransferQueue []
       (set_mReadyQueue []
          (set_mFreeFifoSize 0 (set_mFreeFifoBack 0 (set_mFreeFifoFront 0 s))))).

Definition pushed (superpage : Superpage) (s : Channel) : Channel :=
  set_mTransferQueue (mTransferQueue s ++ [superpage])
    (set_mFreeFifoFront (Z.rem (mFreeFifoFront s + 1) N)
       (set_mFreeFifoSize (mFreeFifoSize s + 1) s)).

(** The card call of a [pushSuperpage]. *)
Definition pushCall (superpage : Superpage) (s : Channel) : CardCmd :=
  PushRxFreeFifo (getBusOffsetAddress decl (offset superpage))
    (to_size_t (Z.quot (int32 (size superpage)) 4)) (mFreeFifoFront s).

End Channel.

End CrorcDmaChannel.

(** ** The pattern verifier of the DMA benchmark *)

Module ProgramDmaBench.

(** [CardType::type] and [GeneratorPattern::type], as far as the program
    names their values (the pattern names are those of the [--pattern]
    option). *)
Inductive CardType : Type := Crorc | Cru | OtherCard.
Inductive GeneratorPattern : Type := Incremental | Alternating | Constant | Random.

Inductive Thrown : Type :=
| UnsupportedCardType
| UnsupportedPatternCru (p : GeneratorPattern)
| UnsupportedPatternCrorc (p : GeneratorPattern).

Definition what (e : Thrown) : string :=
  match e with
  | UnsupportedCardType => "Error checking unsupported for this card type"
  | UnsupportedPatternCru _ => "Unsupported pattern for CRU error checking"
  | UnsupportedPatternCrorc _ => "Unsupported pattern for C-RORC error checking"
  end.

(** The members of [ProgramDmaBench] (and [mVerbose] of [Program]) that the
    verifier reads and writes. The two 64-bit counters are far from their
    bounds in any run and are left unbounded. *)
Record Bench : Type := {
  mVerbose : bool;
  mCardType : CardType;
  generatorPattern : GeneratorPattern;
  noErrorCheck : bool;
  noResyncCounter : bool;
  mErrorCount : Z;
  mErrorStream : string;
  mDataGeneratorCounter : Z
}.

Definition set_mErrorCount (v : Z) (b : Bench) : Bench :=
  {| mVerbose := mVerbose b; mCardType := mCardType b;
     generatorPattern := generatorPattern b; noErrorCheck := noErrorCheck b;
     noResyncCounter := noResyncCounter b; mErrorCount := v;
     mErrorStream := mErrorStream b;
     mDataGeneratorCounter := mDataGeneratorCounter b |}.

Definition set_mErrorStream (v : string) (b : Bench) : Bench :=
  {| mVerbose := mVerbose b; mCardType := mCardType b;
     generatorPattern := generatorPattern b; noErrorCheck := noErrorCheck b;
     noResyncCounter := noResyncCounter b; mErrorCount := mErrorCount b;
     mErrorStream := v;
     mDataGeneratorCounter := mDataGeneratorCounter b |}.

Definition set_mDataGeneratorCounter (v : Z) (b : Bench) : Bench :=
  {| mVerbose := mVerbose b; mCardType := mCardType b;
     generatorPattern := generatorPattern b; noErrorCheck := noErrorCheck b;
     noResyncCounter := noResyncCounter b; mErrorCount := mErrorCount b;
     mErrorStream := mErrorStream b;
     mDataGeneratorCounter := v |}.

Abbreviation Op := (M Bench Thrown).

Definition MAX_RECORDED_ERRORS : Z := 1000.

(** A page of the DMA buffer, read as 32-bit words: [page[i]]. *)
Definition Page : Type := Z -> Z.
Definition load (page : Page) (i : Z) : Z := uint32 (page i).

(** [%d] and [%x] of [boost::format]. *)
Definition dec (z : Z) : string := DecimalString.NilZero.string_of_int (Z.to_int z).
Definition hex (z : Z) : string :=
  HexadecimalString.NilZero.string_of_uint (N.to_hex_uint (Z.to_N z)).

Definition newline : string := String (ascii_of_nat 10) EmptyString.

(** ["event:%d i:%d cnt:%d exp:0x%x val:0x%x\n"]. *)
Definition formatError (eventNumber index generatorCounter expectedValue actualValue : Z)
  : string :=
  ("event:" ++ dec eventNumber ++ " i:" ++ dec index ++ " cnt:" ++ dec generatorCounter
   ++ " exp:0x" ++ hex expectedValue ++ " val:0x" ++ hex actualValue ++ newline)%string.

(** [ProgramDmaBench::addError]. *)
Definition addError (eventNumber index generatorCounter expectedValue actualValue : Z)
  : Op unit :=
  modify (fun b => set_mErrorCount (mErrorCount b + 1) b) ;;
  verbose <- gets mVerbose ;;
  errorCount <- gets mErrorCount ;;
  if verbose && (errorCount <? MAX_RECORDED_ERRORS) then
    modify (fun b =>
      set_mErrorStream
        (mErrorStream b
         ++ formatError eventNumber (int32 index) (uint32 generatorCounter)
              (uint32 expectedValue) (uint32 actualValue))%string b)
  else ret tt.

(** The loop of the [check] lambda of [checkErrorsCru], on a bound of passes
    ([i] is a [uint32_t], [PATTERN_STRIDE] is 8). The error is reported in
    line, with the statements of [addError]. *)
Fixpoint cruWords (patternFunction : Z -> Z) (page : Page)
    (pageSize32 eventNumber counter : Z) (passes : nat) (i : Z) : Op bool :=
  match passes with
  | O => ret false
  | S passes' =>
      if i <? pageSize32 then
        let expectedValue := uint32 (patternFunction i) in
        let actualValue := load page i in
        if negb (actualValue =? expectedValue) then
          modify (fun b => set_mErrorCount (mErrorCount b + 1) b) ;;
          verbose <- gets mVerbose ;;
          errorCount <- gets mErrorCount ;;
          (if verbose && (errorCount <? MAX_RECORDED_ERRORS) then
             modify (fun b =>
               set_mErrorStream
                 (mErrorStream b
                  ++ formatError eventNumber i counter expectedValue actualValue)%string b)
           else ret tt) ;;
          ret true
        else
          cruWords patternFunction page pageSize32 eventNumber counter passes'
            (uint32 (i + 8))
      else ret false
  end.

(** [ProgramDmaBench::checkErrorsCru]; [counter] is a [uint32_t]. *)
Definition checkErrorsCru (page : Page) (pageSize eventNumber counter : Z) : Op bool :=
  let counter := uint32 counter in
  let check (patternFunction : Z -> Z) : Op bool :=
    let pageSize32 := to_size_t pageSize / 4 in
    cruWords patternFunction page pageSize32 eventNumber counter
      (Z.to_nat pageSize32) 0 in
  pattern <- gets generatorPattern ;;
  match pattern with
  | Incremental => check (fun i => counter * 256 + i / 8)
  | Alternating => check (fun _ => 0xa5a5a5a5)
  | Constant => check (fun _ => 0x12345678)
  | _ => throw (UnsupportedPatternCru pattern)
  end.

(** The loop of the [check] lambda of [checkErrorsCrorc]. *)
Fixpoint crorcWords (patternFunction : Z -> Z) (page : Page)
    (pageSize32 eventNumber counter : Z) (passes : nat) (i : Z) : Op bool :=
  match passes with
  | O => ret false
  | S passes' =>
      if i <? pageSize32 then
        let expectedValue := uint32 (patternFunction i) in
        let actualValue := load page i in
        if negb (actualValue =? expectedValue) then
          addError eventNumber i counter expectedValue actualValue ;;
          ret true
        else
          crorcWords patternFunction page pageSize32 eventNumber counter passes'
            (uint32 (i + 1))
      else ret false
  end.

(** [ProgramDmaBench::checkErrorsCrorc]; [counter] is a [uint32_t]. *)
Definition checkErrorsCrorc (page : Page) (pageSize eventNumber counter : Z) : Op bool :=
  let counter := uint32 counter in
  let check (patternFunction : Z -> Z) : Op bool :=
    let pageSize32 := to_size_t pageSize / 4 in
    (if negb (load page 0 =? counter) then
       addError eventNumber 0 counter counter (load page 0)
     else ret tt) ;;
    crorcWords patternFunction page pageSize32 eventNumber counter
      (Z.to_nat pageSize32) 8 in
  pattern <- gets generatorPattern ;;
  match pattern with
  | Incremental => check (fun i => i - 1)
  | Alternating => check (fun _ => 0xa5a5a5a5)
  | Constant => check (fun _ => 0x12345678)
  | _ => throw (UnsupportedPatternCrorc pattern)
  end.

(** [ProgramDmaBench::checkErrors]. *)
Definition checkErrors (page : Page) (pageSize eventNumber counter : Z) : Op bool :=
  cardType <- gets mCardType ;;
  match cardType with
  | Crorc => checkErrorsCrorc page pageSize eventNumber counter
  | Cru => checkErrorsCru page pageSize eventNumber counter
  | _ => throw UnsupportedCardType
  end.

(** [ProgramDmaBench::getEventNumber]: the first word of the page. *)
Definition getEventNumber (page : Page) : Z := load page 0.

(** The lambda [getDataGeneratorCounterFromPage] of [readoutPage]. *)
Definition getDataGeneratorCounterFromPage (page : Page) : Op Z :=
  cardType <- gets mCardType ;;
  match cardType with
  | Crorc => ret (getEventNumber page)
  | Cru => ret (getEventNumber page / 256)
  | _ => throw UnsupportedCardType
  end.

(** [ProgramDmaBench::readoutPage], without the copy of the page to a file
    and the reset of the page after the readout, which touch neither the
    counters nor the error stream. *)
Definition readoutPage (page : Page) (pageSize readoutCount : Z) : Op unit :=
  noCheck <- gets noErrorCheck ;;
  (if negb noCheck then
     counter <- gets mDataGeneratorCounter ;;
     (if counter =? -1 then
        c <- getDataGeneratorCounterFromPage page ;;
        modify (set_mDataGeneratorCounter c)
      else ret tt) ;;
     counter <- gets mDataGeneratorCounter ;;
     hasError <- checkErrors page pageSize readoutCount counter ;;
     noResync <- gets noResyncCounter ;;
     if hasError && negb noResync then
       c <- getDataGeneratorCounterFromPage page ;;
       modify (set_mDataGeneratorCounter c)
     else ret tt
   else ret tt) ;;
  modify (fun b => set_mDataGeneratorCounter (mDataGeneratorCounter b + 1) b).

(** The pages handed to [readoutPage] by the readout thread, in order; the
    readout stops at the first exception. *)
Fixpoint readoutPages (pages : list (Page * Z * Z)) : Op unit :=
  match pages with
  | [] => ret tt
  | (page, pageSize, readoutCount) :: rest =>
      readoutPage page pageSize readoutCount ;;
      readoutPages rest
  end.

(** [ProgramDmaBench::outputErrors]: what is written to
    [readout_errors.txt]. *)
Definition outputErrors (b : Bench) : string := mErrorStream b.





(** The bench after the report of one discrepancy whose line is [text]:
    the statements shared by [addError] and the loop of [checkErrorsCru]. *)
Definition recorded (b : Bench) (text : string) : Bench :=
  let b1 := set_mErrorCount (mErrorCount b + 1) b in
  if mVerbose b && (mErrorCount b + 1 <? MAX_RECORDED_ERRORS)
  then set_mErrorStream (mErrorStream b ++ text)%string b1
  else b1.

(** The pattern functions of [checkErrorsCrorc], by pattern. *)
Definition crorcPattern (p : GeneratorPattern) (i : Z) : Z :=
  match p with
  | Incremental => i - 1
  | Alternating => 0xa5a5a5a5
  | Constant => 0x12345678
  | Random => 0
  end.

Definition supported (p : GeneratorPattern) : bool :=
  match p with Random => false | _ => true end.

(** The bench at the start of a run, for given options. *)
Definition fresh (verbose : bool) (card : CardType) (pattern : GeneratorPattern)
    (noCheck noResync : bool) : Bench :=
  {| mVerbose := verbose; mCardType := card; generatorPattern := pattern;
     noErrorCheck := noCheck; noResyncCounter := noResync;
     mErrorCount := 0; mErrorStream := EmptyString;
     mDataGeneratorCounter := -1 |}.



End ProgramDmaBench.

Module BenchExamples.
Import ProgramDmaBench.

(** A C-RORC page of 16 words that follows the incremental pattern for the
    event counter 5, and the same page with word 9 corrupted, and with word 0
    corrupted. *)
Definition goodCrorcPage : Page := fun i => if i =? 0 then 5 else i - 1.
Definition badCrorcPage : Page := fun i => if i =? 9 then 0 else goodCrorcPage i.
Definition badCounterPage : Page := fun i => if i =? 0 then 77 else goodCrorcPage i.

(** A CRU page of 16 words for the event counter 5, and the same page with
    word 8 corrupted. *)
Definition goodCruPage : Page := fun i => if i mod 8 =? 0 then 5 * 256 + i / 8 else 0.
Definition badCruPage : Page := fun i => if i =? 8 then 0 else goodCruPage i.

(** A bench in the middle of a run, its counter at 5. *)
Definition midRun (verbose : bool) (card : CardType) : Bench :=
  set_mDataGeneratorCounter 5 (fresh verbose card Incremental false false).

End BenchExamples.

(** ** Concrete channels *)

Module Examples.
Import CrorcDmaChannel.

(** The declarations with 128 descriptors, a transfer queue of the same
    capacity and [DTSW = 0x82] (the status word [0x400082] of the comment in
    [dataArrived] has this low byte); superpages are accepted when their size
    is a positive multiple of the 8 KiB page. *)
Definition declarations128 : Declarations :=
  {| MAX_SUPERPAGE_DESCRIPTORS := 128;
     TRANSFER_QUEUE_CAPACITY := 128;
     DTSW := 0x82;
     checkSuperpage := fun sp => (0 <? size sp) && (size sp mod 8192 =? 0);
     getBusOffsetAddress := fun o => o;
     isExternal := fun d => match d with Internal => false | _ => true end |}.

Definition noFaults : CardCmd -> bool := fun _ => false.

(** A channel as its constructor leaves it for the internal data source:
    generator enabled, ready-FIFO reset. *)
Definition constructed : Channel :=
  {| mDataSource := Internal; mSTBRD := false; mGeneratorEnabled := true;
     mRDYRX := false; mPageSize := 8192;
     mFreeFifoFront := 0; mFreeFifoBack := 0; mFreeFifoSize := 0;
     mTransferQueue := []; mReadyQueue := []; mPendingDmaStart := false;
     entries := replicate 128 ReadyFifo.reset;
     cardLog := [] |}.

(** The same for a front-end source: generator off, trigger [RDYRX]. *)
Definition constructedFee : Channel :=
  {| mDataSource := Fee; mSTBRD := false; mGeneratorEnabled := false;
     mRDYRX := true; mPageSize := 8192;
     mFreeFifoFront := 0; mFreeFifoBack := 0; mFreeFifoSize := 0;
     mTransferQueue := []; mReadyQueue := []; mPendingDmaStart := false;
     entries := replicate 128 ReadyFifo.reset;
     cardLog := [] |}.

(** A superpage of 8 KiB at a given offset. *)
Definition superpageAt (o : Z) : Superpage :=
  {| offset := o; size := 8192; received := 0; ready := false; userData := 0 |}.

(** After [startDma]. *)
Definition afterStart : Channel :=
  runAll declarations128 [CallDeviceStartDma noFaults] constructed.

(** After [startDma] and the push of one superpage. *)
Definition afterPush : Channel :=
  runAll declarations128
    [CallDeviceStartDma noFaults; CallPushSuperpage noFaults (superpageAt 0)]
    constructed.

(** The same after a first [fillSuperpages], which starts the generator. *)
Definition running : Channel :=
  runAll declarations128 [CallFillSuperpages noFaults] afterPush.

(** The card writes into slot 0 of the ready-FIFO. *)
Definition cardWrites (e : ReadyFifo.FifoEntry) (s : Channel) : Channel :=
  set_entries (<[0%nat := e]> (entries s)) s.

(** A completion of 2048 words. *)
Definition arrived : Channel :=
  cardWrites {| ReadyFifo.length := 2048; ReadyFifo.status := 0x82 |} running.

(** A completion whose status has the error bit: [0x80000082] as an [int32]. *)
Definition arrivedWithError : Channel :=
  cardWrites {| ReadyFifo.length := 2048; ReadyFifo.status := -2147483518 |} running.


(** After [startDma] and 128 pushes: every descriptor is in use. *)
Definition fullRing : Channel :=
  runAll declarations128
    (CallDeviceStartDma noFaults
       :: map (fun k => CallPushSuperpage noFaults (superpageAt (Z.of_nat k * 8192)))
            (seq 0 128))
    constructed.

End Examples.

(** ** The channel in use: histories of calls and the sweep as a function *)

Module ChannelUse.
Import CrorcDmaChannel.

(** What a client knows a superpage by: the channel writes [received] and
    [ready] only. *)
Definition region (sp : Superpage) : Z * Z * Z := (offset sp, size sp, userData sp).

(** What happens to a channel: a call of its client, or the card writing the
    ready-FIFO. *)
Inductive Event : Type :=
| ClientCall (c : Call)
| CardWrite (es : list ReadyFifo.FifoEntry).

Definition isRestart (e : Event) : bool :=
  match e with
  | ClientCall (CallDeviceStartDma _) => true
  | _ => false
  end.


(** The card calls that start the flow of data: the data generator and
    the trigger of the front-end. *)
Definition startsData (c : CardCmd) : bool :=
  match c with
  | StartDataGenerator | StartTrigger _ => true
  | _ => false
  end.

Definition starts (cmds : list CardCmd) : nat := length (List.filter startsData cmds).

(** A computation that only issues card calls, at most [n] of them starting
    the flow of data, and none when it throws. *)
Definition emits {A : Type} (n : nat) (m : Op A) : Prop :=
  forall s,
    exists cmds,
      snd (m s) = set_cardLog (cardLog s ++ cmds) s /\
      match fst (m s) with
      | Returns _ => (starts cmds <= n)%nat
      | Throws _ => starts cmds = 0%nat
      | Undefined => False
      end.

Section Use.
Context (decl : Declarations).

(** The channel after an event (the card writes the array it was given: the
    number of entries does not change). *)
Definition step (e : Event) (s : Channel) : Channel :=
  match e with
  | ClientCall c => snd (run decl c s)
  | CardWrite es =>
      if Nat.eqb (length es) (length (entries s)) then set_entries es s else s
  end.



Fixpoint after (evs : list Event) (s : Channel) : Channel :=
  match evs with
  | [] => s
  | e :: evs' => after evs' (step e s)
  end.



(** A descriptor that [dataArrived] reads as whole-arrived. *)
Definition wholeArrived (e : ReadyFifo.FifoEntry) : bool :=
  match arrival decl 0 e with
  | Returns WholeArrived => true
  | _ => false
  end.

(** The superpages a sweep hands over, read off the ready-FIFO as it is
    before the sweep: the superpages of the transfer queue, from its head,
    as long as their descriptors, from the back of the ring, are whole. *)
Fixpoint deliveries (es : list ReadyFifo.FifoEntry) (back : Z)
    (tq : list Superpage) : list Superpage :=
  match tq with
  | [] => []
  | sp :: rest =>
      match es !! Z.to_nat back with
      | Some e =>
          if wholeArrived e
          then setReady true (setReceived (lengthBytes e) sp)
               :: deliveries es (Z.rem (back + 1) (MAX_SUPERPAGE_DESCRIPTORS decl)) rest
          else []
      | None => []
      end
  end.

End Use.
End ChannelUse.

(** ** The pattern verifier over a run of pages *)

Module BenchRuns.
Import ProgramDmaBench.

(** The pattern functions of [checkErrorsCru], by pattern. *)
Definition cruPattern (p : GeneratorPattern) (counter i : Z) : Z :=
  match p with
  | Incremental => counter * 256 + i / 8
  | Alternating => 0xa5a5a5a5
  | Constant => 0x12345678
  | Random => 0
  end.

(** A page that passes the C-RORC checker for the event [c]: word 0 is the
    event counter, the words from 8 on follow the pattern. *)
Definition crorcPage (pattern : GeneratorPattern) (c : Z) (page : Page) (pageSize : Z)
  : Prop :=
  load page 0 = uint32 c /\
  forall i, 8 <= i < to_size_t pageSize / 4 ->
            load page i = uint32 (crorcPattern pattern i).

(** A page that passes the CRU checker for the event [c]: every 8th word
    follows the pattern. *)
Definition cruPage (pattern : GeneratorPattern) (c : Z) (page : Page) (pageSize : Z)
  : Prop :=
  load page 0 = uint32 (cruPattern pattern c 0) /\
  forall i, 0 <= i < to_size_t pageSize / 4 -> i mod 8 = 0 ->
            load page i = uint32 (cruPattern pattern c i).

(** Pages of consecutive events, from the event [c] on, each shorter than
    the range of the 32-bit index of the checkers. *)
Fixpoint crorcStream (pattern : GeneratorPattern) (c : Z) (pages : list (Page * Z * Z))
  : Prop :=
  match pages with
  | [] => True
  | (page, pageSize, _) :: rest =>
      crorcPage pattern c page pageSize /\
      to_size_t pageSize / 4 + 8 <= 2 ^ 32 /\
      crorcStream pattern (c + 1) rest
  end.

Fixpoint cruStream (pattern : GeneratorPattern) (c : Z) (pages : list (Page * Z * Z))
  : Prop :=
  match pages with
  | [] => True
  | (page, pageSize, _) :: rest =>
      cruPage pattern c page pageSize /\
      to_size_t pageSize / 4 + 8 <= 2 ^ 32 /\
      cruStream pattern (c + 1) rest
  end.

(** The counter of the bench expects the event [c]. *)
Definition expects (modulus : Z) (b : Bench) (c : Z) : Prop :=
  0 <= mDataGeneratorCounter b /\
  mDataGeneratorCounter b mod modulus = c mod modulus.

(** A computation that, on a bench for the card [card], counts at most [n]
    errors and takes none back. *)
Definition Adds {A : Type} (card : CardType) (n : Z) (m : Op A) : Prop :=
  forall b r b',
    mCardType b = card -> m b = (r, b') ->
    mCardType b' = card /\ mErrorCount b <= mErrorCount b' <= mErrorCount b + n.

(** The errors one page can count, by card: the C-RORC checker reports the
    event counter and the first bad word, the CRU checker the first bad word. *)
Definition perPage (card : CardType) : Z :=
  match card with
  | Crorc => 2
  | Cru => 1
  | OtherCard => 0
  end.

(** [BUFFER_DEFAULT_VALUE]. *)
Definition BUFFER_DEFAULT_VALUE : Z := 0xCCCCCCCC.

(** [page[i] = v]. *)
Definition store (page : Page) (i v : Z) : Page :=
  fun j => if j =? i then v else page j.

(** The loop of [resetPage], on a bound of passes ([i] is a [size_t]). *)
Fixpoint resetWords (page : Page) (pageSize32 : Z) (passes : nat) (i : Z) : Page :=
  match passes with
  | O => page
  | S passes' =>
      if i <? pageSize32
      then resetWords (store page i BUFFER_DEFAULT_VALUE) pageSize32 passes'
             (to_size_t (i + 1))
      else page
  end.

(** [ProgramDmaBench::resetPage]. *)
Definition resetPage (page : Page) (pageSize : Z) : Page :=
  let pageSize32 := to_size_t pageSize / 4 in
  resetWords page pageSize32 (Z.to_nat pageSize32) 0.

End BenchRuns.

(** ** The buffer of the DMA benchmark and its superpages *)

Module BenchSetup.

(** [HugePageType]. *)
Inductive HugePageType : Type := SIZE_2MB | SIZE_1GB.

(** The exceptions of the size checks of [run] and [dmaLoop]; a
    [MemoryMapException] is that of the creation of the buffer file on
    hugepages of the given type. *)
Inductive Thrown : Type :=
| FileOutputBoth
| BufferNotMultipleOf2MiB
| HugepageNotMultipleOfSuperpage
| BufferSmallerThanSuperpage
| MemoryMapException (t : HugePageType)
| SuperpageNotMultipleOfPage
| BufferTooSmall.

Definition SIZE_2MiB : Z := 2 * 1024 * 1024.
Definition SIZE_1GiB : Z := 1 * 1024 * 1024 * 1024.

Definition hugePageBytes (t : HugePageType) : Z :=
  match t with
  | SIZE_2MB => SIZE_2MiB
  | SIZE_1GB => SIZE_1GiB
  end.

(** What [run] settles before it opens the channel: the hugepages the
    buffer is on, [mMaxSuperpages] and [mPagesPerSuperpage]. *)
Record Layout : Type := {
  hugePageType : HugePageType;
  mMaxSuperpages : Z;
  mPagesPerSuperpage : Z
}.

Section Setup.

(** [Utilities::isMultiple], [Iommu::isEnabled()], and whether the creation
    of the memory-mapped buffer file on hugepages of a type throws: their
    code is not in the sources at hand. *)
Context (isMultiple : Z -> Z -> bool).
Context (iommuEnabled : bool).
Context (mapFails : HugePageType -> bool).

(** The lambda [createBuffer] of [run]. *)
Definition createBuffer (t : HugePageType) : Outcome Thrown HugePageType :=
  if mapFails t then Throws (MemoryMapException t) else Returns t.

(** The block "Create buffer" of [run]: the result is the type of the
    hugepages the buffer file was created on. [mMemoryMappedFile] is empty
    when [run] starts, and stays empty when the constructor of the file
    throws. *)
Definition createBufferBlock (mBufferSize mSuperpageSize : Z)
  : Outcome Thrown HugePageType :=
  if negb (isMultiple mBufferSize SIZE_2MiB) then Throws BufferNotMultipleOf2MiB
  else
    let hugePageType := if isMultiple mBufferSize SIZE_1GiB then SIZE_1GB else SIZE_2MB in
    let hugePageSize := if isMultiple mBufferSize SIZE_1GiB then SIZE_1GiB else SIZE_2MiB in
    if negb iommuEnabled && negb (isMultiple hugePageSize mSuperpageSize)
    then Throws HugepageNotMultipleOfSuperpage
    else if mBufferSize <? mSuperpageSize then Throws BufferSmallerThanSuperpage
    else
      let mMemoryMappedFile :=
        match hugePageType with
        | SIZE_1GB =>
            match createBuffer SIZE_1GB with
            | Returns t => Some t
            | _ => None
            end
        | SIZE_2MB => None
        end in
      match mMemoryMappedFile with
      | Some t => Returns t
      | None => createBuffer SIZE_2MB
      end.

(** Unsigned division of two [size_t]. *)
Definition divide (x y : Z) : Outcome Thrown Z :=
  if y =? 0 then Undefined else Returns (x / y).

(** [run], from the file output options to the counts of superpages and
    pages (the options on the pattern and the readout mode, and the channel
    parameters, do not bear on them). *)
Definition run (fileOutputAscii fileOutputBin : bool)
    (mBufferSize mSuperpageSize mPageSize : Z) : Outcome Thrown Layout :=
  if fileOutputAscii && fileOutputBin then Throws FileOutputBoth
  else
    match createBufferBlock mBufferSize mSuperpageSize with
    | Returns t =>
        if negb (isMultiple mSuperpageSize mPageSize)
        then Throws SuperpageNotMultipleOfPage
        else
          match divide mBufferSize mSuperpageSize with
          | Returns maxSuperpages =>
              match divide mSuperpageSize mPageSize with
              | Returns pagesPerSuperpage =>
                  Returns {| hugePageType := t;
                             mMaxSuperpages := maxSuperpages;
                             mPagesPerSuperpage := pagesPerSuperpage |}
              | Throws x => Throws x
              | Undefined => Undefined
              end
          | Throws x => Throws x
          | Undefined => Undefined
          end
    | Throws x => Throws x
    | Undefined => Undefined
    end.

End Setup.

(** The lambda [indexToOffset] of [dmaLoop]. *)
Definition indexToOffset (mSuperpageSize : Z) (i : Z) : Z :=
  to_size_t (i * mSuperpageSize).

(** The start of [dmaLoop]: the offsets written to the free queue. *)
Definition freeQueueOffsets (maxSuperpages mSuperpageSize : Z)
  : Outcome Thrown (list Z) :=
  if maxSuperpages <? 1 then Throws BufferTooSmall
  else Returns (map (fun i => indexToOffset mSuperpageSize (Z.of_nat i))
                  (seq 0 (Z.to_nat maxSuperpages))).

(** A block of memory that lies within one hugepage of the buffer. *)
Definition withinHugePage (hugePageSize offset size : Z) : Prop :=
  offset / hugePageSize = (offset + size - 1) / hugePageSize.

(** What is used of [Utilities::isMultiple]: on positive sizes, with the
    first not smaller than the second, it tells whether the second divides
    the first; and it is [true] only then. *)
Definition isMultipleSpec (isMultiple : Z -> Z -> bool) : Prop :=
  (forall x y, 0 < y -> isMultiple x y = true -> x mod y = 0) /\
  (forall x y, 0 < y <= x -> x mod y = 0 -> isMultiple x y = true).

End BenchSetup.

(** ** The life of a C-RORC channel: constructor, reset, stop *)

Module ChannelLifecycle.
Import CrorcDmaChannel.

(** The calls on the card object of the constructor, of [deviceResetChannel]
    and of [deviceStopDma]: those of the transfer functions and six more. *)
Inductive CardCall : Type :=
| Transfer (c : CardCmd)
| SetLoopbackOff
| DdlReadDiu (transaction timeout : Z)
| DdlReadSiu (transaction timeout : Z)
| StopDataGenerator
| StopTrigger
| StopDataReceiver.

Inductive Thrown : Type :=
| PageSizeNotSupported (pageSize : Z)
| DataSourceNotSupported (d : DataSource)
| ScatterGatherEntryTooSmall (entrySize fifoSize : Z)
| SiuNoSignal
| Fault (c : CardCall).

Definition what (e : Thrown) : string :=
  match e with
  | PageSizeNotSupported _ => "CRORC only supports 8KiB DMA page size"
  | DataSourceNotSupported _ => "CRORC does not support specified data source"
  | ScatterGatherEntryTooSmall _ _ =>
      "Scatter gather list entry for internal FIFO was too small"
  | SiuNoSignal =>
      "SIU in no signal state (probably not connected), unable to reset SIU."
  | Fault _ => "card"
  end.

(** A computation on the card alone: its outcome and the calls it issued, in
    order. A call that raises is not among them. *)
Definition Calls (A : Type) : Type := Outcome Thrown A * list CardCall.

Definition done {A : Type} (a : A) : Calls A := (Returns a, []).
Definition raise {A : Type} (x : Thrown) : Calls A := (Throws x, []).

Definition andThen {A B : Type} (m : Calls A) (k : A -> Calls B) : Calls B :=
  match m with
  | (Returns a, l) => let (r, l') := k a in (r, l ++ l')
  | (Throws x, l) => (Throws x, l)
  | (Undefined, l) => (Undefined, l)
  end.

Definition call (faults : CardCall -> bool) (c : CardCall) : Calls unit :=
  if faults c then raise (Fault c) else (Returns tt, [c]).

(** The calls of the transfer functions among a list of calls. *)
Fixpoint transfers (l : list CardCall) : list CardCmd :=
  match l with
  | [] => []
  | Transfer c :: l' => c :: transfers l'
  | _ :: l' => transfers l'
  end.

(** The optional parameters the constructor reads. *)
Record Parameters : Type := {
  getDmaPageSize : option Z;
  getStbrdEnabled : option bool;
  getDataSource : option DataSource
}.

Definition get_value_or {A : Type} (o : option A) (d : A) : A :=
  match o with Some a => a | None => d end.

Section Lifecycle.

(** [DMA_PAGE_SIZE] and [sizeof(ReadyFifo)] are declared in headers that are
    not among the sources. The card is hardware: [faults] says which calls
    raise, [diuStatus] is the status word [ddlReadDiu] returns, [timeout] the
    product of [Ddl::RESPONSE_TIME] and the loop count [initDiuVersion]
    measured. *)
Context (decl : Declarations) (DMA_PAGE_SIZE FIFO_SIZE : Z).
Context (faults : CardCall -> bool) (diuStatus timeout : Z).

(** [CrorcDmaChannel::deviceResetChannel] (the waits leave no trace). *)
Definition deviceResetChannel (resetLevel : ResetLevel) : Calls unit :=
  andThen (call faults (Transfer InitDiuVersion)) (fun _ =>
  match resetLevel with
  | LevelInternal =>
      call faults (Transfer (ResetCommand [RORC; FF; FIFOS; ERROR; COUNTERS]))
  | InternalDiu =>
      call faults (Transfer (ResetCommand [RORC; DIU]))
  | InternalDiuSiu =>
      andThen (call faults SetLoopbackOff) (fun _ =>
      andThen (call faults (Transfer (ResetCommand [DIU]))) (fun _ =>
      andThen (call faults (Transfer (ResetCommand [SIU]))) (fun _ =>
      andThen (call faults (DdlReadDiu 0 timeout)) (fun _ =>
      if Z.land (Z.shiftr diuStatus 15) 7 =? 6 then raise SiuNoSignal
      else call faults (DdlReadSiu 0 timeout)))))
  | Nothing => done tt
  end).

(** [CrorcDmaChannel::deviceStopDma]. *)
Definition deviceStopDma (s : Channel) : Calls unit :=
  andThen
    (if mGeneratorEnabled s then call faults StopDataGenerator
     else if mRDYRX s || mSTBRD s then call faults StopTrigger
     else done tt)
    (fun _ => call faults StopDataReceiver).

(** The constructor of [CrorcDmaChannel], after the constructor of its base
    class. [blank] holds the members as the header initialises them;
    [entrySize] is the size of the first entry of the scatter-gather list of
    the ready-FIFO buffer. The result is the channel, its log holding the
    calls the constructor issued. *)
Definition construct (blank : Channel) (parameters : Parameters) (entrySize : Z)
  : Calls Channel :=
  let mPageSize := get_value_or (getDmaPageSize parameters) DMA_PAGE_SIZE in
  let mSTBRD := get_value_or (getStbrdEnabled parameters) false in
  let mDataSource := get_value_or (getDataSource parameters) Internal in
  if negb (mPageSize =? DMA_PAGE_SIZE) then raise (PageSizeNotSupported mPageSize)
  else
    match mDataSource with
    | Ddg => raise (DataSourceNotSupported mDataSource)
    | _ =>
      let mGeneratorEnabled := match mDataSource with Fee => false | _ => true end in
      let mRDYRX :=
        if negb mGeneratorEnabled then (if mSTBRD then false else true)
        else CrorcDmaChannel.mRDYRX blank in
      if entrySize <? FIFO_SIZE
      then raise (ScatterGatherEntryTooSmall entrySize FIFO_SIZE)
      else
        let entries :=
          replicate (Z.to_nat (MAX_SUPERPAGE_DESCRIPTORS decl)) ReadyFifo.reset in
        match deviceResetChannel LevelInternal with
        | (Returns _, l) =>
            (Returns
               {| CrorcDmaChannel.mDataSource := mDataSource;
                  CrorcDmaChannel.mSTBRD := mSTBRD;
                  CrorcDmaChannel.mGeneratorEnabled := mGeneratorEnabled;
                  CrorcDmaChannel.mRDYRX := mRDYRX;
                  CrorcDmaChannel.mPageSize := mPageSize;
                  mFreeFifoFront := mFreeFifoFront blank;
                  mFreeFifoBack := mFreeFifoBack blank;
                  mFreeFifoSize := mFreeFifoSize blank;
                  mTransferQueue := mTransferQueue blank;
                  mReadyQueue := mReadyQueue blank;
                  mPendingDmaStart := mPendingDmaStart blank;
                  CrorcDmaChannel.entries := entries;
                  cardLog := cardLog blank ++ transfers l |}, l)
        | (Throws x, l) => (Throws x, l)
        | (Undefined, l) => (Undefined, l)
        end
    end.

End Lifecycle.


End ChannelLifecycle.

(** * Properties of the C-RORC channel *)

Module ChannelFacts.
Import CrorcDmaChannel.

Ltac unfold_op :=
  unfold bind, ret, throw, undefined, gets, modify in *.

Ltac unfold_set :=
  repeat match goal with s : Channel |- _ => destruct s end;
  cbn [set_mFreeFifoFront set_mFreeFifoBack set_mFreeFifoSize
       set_mTransferQueue set_mReadyQueue set_mPendingDmaStart set_entries
       set_cardLog mDataSource mSTBRD mGeneratorEnabled mRDYRX mPageSize
       mFreeFifoFront mFreeFifoBack mFreeFifoSize mTransferQueue mReadyQueue
       mPendingDmaStart entries cardLog] in *.

Section Facts.
Context (decl : Declarations).

Abbreviation N := (MAX_SUPERPAGE_DESCRIPTORS decl).

Lemma entry_at (s : Channel) (i : Z) (e : ReadyFifo.FifoEntry) :
  0 <= i -> entries s !! Z.to_nat i = Some e -> entry i s = (Returns e, s).
Proof.
  intros Hi He. unfold entry.
  destruct (i <? 0) eqn:Hneg; [apply Z.ltb_lt in Hneg; lia|].
  now rewrite He.
Qed.

Lemma dataArrived_at (s : Channel) (i : Z) (e : ReadyFifo.FifoEntry) :
  0 <= i -> entries s !! Z.to_nat i = Some e ->
  dataArrived decl i s =
    (match arrival decl i e with
     | Returns st => Returns st
     | Throws x => Throws x
     | Undefined => Undefined
     end, s).
Proof.
  intros Hi He. unfold dataArrived, arrival, bind.
  rewrite (entry_at s i e Hi He). cbn zeta.
  repeat match goal with |- context [if ?c then _ else _] => destruct c end;
    reflexivity.
Qed.

Lemma arrivalStep_whole (s : Channel) (e : ReadyFifo.FifoEntry)
    (sp : Superpage) (rest : list Superpage) :
  0 <= mFreeFifoBack s ->
  entries s !! Z.to_nat (mFreeFifoBack s) = Some e ->
  arrival decl (mFreeFifoBack s) e = Returns WholeArrived ->
  mTransferQueue s = sp :: rest ->
  arrivalStep decl s = (Returns true, complete decl e sp rest s).
Proof.
  intros Hb He Ha Hq. unfold arrivalStep, isArrived, getLength, resetDescriptor.
  unfold bind at 1. unfold gets at 1. unfold bind at 1. unfold bind at 1.
  rewrite (dataArrived_at s _ e Hb He), Ha. unfold ret at 1.
  unfold bind at 1. unfold bind at 1. rewrite (entry_at s _ e Hb He).
  unfold ret at 1. unfold bind at 1. unfold bind at 1.
  rewrite (entry_at s _ e Hb He).
  unfold_op. unfold transferFront, complete. unfold_set.
  rewrite Hq. reflexivity.
Qed.

Lemma arrivalStep_other (s : Channel) (e : ReadyFifo.FifoEntry) :
  0 <= mFreeFifoBack s ->
  entries s !! Z.to_nat (mFreeFifoBack s) = Some e ->
  arrival decl (mFreeFifoBack s) e <> Returns WholeArrived ->
  arrivalStep decl s =
    (match arrival decl (mFreeFifoBack s) e with
     | Returns _ => Returns false
     | Throws x => Throws x
     | Undefined => Undefined
     end, s).
Proof.
  intros Hb He Ha. unfold arrivalStep, isArrived.
  unfold bind at 1. unfold gets at 1. unfold bind at 1. unfold bind at 1.
  rewrite (dataArrived_at s _ e Hb He).
  destruct (arrival decl (mFreeFifoBack s) e) as [[]| |]; try reflexivity.
  congruence.
Qed.

Lemma arrivalStep_out_of_bounds (s : Channel) :
  mFreeFifoBack s < 0 \/ entries s !! Z.to_nat (mFreeFifoBack s) = None ->
  arrivalStep decl s = (Undefined, s).
Proof.
  intros H. unfold arrivalStep, isArrived, dataArrived, entry. unfold_op.
  destruct (mFreeFifoBack s <? 0) eqn:Hneg; [reflexivity|].
  destruct H as [H|H]; [apply Z.ltb_ge in Hneg; lia|]. now rewrite H.
Qed.

Lemma arrivalStep_whole_empty (s : Channel) (e : ReadyFifo.FifoEntry) :
  0 <= mFreeFifoBack s ->
  entries s !! Z.to_nat (mFreeFifoBack s) = Some e ->
  arrival decl (mFreeFifoBack s) e = Returns WholeArrived ->
  mTransferQueue s = [] ->
  fst (arrivalStep decl s) = Undefined.
Proof.
  intros Hb He Ha Hq. unfold arrivalStep, isArrived, getLength, resetDescriptor.
  unfold bind at 1. unfold gets at 1. unfold bind at 1. unfold bind at 1.
  rewrite (dataArrived_at s _ e Hb He), Ha. unfold ret at 1.
  unfold bind at 1. unfold bind at 1. rewrite (entry_at s _ e Hb He).
  unfold ret at 1. unfold bind at 1. unfold bind at 1.
  rewrite (entry_at s _ e Hb He).
  unfold_op. unfold transferFront. unfold_set. rewrite Hq. reflexivity.
Qed.

(** A pass that asks for another pass is a completion. *)
Lemma arrivalStep_true_inv (s s' : Channel) :
  arrivalStep decl s = (Returns true, s') ->
  exists e sp rest,
    0 <= mFreeFifoBack s /\
    entries s !! Z.to_nat (mFreeFifoBack s) = Some e /\
    arrival decl (mFreeFifoBack s) e = Returns WholeArrived /\
    mTransferQueue s = sp :: rest /\
    s' = complete decl e sp rest s.
Proof.
  intros H.
  destruct (Z.lt_ge_cases (mFreeFifoBack s) 0) as [Hb|Hb].
  { rewrite arrivalStep_out_of_bounds in H by auto. discriminate. }
  destruct (entries s !! Z.to_nat (mFreeFifoBack s)) as [e|] eqn:He.
  2:{ rewrite arrivalStep_out_of_bounds in H by auto. discriminate. }
  destruct (arrival decl (mFreeFifoBack s) e) as [[]| |] eqn:Ha;
    try (rewrite (arrivalStep_other s e Hb He) in H by congruence;
         rewrite Ha in H; discriminate).
  destruct (mTransferQueue s) as [|sp rest] eqn:Hq.
  { pose proof (arrivalStep_whole_empty s e Hb He Ha Hq) as Hu.
    rewrite H in Hu. discriminate. }
  rewrite (arrivalStep_whole s e sp rest Hb He Ha Hq) in H.
  exists e, sp, rest. repeat split; auto. congruence.
Qed.

(** The equation of the [while] loop: the bound of [arrivalPasses] is never
    what ends it. *)
Lemma arrivalLoop_unfold (s : Channel) :
  arrivalLoop decl s =
    if mFreeFifoSize s >? 0 then
      match arrivalStep decl s with
      | (Returns true, s') => arrivalLoop decl s'
      | (Returns false, s') => (Returns tt, s')
      | (Throws x, s') => (Throws x, s')
      | (Undefined, s') => (Undefined, s')
      end
    else (Returns tt, s).
Proof.
  unfold arrivalLoop. unfold bind at 1. unfold gets at 1.
  destruct (mFreeFifoSize s >? 0) eqn:Hpos.
  - apply Z.gtb_lt in Hpos.
    replace (Z.to_nat (mFreeFifoSize s))
      with (S (Z.to_nat (mFreeFifoSize s - 1))) by lia.
    cbn [arrivalPasses]. unfold bind at 1. unfold gets at 1.
    replace (mFreeFifoSize s >? 0) with true by (symmetry; apply Z.gtb_lt; lia).
    unfold bind at 1.
    destruct (arrivalStep decl s) as [[[]| |] s'] eqn:Hstep; try reflexivity.
    apply arrivalStep_true_inv in Hstep.
    destruct Hstep as (e & sp & rest & _ & _ & _ & _ & ->).
    unfold bind, gets. unfold complete. unfold_set. reflexivity.
  - assert (Z.to_nat (mFreeFifoSize s) = O) as ->
      by (rewrite Z.gtb_ltb in Hpos; apply Z.ltb_ge in Hpos; lia).
    reflexivity.
Qed.




(** *** Calls that only talk to the card *)

Lemma cardOnly_ret {A : Type} (faults : CardCmd -> bool) (a : A) :
  cardOnly faults (ret a).
Proof. intros s. exists (cardLog s). destruct s; cbn; auto. Qed.

Lemma cardOnly_gets {A : Type} (faults : CardCmd -> bool) (f : Channel -> A) :
  cardOnly faults (gets f).
Proof. intros s. exists (cardLog s). destruct s; cbn; auto. Qed.

Lemma cardOnly_issue (faults : CardCmd -> bool) (c : CardCmd) :
  cardOnly faults (issue faults c).
Proof.
  intros s. unfold issue. destruct (faults c) eqn:Hc.
  - exists (cardLog s). destruct s; cbn; auto.
  - eexists. cbn. split; [reflexivity|exact I].
Qed.

Lemma cardOnly_bind {A B : Type} (faults : CardCmd -> bool)
    (m : Op A) (k : A -> Op B) :
  cardOnly faults m -> (forall a, cardOnly faults (k a)) ->
  cardOnly faults (bind m k).
Proof.
  intros Hm Hk s. unfold bind. destruct (Hm s) as (l1 & H1 & R1).
  destruct (m s) as [[a|x|] s1]; cbn in H1, R1; subst s1.
  - destruct (Hk a (set_cardLog l1 s)) as (l2 & H2 & R2). exists l2.
    rewrite H2. split; [reflexivity|exact R2].
  - exists l1. cbn. auto.
  - contradiction.
Qed.

Lemma cardOnly_if {A : Type} (faults : CardCmd -> bool) (b : bool) (m1 m2 : Op A) :
  cardOnly faults m1 -> cardOnly faults m2 -> cardOnly faults (if b then m1 else m2).
Proof. destruct b; auto. Qed.

Ltac card_only :=
  repeat first
    [ apply cardOnly_ret | apply cardOnly_gets
    | apply cardOnly_issue | apply cardOnly_if
    | apply cardOnly_bind; [|intros ?]
    | match goal with |- cardOnly _ (match ?x with _ => _ end) => destruct x end ].

Lemma cardOnly_armDdl (faults : CardCmd -> bool) (l : ResetLevel) :
  cardOnly faults (armDdl decl faults l).
Proof. unfold armDdl. destruct l; card_only. Qed.

Lemma cardOnly_startDataGenerator (faults : CardCmd -> bool) :
  cardOnly faults (startDataGenerator faults).
Proof. unfold startDataGenerator. card_only. Qed.

(** With a card that raises nothing, such a computation returns. *)
Lemma cardOnly_returns {A : Type} (faults : CardCmd -> bool) (m : Op A) (s : Channel) :
  cardOnly faults m -> (forall c, faults c = false) ->
  exists a log, m s = (Returns a, set_cardLog log s).
Proof.
  intros Hm Hf. destruct (Hm s) as (l & H1 & R1).
  destruct (m s) as [[a|x|] s1]; cbn in H1, R1; subst s1.
  - eauto.
  - destruct x; try contradiction. rewrite Hf in R1. discriminate.
  - contradiction.
Qed.

(** [startPendingDma] on a pending channel with a superpage in flight: the
    start commands are issued and the flag is cleared, unless a card call
    raises, which leaves the flag set. *)
Lemma startPendingDma_pending (faults : CardCmd -> bool) (s : Channel) :
  mPendingDmaStart s = true -> mTransferQueue s <> [] ->
  match startPendingDma faults s with
  | (Returns _, s') =>
      exists log, s' = set_mPendingDmaStart false (set_cardLog log s)
  | (Throws (CardFault c), s') =>
      faults c = true /\ exists log, s' = set_cardLog log s
  | _ => False
  end.
Proof.
  intros Hp Hq. unfold startPendingDma.
  unfold bind at 1. unfold gets at 1. rewrite Hp. cbn [negb].
  unfold bind at 1. unfold gets at 1.
  destruct (mTransferQueue s) as [|sp rest]; [congruence|].
  unfold bind at 1. unfold gets at 1.
  match goal with |- context [bind ?m _] =>
    assert (cardOnly faults m) as Hm by card_only;
    destruct (Hm s) as (l & H1 & R1); unfold bind at 1;
    destruct (m s) as [[a|x|] s1] end; cbn in H1, R1; subst s1.
  - exists l. reflexivity.
  - destruct x; try contradiction. eauto.
  - contradiction.
Qed.


Lemma startPendingDma_shape (faults : CardCmd -> bool) (s : Channel) :
  exists log p,
    snd (startPendingDma faults s) = set_mPendingDmaStart p (set_cardLog log s) /\
    fst (startPendingDma faults s) <> Undefined.
Proof.
  destruct (mPendingDmaStart s) eqn:Hp.
  - destruct (mTransferQueue s) as [|sp rest] eqn:Hq.
    + exists (cardLog s), true. unfold startPendingDma, bind, gets.
      rewrite Hp. cbn. rewrite Hq. cbn. split; [|discriminate].
      destruct s; cbn in *; subst; reflexivity.
    + pose proof (startPendingDma_pending faults s Hp) as H.
      rewrite Hq in H. specialize (H ltac:(discriminate)).
      destruct (startPendingDma faults s) as [[a|x|] s']; cbn.
      * destruct H as [l ->]. exists l, false. split; [reflexivity|discriminate].
      * destruct x; try contradiction. destruct H as [_ [l ->]].
        exists l, true. split; [|discriminate].
        destruct s; cbn in *; subst; reflexivity.
      * contradiction.
  - exists (cardLog s), false. unfold startPendingDma, bind, gets.
    rewrite Hp. cbn. split; [|discriminate].
    destruct s; cbn in *; subst; reflexivity.
Qed.

(** A computation that only talks to the card, followed by the rest. *)
Lemma bind_cardOnly {A B : Type} (faults : CardCmd -> bool)
    (m : Op A) (k : A -> Op B) (s : Channel) :
  cardOnly faults m ->
  (exists a log, bind m k s = k a (set_cardLog log s)) \/
  (exists c log, faults c = true /\
                 bind m k s = (Throws (CardFault c), set_cardLog log s)).
Proof.
  intros Hm. destruct (Hm s) as (l & H1 & R1). unfold bind.
  destruct (m s) as [[a|x|] s1]; cbn in H1, R1; subst s1.
  - left. eauto.
  - right. destruct x; try contradiction. eauto.
  - contradiction.
Qed.

(** [deviceStartDma] either resets the counters and the queues, or raises
    on a card call before it has touched them. *)
Lemma deviceStartDma_shape (faults : CardCmd -> bool) (s : Channel) :
  match deviceStartDma decl faults s with
  | (Returns _, s') => exists log, s' = started (set_cardLog log s)
  | (Throws (CardFault c), s') => faults c = true /\ exists log, s' = set_cardLog log s
  | _ => False
  end.
Proof.
  unfold deviceStartDma.
  destruct (bind_cardOnly faults (issue faults InitDiuVersion)
              (fun _ =>
                 src <- gets mDataSource ;;
                 match src with
                 | Siu | Fee => armDdl decl faults InternalDiuSiu
                 | Diu => armDdl decl faults InternalDiu
                 | _ => armDdl decl faults LevelInternal
                 end ;;
                 startDataReceiving faults ;;
                 modify (set_mFreeFifoFront 0) ;;
                 modify (set_mFreeFifoBack 0) ;;
                 modify (set_mFreeFifoSize 0) ;;
                 modify (set_mReadyQueue []) ;;
                 modify (set_mTransferQueue []) ;;
                 modify (set_mPendingDmaStart true)) s
              (cardOnly_issue faults _)) as [(a & l1 & ->)|(c & l & Hc & ->)];
    [|eauto].
  unfold bind at 1. unfold gets at 1.
  match goal with |- context [bind ?m ?k (set_cardLog l1 s)] =>
    destruct (bind_cardOnly faults m k (set_cardLog l1 s)) as
      [(a2 & l2 & ->)|(c & l & Hc & ->)] end.
  { destruct (mDataSource (set_cardLog l1 s)); apply cardOnly_armDdl. }
  2:{ split; [assumption|]. exists l. reflexivity. }
  match goal with |- context [bind ?m ?k (set_cardLog l2 ?s0)] =>
    destruct (bind_cardOnly faults m k (set_cardLog l2 s0)) as
      [(a3 & l3 & ->)|(c & l & Hc & ->)] end.
  { apply cardOnly_issue. }
  2:{ split; [assumption|]. exists l. reflexivity. }
  exists l3. reflexivity.
Qed.

(** [pushSuperpage] either appends the superpage, or throws with the
    channel untouched. *)
Lemma pushSuperpage_shape (faults : CardCmd -> bool) (sp : Superpage) (s : Channel) :
  match pushSuperpage decl faults sp s with
  | (Returns _, s') =>
      checkSuperpage decl sp = true /\
      Z.of_nat (length (mTransferQueue s)) < TRANSFER_QUEUE_CAPACITY decl /\
      mFreeFifoSize s < N /\
      faults (pushCall decl sp s) = false /\
      s' = pushed decl sp (set_cardLog (cardLog s ++ [pushCall decl sp s]) s)
  | (Throws x, s') =>
      s' = s /\
      x = (if negb (checkSuperpage decl sp) then SuperpageRejected
           else if Z.of_nat (length (mTransferQueue s)) >=? TRANSFER_QUEUE_CAPACITY decl
           then TransferQueueFull
           else if mFreeFifoSize s >=? N then FirmwareQueueFull
           else CardFault (pushCall decl sp s))
  | (Undefined, _) => False
  end.
Proof.
  unfold pushSuperpage, pushFreeFifoPage, issue, pushCall.
  unfold bind, gets, modify, ret, throw.
  destruct (checkSuperpage decl sp); cbn; [|auto].
  destruct (Z.of_nat (length (mTransferQueue s)) >=? TRANSFER_QUEUE_CAPACITY decl)
    eqn:Hc; cbn; [auto|].
  destruct (mFreeFifoSize s >=? N) eqn:Hn; cbn; [auto|].
  destruct (faults _) eqn:Hf; cbn; [auto|].
  rewrite Z.geb_leb in Hc, Hn. apply Z.leb_gt in Hc, Hn.
  repeat split; auto.
Qed.

(** *** The invariant *)

Lemma Inv_same (s s' : Channel) :
  mFreeFifoFront s' = mFreeFifoFront s ->
  mFreeFifoBack s' = mFreeFifoBack s ->
  mFreeFifoSize s' = mFreeFifoSize s ->
  length (entries s') = length (entries s) ->
  mTransferQueue s' = mTransferQueue s ->
  Inv decl s -> Inv decl s'.
Proof.
  intros Hf Hb Hs He Hq [I1 I2 I3 I4 I5 I6].
  constructor; rewrite ?Hf, ?Hb, ?Hs, ?He, ?Hq; assumption.
Qed.

Lemma Inv_started (s : Channel) :
  0 < N -> length (entries s) = Z.to_nat N -> Inv decl (started s).
Proof.
  intros HN He.
  constructor; unfold started; unfold_set;
    first [assumption | cbn [length]; lia | rewrite Z.mod_0_l by lia; reflexivity].
Qed.

Lemma Inv_pushed (sp : Superpage) (s : Channel) :
  Inv decl s -> mFreeFifoSize s < N -> Inv decl (pushed decl sp s).
Proof.
  intros [I1 I2 I3 I4 I5 I6] Hlt.
  assert (Z.rem (mFreeFifoFront s + 1) N = (mFreeFifoFront s + 1) mod N) as Hrem
    by (apply Z.rem_mod_nonneg; lia).
  constructor; unfold pushed; unfold_set; rewrite ?Hrem.
  - apply Z.mod_pos_bound. lia.
  - assumption.
  - lia.
  - assumption.
  - rewrite length_app. cbn [length]. lia.
  - rewrite I6, Z.add_mod_idemp_l by lia. f_equal. lia.
Qed.

Lemma Inv_complete (e : ReadyFifo.FifoEntry) (sp : Superpage)
    (rest : list Superpage) (s : Channel) :
  Inv decl s -> 0 < mFreeFifoSize s -> mTransferQueue s = sp :: rest ->
  Inv decl (complete decl e sp rest s).
Proof.
  intros [I1 I2 I3 I4 I5 I6] Hpos Hq.
  assert (Z.rem (mFreeFifoBack s + 1) N = (mFreeFifoBack s + 1) mod N) as Hrem
    by (apply Z.rem_mod_nonneg; lia).
  constructor; unfold complete; unfold_set; rewrite ?Hrem.
  - assumption.
  - apply Z.mod_pos_bound. lia.
  - lia.
  - rewrite length_insert. assumption.
  - rewrite Hq in I5. cbn [length] in I5. lia.
  - rewrite I6, Z.add_mod_idemp_l by lia. f_equal. lia.
Qed.


Lemma arrival_defined (i : Z) (e : ReadyFifo.FifoEntry) :
  arrival decl i e <> Undefined.
Proof.
  unfold arrival.
  repeat match goal with |- context [if ?c then _ else _] => destruct c end;
    discriminate.
Qed.

Lemma Inv_entry (s : Channel) :
  Inv decl s ->
  0 <= mFreeFifoBack s /\ exists e, entries s !! Z.to_nat (mFreeFifoBack s) = Some e.
Proof.
  intros [I1 I2 I3 I4 I5 I6]. split; [lia|].
  apply lookup_lt_is_Some_2. lia.
Qed.

Lemma arrival_throws (i : Z) (e : ReadyFifo.FifoEntry) (x : Thrown) :
  arrival decl i e = Throws x -> kind x = DataArrivalError.
Proof.
  unfold arrival.
  repeat match goal with |- context [if ?c then _ else _] => destruct c end;
    intros H; inversion H; reflexivity.
Qed.

(** On a consistent channel the scan stays within the defined behaviour and
    keeps the channel consistent, whatever the card has written. *)
Lemma arrivalPasses_Inv (n : nat) (s : Channel) (r : Outcome Thrown unit) (s' : Channel) :
  Inv decl s -> arrivalPasses decl n s = (r, s') ->
  Inv decl s' /\ scanOutcome r.
Proof.
  revert s. induction n as [|n IH]; intros s HI H; cbn [arrivalPasses] in H.
  { inversion H; subst. split; [exact HI|left; reflexivity]. }
  unfold bind at 1 in H. unfold gets at 1 in H.
  destruct (mFreeFifoSize s >? 0) eqn:Hpos;
    [|inversion H; subst; split; [exact HI|left; reflexivity]].
  apply Z.gtb_lt in Hpos.
  destruct (Inv_entry s HI) as [Hb [e He]].
  unfold bind at 1 in H.
  destruct (arrival decl (mFreeFifoBack s) e) as [[]| |] eqn:Ha.
  - rewrite (arrivalStep_other s e Hb He) in H by congruence. rewrite Ha in H.
    inversion H; subst. split; [exact HI|left; reflexivity].
  - rewrite (arrivalStep_other s e Hb He) in H by congruence. rewrite Ha in H.
    inversion H; subst. split; [exact HI|left; reflexivity].
  - destruct (mTransferQueue s) as [|sp rest] eqn:Hq.
    { destruct HI as [_ _ _ _ I5 _]. rewrite Hq in I5. cbn in I5. lia. }
    rewrite (arrivalStep_whole s e sp rest Hb He Ha Hq) in H.
    apply (IH _ (Inv_complete e sp rest s HI Hpos Hq) H).
  - rewrite (arrivalStep_other s e Hb He) in H by congruence. rewrite Ha in H.
    inversion H; subst. split; [exact HI|].
    right. exists e0. split; [reflexivity|]. exact (arrival_throws _ _ _ Ha).
  - exfalso. exact (arrival_defined _ _ Ha).
Qed.

Lemma pendingStart_shape (faults : CardCmd -> bool) (s : Channel)
    (r : Outcome Thrown unit) (s1 : Channel) :
  (if mPendingDmaStart s then startPendingDma faults else ret tt) s = (r, s1) ->
  (exists log p, s1 = set_mPendingDmaStart p (set_cardLog log s)) /\
  (r = Returns tt \/ exists c, r = Throws (CardFault c) /\ faults c = true).
Proof.
  intros H. destruct (mPendingDmaStart s) eqn:Hp.
  - destruct (startPendingDma_shape faults s) as (l & p & H1 & H2).
    rewrite H in H1, H2. cbn in H1, H2. split; [eauto|].
    destruct (mTransferQueue s) as [|sp rest] eqn:Hq.
    + unfold startPendingDma, bind, gets in H. rewrite Hp in H. cbn in H.
      rewrite Hq in H. inversion H. left. reflexivity.
    + pose proof (startPendingDma_pending faults s Hp) as H3.
      rewrite Hq in H3. specialize (H3 ltac:(discriminate)). rewrite H in H3.
      destruct r as [[]|x|]; [left; reflexivity| |contradiction].
      destruct x; try contradiction. right. exists c. split; [reflexivity|tauto].
  - inversion H; subst. split; [|left; reflexivity].
    exists (cardLog s1), false. destruct s1; cbn in *; subst; reflexivity.
Qed.

Lemma fillSuperpages_Inv (faults : CardCmd -> bool) (s : Channel)
    (r : Outcome Thrown unit) (s' : Channel) :
  Inv decl s -> fillSuperpages decl faults s = (r, s') ->
  Inv decl s' /\ fillOutcome r.
Proof.
  intros HI H. unfold fillSuperpages in H.
  unfold bind at 1 in H. unfold gets at 1 in H.
  unfold bind at 1 in H. unfold gets at 1 in H.
  destruct (mPendingDmaStart s && isTransferQueueEmpty s) eqn:Hpe.
  { inversion H; subst. split; [exact HI|left; reflexivity]. }
  unfold bind at 1 in H.
  destruct ((if mPendingDmaStart s then startPendingDma faults else ret tt) s)
    as [r1 s1] eqn:H1.
  apply pendingStart_shape in H1. destruct H1 as [(l & p & ->) Hr1].
  assert (Inv decl (set_mPendingDmaStart p (set_cardLog l s))) as HI'
    by (apply (Inv_same s); auto).
  destruct Hr1 as [->|(c & -> & Hc)].
  2:{ inversion H; subst. split; [exact HI'|].
      right. exists (CardFault c). split; [reflexivity|right; reflexivity]. }
  unfold bind at 1 in H. unfold gets at 1 in H.
  destruct (negb _); [|inversion H; subst; split; [exact HI'|left; reflexivity]].
  unfold arrivalLoop in H. unfold bind at 1 in H. unfold gets at 1 in H.
  destruct (arrivalPasses_Inv _ _ _ _ HI' H) as [HI'' [->|(x & -> & Hx)]].
  - split; [exact HI''|left; reflexivity].
  - split; [exact HI''|]. right. exists x. split; [reflexivity|left; exact Hx].
Qed.

Lemma run_Inv (c : Call) (s : Channel) (r : Outcome Thrown unit) (s' : Channel) :
  Inv decl s -> run decl c s = (r, s') ->
  Inv decl s' /\ r <> Undefined.
Proof.
  intros HI H. destruct c as [faults|faults sp|faults| |]; cbn [run] in H.
  - pose proof (deviceStartDma_shape faults s) as Hs. rewrite H in Hs.
    destruct r as [a|x|].
    + destruct Hs as [l ->]. split; [|discriminate].
      apply Inv_started.
      * destruct HI as [_ I2 _ _ _ _]. lia.
      * destruct HI as [_ _ _ I4 _ _]. exact I4.
    + destruct x; try contradiction. destruct Hs as [_ [l ->]].
      split; [apply (Inv_same s); auto|discriminate].
    + contradiction.
  - pose proof (pushSuperpage_shape faults sp s) as Hs. rewrite H in Hs.
    destruct r as [a|x|].
    + destruct Hs as (_ & _ & Hlt & _ & ->). split; [|discriminate].
      apply Inv_pushed; [|exact Hlt]. apply (Inv_same s); auto.
    + destruct Hs as [-> _]. split; [exact HI|discriminate].
    + contradiction.
  - destruct (fillSuperpages_Inv faults s r s' HI H) as [HI' [->|(x & -> & _)]];
      (split; [exact HI'|discriminate]).
  - unfold getSuperpage, bind, gets, throw, ret in H.
    destruct (mReadyQueue s); inversion H; subst; (split; [exact HI|discriminate]).
  - unfold popSuperpage, bind, gets, throw, ret, modify in H.
    destruct (mReadyQueue s); inversion H; subst; (split; [|discriminate]);
      [exact HI|apply (Inv_same s); auto].
Qed.

(** Every reachable state is consistent. *)
Lemma Reachable_Inv (s : Channel) :
  0 < N -> Reachable decl s -> Inv decl s.
Proof.
  intros HN HR. induction HR as [s faults s' He Hs|s c HR IH|s es HR IH Hlen].
  - pose proof (deviceStartDma_shape faults s) as H. rewrite Hs in H.
    destruct H as [l ->]. apply Inv_started; assumption.
  - destruct (run decl c s) as [r s'] eqn:Hr. cbn.
    exact (proj1 (run_Inv c s r s' IH Hr)).
  - apply (Inv_same s); auto.
Qed.

(** No call on a reachable channel has undefined behaviour. *)
Lemma Reachable_defined (s : Channel) (c : Call) :
  0 < N -> Reachable decl s -> fst (run decl c s) <> Undefined.
Proof.
  intros HN HR. destruct (run decl c s) as [r s'] eqn:Hr. cbn.
  exact (proj2 (run_Inv c s r s' (Reachable_Inv s HN HR) Hr)).
Qed.

Lemma Reachable_runAll (cs : list Call) (s : Channel) :
  Reachable decl s -> Reachable decl (runAll decl cs s).
Proof.
  revert s. induction cs as [|c cs IH]; intros s HR; cbn [runAll].
  - exact HR.
  - apply IH. apply reach_call. exact HR.
Qed.


Lemma Reachable_runAll_eq (cs : list Call) (s s' : Channel) :
  Reachable decl s -> runAll decl cs s = s' -> Reachable decl s'.
Proof. intros HR <-. apply Reachable_runAll. exact HR. Qed.

(** ** The completion scan *)

Lemma fillSuperpages_runs_scan (faults : CardCmd -> bool) (s : Channel) :
  mTransferQueue s <> [] ->
  fillSuperpages decl faults s =
    ((if mPendingDmaStart s then startPendingDma faults else ret tt) ;;
     arrivalLoop decl) s.
Proof.
  intros Hq. unfold fillSuperpages.
  unfold bind at 1. unfold gets at 1. unfold bind at 1. unfold gets at 1.
  assert (isTransferQueueEmpty s = false) as He
    by (unfold isTransferQueueEmpty; destruct (mTransferQueue s); congruence).
  rewrite He, andb_false_r. unfold bind.
  destruct ((if mPendingDmaStart s then startPendingDma faults else ret tt) s)
    as [r1 s1] eqn:H1.
  apply pendingStart_shape in H1. destruct H1 as [(l & p & ->) Hr1].
  destruct r1 as [a|x|]; try reflexivity.
  unfold gets.
  replace (isTransferQueueEmpty (set_mPendingDmaStart p (set_cardLog l s)))
    with false by (symmetry; exact He).
  reflexivity.
Qed.

(** On a reachable channel a non-empty free-FIFO comes with a superpage at
    the head of the transfer queue. *)
Lemma free_fifo_nonempty_has_head (s : Channel) :
  0 < N -> Reachable decl s -> 0 < mFreeFifoSize s ->
  exists sp rest, mTransferQueue s = sp :: rest.
Proof.
  intros HN HR Hpos. destruct (Reachable_Inv s HN HR) as [_ _ _ _ I5 _].
  destruct (mTransferQueue s) as [|sp rest]; [cbn in I5; lia|eauto].
Qed.



(** ** Failures of [fillSuperpages] *)

Lemma recognised_arrival (i : Z) (e : ReadyFifo.FifoEntry) :
  recognised decl e = true -> exists st, arrival decl i e = Returns st.
Proof.
  unfold recognised, arrival. cbn zeta.
  destruct (int32 (ReadyFifo.status e) =? -1); [eauto|].
  destruct (int32 (ReadyFifo.status e) =? 0); [eauto|].
  destruct (Z.land (int32 (ReadyFifo.status e)) 255 =? DTSW decl); cbn;
    [|discriminate].
  destruct (errorBit (int32 (ReadyFifo.status e))); cbn; [discriminate|eauto].
Qed.

Lemma arrivalPasses_returns (n : nat) (s : Channel) :
  Inv decl s ->
  (forall i e, entries s !! i = Some e -> recognised decl e = true) ->
  exists s', arrivalPasses decl n s = (Returns tt, s').
Proof.
  revert s. induction n as [|n IH]; intros s HI Hrec; cbn [arrivalPasses].
  { eexists. reflexivity. }
  unfold bind at 1. unfold gets at 1.
  destruct (mFreeFifoSize s >? 0) eqn:Hpos; [|eexists; reflexivity].
  apply Z.gtb_lt in Hpos.
  destruct (Inv_entry s HI) as [Hb [e He]].
  destruct (recognised_arrival (mFreeFifoBack s) e (Hrec _ _ He)) as [st Ha].
  unfold bind at 1.
  destruct st.
  - rewrite (arrivalStep_other s e Hb He) by congruence. rewrite Ha.
    eexists. reflexivity.
  - rewrite (arrivalStep_other s e Hb He) by congruence. rewrite Ha.
    eexists. reflexivity.
  - destruct (mTransferQueue s) as [|sp rest] eqn:Hq.
    { destruct HI as [_ _ _ _ I5 _]. rewrite Hq in I5. cbn in I5. lia. }
    rewrite (arrivalStep_whole s e sp rest Hb He Ha Hq).
    apply IH; [apply Inv_complete; assumption|].
    intros i e' Hi. change (entries (complete decl e sp rest s))
      with (<[Z.to_nat (mFreeFifoBack s) := ReadyFifo.reset]> (entries s)) in Hi.
    apply list_lookup_insert_Some in Hi.
    destruct Hi as [(_ & <- & _)|(_ & Hi)]; [reflexivity|eauto].
Qed.

(** C2, as amended. On a reachable channel [fillSuperpages] returns, or
    fails with a data-arrival error, or fails on a card call of the pending
    start; it returns whenever no card call raises and every status word in
    the ready-FIFO is one that [dataArrived] reads without throwing; and on
    a running channel with a descriptor in flight it fails with the error of
    the descriptor at the back when that one is in error, leaving the channel
    as it was. *)
Theorem fillSuperpages_outcomes (faults : CardCmd -> bool) (s : Channel) :
  0 < N -> Reachable decl s ->
  (fst (fillSuperpages decl faults s) = Returns tt \/
   exists x, fst (fillSuperpages decl faults s) = Throws x /\
             (kind x = DataArrivalError \/ kind x = HardwareError)) /\
  ((forall c, faults c = false) ->
   (forall i e, entries s !! i = Some e -> recognised decl e = true) ->
   fst (fillSuperpages decl faults s) = Returns tt) /\
  (mPendingDmaStart s = false -> 0 < mFreeFifoSize s ->
   forall e x,
     entries s !! Z.to_nat (mFreeFifoBack s) = Some e ->
     arrival decl (mFreeFifoBack s) e = Throws x ->
     fillSuperpages decl faults s = (Throws x, s) /\ kind x = DataArrivalError).
Proof.
  intros HN HR. pose proof (Reachable_Inv s HN HR) as HI. split; [|split].
  - destruct (fillSuperpages decl faults s) as [r s'] eqn:H.
    exact (proj2 (fillSuperpages_Inv faults s r s' HI H)).
  - intros Hf Hrec. unfold fillSuperpages.
    unfold bind at 1. unfold gets at 1. unfold bind at 1. unfold gets at 1.
    destruct (mPendingDmaStart s && isTransferQueueEmpty s); [reflexivity|].
    unfold bind at 1.
    destruct ((if mPendingDmaStart s then startPendingDma faults else ret tt) s)
      as [r1 s1] eqn:H1.
    apply pendingStart_shape in H1.
    destruct H1 as [(l & p & ->) [->|(c & _ & Hc)]];
      [|rewrite Hf in Hc; discriminate].
    unfold bind at 1. unfold gets at 1.
    destruct (negb _); [|reflexivity].
    unfold arrivalLoop. unfold bind at 1. unfold gets at 1.
    destruct (arrivalPasses_returns
                (Z.to_nat (mFreeFifoSize (set_mPendingDmaStart p (set_cardLog l s))))
                (set_mPendingDmaStart p (set_cardLog l s))) as [s' ->].
    + apply (Inv_same s); auto.
    + exact Hrec.
    + reflexivity.
  - intros Hp Hpos e x He Ha.
    assert (mTransferQueue s <> []) as Hq.
    { destruct HI as [_ _ _ _ I5 _]. destruct (mTransferQueue s); [cbn in I5; lia|].
      discriminate. }
    split; [|exact (arrival_throws _ _ _ Ha)].
    rewrite (fillSuperpages_runs_scan faults s Hq), Hp.
    unfold bind at 1. unfold ret at 1. rewrite arrivalLoop_unfold.
    replace (mFreeFifoSize s >? 0) with true by (symmetry; apply Z.gtb_lt; lia).
    destruct HI as [_ I2 _ _ _ _].
    rewrite (arrivalStep_other s e (proj1 I2) He) by congruence.
    rewrite Ha. reflexivity.
Qed.

(** ** What [fillSuperpages] delivers *)

Lemma arrivalStep_whole_empty_state (s : Channel) (e : ReadyFifo.FifoEntry) :
  0 <= mFreeFifoBack s ->
  entries s !! Z.to_nat (mFreeFifoBack s) = Some e ->
  arrival decl (mFreeFifoBack s) e = Returns WholeArrived ->
  mTransferQueue s = [] ->
  exists s', arrivalStep decl s = (Undefined, s') /\
             mReadyQueue s' = mReadyQueue s /\ cardLog s' = cardLog s /\
             mPendingDmaStart s' = mPendingDmaStart s.
Proof.
  intros Hb He Ha Hq. unfold arrivalStep, isArrived, getLength, resetDescriptor.
  unfold bind at 1. unfold gets at 1. unfold bind at 1. unfold bind at 1.
  rewrite (dataArrived_at s _ e Hb He), Ha. unfold ret at 1.
  unfold bind at 1. unfold bind at 1. rewrite (entry_at s _ e Hb He).
  unfold ret at 1. unfold bind at 1. unfold bind at 1.
  rewrite (entry_at s _ e Hb He).
  unfold_op. unfold transferFront. unfold_set. cbn in Hq. rewrite Hq.
  eexists. split; [reflexivity|]. cbn. auto.
Qed.

(** A pass of the scan is a completion, or it leaves the ready queue, the
    card log and the pending flag alone and ends the scan. *)
Lemma arrivalStep_cases (s : Channel) :
  (exists e sp rest,
      0 <= mFreeFifoBack s /\
      entries s !! Z.to_nat (mFreeFifoBack s) = Some e /\
      arrival decl (mFreeFifoBack s) e = Returns WholeArrived /\
      mTransferQueue s = sp :: rest /\
      arrivalStep decl s = (Returns true, complete decl e sp rest s)) \/
  (exists r s',
      arrivalStep decl s = (r, s') /\ r <> Returns true /\
      mReadyQueue s' = mReadyQueue s /\ cardLog s' = cardLog s /\
      mPendingDmaStart s' = mPendingDmaStart s).
Proof.
  destruct (Z.lt_ge_cases (mFreeFifoBack s) 0) as [Hb|Hb].
  { right. exists Undefined, s. rewrite arrivalStep_out_of_bounds by auto.
    repeat split; auto; try discriminate. }
  destruct (entries s !! Z.to_nat (mFreeFifoBack s)) as [e|] eqn:He.
  2:{ right. exists Undefined, s. rewrite arrivalStep_out_of_bounds by auto.
      repeat split; auto; try discriminate. }
  destruct (arrival decl (mFreeFifoBack s) e) as [st|x|] eqn:Ha.
  - destruct st.
    + right. eexists _, s. rewrite (arrivalStep_other s e Hb He) by congruence.
      rewrite Ha. repeat split; auto; try discriminate.
    + right. eexists _, s. rewrite (arrivalStep_other s e Hb He) by congruence.
      rewrite Ha. repeat split; auto; try discriminate.
    + destruct (mTransferQueue s) as [|sp rest] eqn:Hq.
      * right. destruct (arrivalStep_whole_empty_state s e Hb He Ha Hq)
          as (s' & H & H1 & H2 & H3).
        exists Undefined, s'. repeat split; auto; try discriminate.
      * left. exists e, sp, rest. repeat split; auto.
        exact (arrivalStep_whole s e sp rest Hb He Ha Hq).
  - right. eexists _, s. rewrite (arrivalStep_other s e Hb He) by congruence.
    rewrite Ha. repeat split; auto; try discriminate.
  - exfalso. exact (arrival_defined _ _ Ha).
Qed.

Lemma lengthBytes_multiple (e : ReadyFifo.FifoEntry) : lengthBytes e mod 4 = 0.
Proof.
  unfold lengthBytes, to_size_t, int32.
  set (l := (ReadyFifo.length e + 2 ^ 31) mod 2 ^ 32 - 2 ^ 31).
  rewrite (Z.mod_eq (l * 4 + 2 ^ 31) (2 ^ 32)) by lia.
  set (q := (l * 4 + 2 ^ 31) / 2 ^ 32).
  rewrite (Z.mod_eq (l * 4 + 2 ^ 31 - 2 ^ 32 * q - 2 ^ 31) (2 ^ 64)) by lia.
  set (q2 := (l * 4 + 2 ^ 31 - 2 ^ 32 * q - 2 ^ 31) / 2 ^ 64).
  replace (l * 4 + 2 ^ 31 - 2 ^ 32 * q - 2 ^ 31 - 2 ^ 64 * q2)
    with ((l - 2 ^ 30 * q - 2 ^ 62 * q2) * 4) by lia.
  apply Z_mod_mult.
Qed.

Lemma lengthBytes_exact (e : ReadyFifo.FifoEntry) :
  0 <= int32 (ReadyFifo.length e) < 2 ^ 29 ->
  lengthBytes e = int32 (ReadyFifo.length e) * 4.
Proof.
  intros Hr. unfold lengthBytes, to_size_t. unfold int32 at 1.
  rewrite (Z.mod_small (_ + 2 ^ 31) (2 ^ 32)) by lia.
  rewrite Z.mod_small; lia.
Qed.

Lemma deliveredFrom_complete (s : Channel) (e : ReadyFifo.FifoEntry)
    (sp : Superpage) (rest : list Superpage) (sp' : Superpage) :
  mTransferQueue s = sp :: rest ->
  deliveredFrom decl (complete decl e sp rest s) sp' -> deliveredFrom decl s sp'.
Proof.
  intros Hq (Hr & Hm & e' & sp0 & He' & Hsp0 & [i Ha] & Heq & Hb).
  split; [exact Hr|]. split; [exact Hm|]. exists e', sp0.
  change (entries (complete decl e sp rest s))
    with (<[Z.to_nat (mFreeFifoBack s) := ReadyFifo.reset]> (entries s)) in He'.
  change (mTransferQueue (complete decl e sp rest s)) with rest in Hsp0.
  repeat split; eauto.
  - apply list_elem_of_In in He'. apply list_elem_of_lookup in He'.
    destruct He' as [j Hj]. apply list_lookup_insert_Some in Hj.
    destruct Hj as [(_ & <- & _)|(_ & Hj)].
    + cbv in Ha. discriminate.
    + apply list_elem_of_In. apply list_elem_of_lookup. eauto.
  - rewrite Hq. right. exact Hsp0.
  - apply Hb; assumption.
  - apply Hb; assumption.
Qed.

Lemma arrivalPasses_delivers (n : nat) (s : Channel)
    (r : Outcome Thrown unit) (s' : Channel) :
  arrivalPasses decl n s = (r, s') ->
  cardLog s' = cardLog s /\ mPendingDmaStart s' = mPendingDmaStart s /\
  exists added,
    mReadyQueue s' = mReadyQueue s ++ added /\
    forall sp, In sp added -> deliveredFrom decl s sp.
Proof.
  revert s. induction n as [|n IH]; intros s H; cbn [arrivalPasses] in H.
  { inversion H; subst. repeat split. exists []. rewrite app_nil_r.
    split; [reflexivity|intros sp []]. }
  unfold bind at 1 in H. unfold gets at 1 in H.
  destruct (mFreeFifoSize s >? 0).
  2:{ inversion H; subst. repeat split. exists []. rewrite app_nil_r.
      split; [reflexivity|intros sp []]. }
  unfold bind at 1 in H.
  destruct (arrivalStep_cases s) as
    [(e & sp & rest & Hb & He & Ha & Hq & Hs)|(r1 & s1 & Hs & Hr & H1 & H2 & H3)];
    rewrite Hs in H.
  - apply IH in H. destruct H as (Hl & Hp & added & Hadd & Hall).
    split; [exact Hl|]. split; [exact Hp|].
    exists (setReady true (setReceived (lengthBytes e) sp) :: added).
    split.
    + rewrite Hadd. change (mReadyQueue (complete decl e sp rest s))
        with (mReadyQueue s ++ [setReady true (setReceived (lengthBytes e) sp)]).
      rewrite <- app_assoc. reflexivity.
    + intros sp' [<-|Hin].
      * split; [reflexivity|]. split; [apply lengthBytes_multiple|].
        exists e, sp. repeat split.
        -- apply list_elem_of_In. apply list_elem_of_lookup. eauto.
        -- rewrite Hq. left. reflexivity.
        -- eauto.
        -- cbn. rewrite lengthBytes_exact by lia. lia.
        -- cbn. rewrite lengthBytes_exact by lia. lia.
      * apply (deliveredFrom_complete s e sp rest sp' Hq). auto.
  - assert (s' = s1) as ->.
    { destruct r1 as [[]| |]; inversion H; auto. congruence. }
    split; [exact H2|]. split; [exact H3|]. exists []. rewrite app_nil_r.
    split; [exact H1|intros sp []].
Qed.


(** ** The deferred start *)



(** ** The ring counters *)

(** C3, as amended. At every reachable time [mFreeFifoSize] lies between 0
    and [MAX_SUPERPAGE_DESCRIPTORS] and is congruent to
    [mFreeFifoFront - mFreeFifoBack] modulo [MAX_SUPERPAGE_DESCRIPTORS]; the
    two are equal as long as the ring is not full, and on a full ring the
    front has caught up with the back. *)
Theorem free_fifo_size_congruent (s : Channel) :
  0 < N -> Reachable decl s ->
  0 <= mFreeFifoSize s <= N /\
  mFreeFifoSize s mod N = (mFreeFifoFront s - mFreeFifoBack s) mod N /\
  (mFreeFifoSize s < N ->
   mFreeFifoSize s = (mFreeFifoFront s - mFreeFifoBack s) mod N) /\
  (mFreeFifoSize s = N -> mFreeFifoFront s = mFreeFifoBack s).
Proof.
  intros HN HR. destruct (Reachable_Inv s HN HR) as [I1 I2 I3 I4 I5 I6].
  assert ((mFreeFifoFront s - mFreeFifoBack s) mod N = mFreeFifoSize s mod N) as E.
  { rewrite I6. rewrite Zminus_mod_idemp_l. f_equal. lia. }
  split; [exact I3|]. split; [symmetry; exact E|]. split.
  - intros Hlt. rewrite E. symmetry. apply Z.mod_small. lia.
  - intros Heq. rewrite I6, Heq.
    rewrite <- (Z.mul_1_l N) at 1. rewrite Z.mod_add by lia.
    apply Z.mod_small. lia.
Qed.

Lemma pushSuperpage_returns (faults : CardCmd -> bool) (sp : Superpage) (s : Channel) :
  checkSuperpage decl sp = true ->
  Z.of_nat (length (mTransferQueue s)) < TRANSFER_QUEUE_CAPACITY decl ->
  mFreeFifoSize s < N ->
  faults (pushCall decl sp s) = false ->
  pushSuperpage decl faults sp s
    = (Returns tt, pushed decl sp (set_cardLog (cardLog s ++ [pushCall decl sp s]) s)).
Proof.
  intros Hok Hq Hs Hf. unfold pushCall in Hf.
  unfold pushSuperpage, pushFreeFifoPage, issue, pushCall.
  unfold bind at 1. rewrite Hok. unfold ret at 1.
  unfold bind at 1. unfold gets at 1.
  replace (Z.of_nat (length (mTransferQueue s)) >=? TRANSFER_QUEUE_CAPACITY decl)
    with false by (symmetry; rewrite Z.geb_leb; apply Z.leb_gt; lia).
  unfold bind at 1. unfold gets at 1.
  replace (mFreeFifoSize s >=? N)
    with false by (symmetry; rewrite Z.geb_leb; apply Z.leb_gt; lia).
  unfold bind at 1. unfold gets at 1. unfold bind at 1. rewrite Hf.
  reflexivity.
Qed.

(** Whenever the transfer queue can hold as many superpages as the ring has
    descriptors, the ring fills up: from a started channel, [k] pushes lead
    to [mFreeFifoSize = k], for every [k] up to [MAX_SUPERPAGE_DESCRIPTORS]. *)
Lemma ring_fills (sp : Superpage) (k : nat) :
  0 < N -> N <= TRANSFER_QUEUE_CAPACITY decl -> checkSuperpage decl sp = true ->
  Z.of_nat k <= N ->
  exists s,
    Reachable decl s /\ mFreeFifoSize s = Z.of_nat k /\ mFreeFifoBack s = 0 /\
    mFreeFifoFront s = Z.of_nat k mod N.
Proof.
  intros HN Hcap Hok. induction k as [|k IH]; intros Hk.
  - set (s0 := {| mDataSource := Internal; mSTBRD := false; mGeneratorEnabled := true;
                  mRDYRX := false; mPageSize := 8192; mFreeFifoFront := 0;
                  mFreeFifoBack := 0; mFreeFifoSize := 0; mTransferQueue := [];
                  mReadyQueue := []; mPendingDmaStart := false;
                  entries := replicate (Z.to_nat N) ReadyFifo.reset;
                  cardLog := [] |}).
    pose proof (deviceStartDma_shape (fun _ => false) s0) as H.
    destruct (deviceStartDma decl (fun _ => false) s0) as [[[]|x|] s1] eqn:Hs.
    + destruct H as [l ->].
      exists (started (set_cardLog l s0)). split.
      * apply (reach_start decl s0 (fun _ => false)); [|exact Hs].
        apply length_replicate.
      * split; [reflexivity|]. split; [reflexivity|].
        cbn. rewrite Z.mod_0_l by lia. reflexivity.
    + destruct x; try contradiction. destruct H as [H _]. discriminate.
    + contradiction.
  - destruct (IH ltac:(lia)) as (s & HR & Hs & Hb & Hf).
    pose proof (Reachable_Inv s HN HR) as [I1 I2 I3 I4 I5 I6].
    exists (snd (run decl (CallPushSuperpage (fun _ => false) sp) s)).
    split; [apply reach_call; exact HR|].
    cbn [run]. rewrite pushSuperpage_returns by (auto; lia).
    cbn [snd]. unfold pushed. unfold_set. cbn [snd] in *. subst.
    repeat split; [lia|].
    rewrite Z.rem_mod_nonneg by lia.
    rewrite Z.add_mod_idemp_l by lia. f_equal. lia.
Qed.

(** C4. With [TRANSFER_QUEUE_CAPACITY] superpages in the transfer queue,
    [pushSuperpage] of a superpage that passes [checkSuperpage] throws
    "transfer queue was full" (a queue-full error) and leaves the whole
    channel as it was. *)
Theorem pushSuperpage_transfer_queue_full
    (faults : CardCmd -> bool) (sp : Superpage) (s : Channel) :
  Z.of_nat (length (mTransferQueue s)) = TRANSFER_QUEUE_CAPACITY decl ->
  checkSuperpage decl sp = true ->
  pushSuperpage decl faults sp s = (Throws TransferQueueFull, s) /\
  kind TransferQueueFull = QueueFull.
Proof.
  intros Hfull Hok. split; [|reflexivity].
  unfold pushSuperpage, bind, gets, throw, ret. rewrite Hok, Hfull.
  replace (TRANSFER_QUEUE_CAPACITY decl >=? TRANSFER_QUEUE_CAPACITY decl) with true
    by (symmetry; rewrite Z.geb_leb; apply Z.leb_refl).
  reflexivity.
Qed.

(** C9. At every reachable time the transfer queue holds exactly
    [mFreeFifoSize] superpages; hence, when [TRANSFER_QUEUE_CAPACITY] is at
    most [MAX_SUPERPAGE_DESCRIPTORS], no [pushSuperpage] throws "firmware
    queue was full". *)
Theorem transfer_queue_matches_free_fifo (s : Channel) :
  0 < N -> Reachable decl s ->
  Z.of_nat (length (mTransferQueue s)) = mFreeFifoSize s /\
  (TRANSFER_QUEUE_CAPACITY decl <= N ->
   forall (faults : CardCmd -> bool) (sp : Superpage),
     fst (pushSuperpage decl faults sp s) <> Throws FirmwareQueueFull).
Proof.
  intros HN HR. destruct (Reachable_Inv s HN HR) as [I1 I2 I3 I4 I5 I6].
  split; [exact I5|]. intros Hcap faults sp.
  pose proof (pushSuperpage_shape faults sp s) as H.
  destruct (pushSuperpage decl faults sp s) as [[a|x|] s']; cbn.
  - discriminate.
  - destruct H as [_ ->].
    destruct (checkSuperpage decl sp); cbn; [|discriminate].
    destruct (Z.of_nat (length (mTransferQueue s)) >=? TRANSFER_QUEUE_CAPACITY decl)
      eqn:Hc; [discriminate|].
    destruct (mFreeFifoSize s >=? N) eqn:Hn; [|discriminate].
    rewrite Z.geb_leb in Hc, Hn. apply Z.leb_gt in Hc. apply Z.leb_le in Hn. lia.
  - contradiction.
Qed.

End Facts.

(** ** The concrete channels *)

Import Examples.

Lemma afterStart_reachable : Reachable declarations128 afterStart.
Proof.
  apply (reach_start declarations128 constructed noFaults afterStart);
    vm_compute; reflexivity.
Qed.

Lemma afterPush_reachable : Reachable declarations128 afterPush.
Proof.
  apply (Reachable_runAll_eq declarations128
           [CallPushSuperpage noFaults (superpageAt 0)] afterStart);
    [exact afterStart_reachable|vm_compute; reflexivity].
Qed.

Lemma running_reachable : Reachable declarations128 running.
Proof.
  apply (Reachable_runAll_eq declarations128 [CallFillSuperpages noFaults] afterPush);
    [exact afterPush_reachable|vm_compute; reflexivity].
Qed.

Lemma cardWrites_reachable (e : ReadyFifo.FifoEntry) :
  Reachable declarations128 (cardWrites e running).
Proof.
  unfold cardWrites. apply reach_card; [exact running_reachable|].
  apply length_insert.
Qed.

Lemma fullRing_reachable : Reachable declarations128 fullRing.
Proof.
  apply (Reachable_runAll_eq declarations128
           (map (fun k => CallPushSuperpage noFaults (superpageAt (Z.of_nat k * 8192)))
              (seq 0 128)) afterStart);
    [exact afterStart_reachable|vm_compute; reflexivity].
Qed.


(** C2, counterexample: on a running channel whose descriptor in flight came
    back with the error bit (status [0x80000082]), [fillSuperpages] throws a
    data-arrival error. *)
Lemma fillSuperpages_throws_on_error_bit :
  Reachable declarations128 arrivedWithError /\
  mPendingDmaStart arrivedWithError = false /\
  fillSuperpages declarations128 noFaults arrivedWithError
    = (Throws (ArrivalErrorBits (-2147483518) 2048 0), arrivedWithError) /\
  kind (ArrivalErrorBits (-2147483518) 2048 0) = DataArrivalError.
Proof.
  split; [apply cardWrites_reachable|].
  split; [vm_compute; reflexivity|].
  split; [vm_compute; reflexivity|reflexivity].
Qed.

Lemma fillSuperpages_outcomes_witness :
  0 < MAX_SUPERPAGE_DESCRIPTORS declarations128 /\
  Reachable declarations128 arrivedWithError /\
  (fst (fillSuperpages declarations128 noFaults arrivedWithError) = Returns tt \/
   exists x, fst (fillSuperpages declarations128 noFaults arrivedWithError) = Throws x /\
             (kind x = DataArrivalError \/ kind x = HardwareError)) /\
  fillSuperpages declarations128 noFaults arrivedWithError
    = (Throws (ArrivalErrorBits (-2147483518) 2048 0), arrivedWithError).
Proof.
  assert (0 < MAX_SUPERPAGE_DESCRIPTORS declarations128) as HN by (cbn; lia).
  destruct (fillSuperpages_outcomes declarations128 noFaults arrivedWithError HN
              (cardWrites_reachable _)) as (Hout & _ & Herr).
  split; [exact HN|]. split; [apply cardWrites_reachable|]. split; [exact Hout|].
  refine (proj1 (Herr _ _ {| ReadyFifo.length := 2048; ReadyFifo.status := -2147483518 |}
                   _ _ _)); vm_compute; reflexivity.
Defined.




(** C3, counterexample: after [startDma] and 128 pushes the ring is full,
    [mFreeFifoSize] is 128 while the front is back at the back. *)
Lemma free_fifo_size_full_ring :
  Reachable declarations128 fullRing /\
  mFreeFifoSize fullRing = 128 /\
  (mFreeFifoFront fullRing - mFreeFifoBack fullRing)
    mod MAX_SUPERPAGE_DESCRIPTORS declarations128 = 0 /\
  mFreeFifoSize fullRing <>
    (mFreeFifoFront fullRing - mFreeFifoBack fullRing)
      mod MAX_SUPERPAGE_DESCRIPTORS declarations128.
Proof.
  split; [exact fullRing_reachable|].
  split; [vm_compute; reflexivity|].
  split; [vm_compute; reflexivity|].
  vm_compute. discriminate.
Qed.

Lemma free_fifo_size_congruent_witness :
  0 < MAX_SUPERPAGE_DESCRIPTORS declarations128 /\
  Reachable declarations128 fullRing /\
  mFreeFifoSize fullRing mod 128 = (mFreeFifoFront fullRing - mFreeFifoBack fullRing) mod 128 /\
  mFreeFifoFront fullRing = mFreeFifoBack fullRing.
Proof.
  assert (0 < MAX_SUPERPAGE_DESCRIPTORS declarations128) as HN by (cbn; lia).
  destruct (free_fifo_size_congruent declarations128 fullRing HN fullRing_reachable)
    as (_ & Hc & _ & Hfull).
  split; [exact HN|]. split; [exact fullRing_reachable|].
  split; [exact Hc|]. apply Hfull. vm_compute. reflexivity.
Defined.

Lemma pushSuperpage_transfer_queue_full_witness :
  Z.of_nat (length (mTransferQueue fullRing)) = TRANSFER_QUEUE_CAPACITY declarations128 /\
  checkSuperpage declarations128 (superpageAt 0) = true /\
  pushSuperpage declarations128 noFaults (superpageAt 0) fullRing
    = (Throws TransferQueueFull, fullRing) /\
  kind TransferQueueFull = QueueFull.
Proof.
  split; [vm_compute; reflexivity|]. split; [reflexivity|].
  apply pushSuperpage_transfer_queue_full; [vm_compute; reflexivity|reflexivity].
Defined.

Lemma transfer_queue_matches_free_fifo_witness :
  0 < MAX_SUPERPAGE_DESCRIPTORS declarations128 /\
  Reachable declarations128 fullRing /\
  TRANSFER_QUEUE_CAPACITY declarations128 <= MAX_SUPERPAGE_DESCRIPTORS declarations128 /\
  Z.of_nat (length (mTransferQueue fullRing)) = mFreeFifoSize fullRing /\
  fst (pushSuperpage declarations128 noFaults (superpageAt 0) fullRing)
    <> Throws FirmwareQueueFull.
Proof.
  assert (0 < MAX_SUPERPAGE_DESCRIPTORS declarations128) as HN by (cbn; lia).
  assert (TRANSFER_QUEUE_CAPACITY declarations128
          <= MAX_SUPERPAGE_DESCRIPTORS declarations128) as Hcap by (cbn; lia).
  destruct (transfer_queue_matches_free_fifo declarations128 fullRing HN
              fullRing_reachable) as [Hq Hpush].
  split; [exact HN|]. split; [exact fullRing_reachable|]. split; [exact Hcap|].
  split; [exact Hq|]. apply Hpush. exact Hcap.
Defined.

End ChannelFacts.

(** * Properties of the pattern verifier *)

Module BenchFacts.
Import ProgramDmaBench.

Ltac bench_simpl :=
  repeat match goal with b : Bench |- _ => destruct b end;
  cbn [set_mErrorCount set_mErrorStream set_mDataGeneratorCounter mVerbose
       mCardType generatorPattern noErrorCheck noResyncCounter mErrorCount
       mErrorStream mDataGeneratorCounter] in *.

Lemma uint32_idem (x : Z) : uint32 (uint32 x) = uint32 x.
Proof. unfold uint32. apply Z.mod_mod. lia. Qed.

Lemma uint32_small (x : Z) : 0 <= x < 2 ^ 32 -> uint32 x = x.
Proof. intros H. unfold uint32. apply Z.mod_small. exact H. Qed.

Lemma load_idem (page : Page) (i : Z) : uint32 (load page i) = load page i.
Proof. unfold load. apply uint32_idem. Qed.

Lemma addError_recorded (eventNumber index counter expected actual : Z) (b : Bench) :
  addError eventNumber index counter expected actual b =
    (Returns tt,
     recorded b (formatError eventNumber (int32 index) (uint32 counter)
                   (uint32 expected) (uint32 actual))).
Proof.
  unfold addError, recorded, bind, gets, modify, ret. bench_simpl.
  destruct (_ && _); reflexivity.
Qed.

(** ** The loop of [checkErrorsCru] *)

Section CruLoop.
Context (patternFunction : Z -> Z) (page : Page) (pageSize32 eventNumber counter : Z).
Context (Hsize : pageSize32 + 8 <= 2 ^ 32).

Lemma cruWords_all_match (passes : nat) (i : Z) (b : Bench) :
  0 <= i -> pageSize32 - i <= 8 * Z.of_nat passes ->
  (forall m, 0 <= m -> i + 8 * m < pageSize32 ->
             load page (i + 8 * m) = uint32 (patternFunction (i + 8 * m))) ->
  cruWords patternFunction page pageSize32 eventNumber counter passes i b
    = (Returns false, b).
Proof using Hsize.
  revert i. induction passes as [|passes IH]; intros i Hi Hfuel Hall;
    cbn [cruWords]; [reflexivity|].
  destruct (i <? pageSize32) eqn:Hlt; [|reflexivity].
  apply Z.ltb_lt in Hlt.
  pose proof (Hall 0 ltac:(lia) ltac:(lia)) as H0.
  replace (i + 8 * 0) with i in H0 by lia.
  rewrite H0, Z.eqb_refl. cbn [negb].
  rewrite (uint32_small (i + 8)) by lia.
  apply IH; [lia|lia|].
  intros m Hm Hb. replace (i + 8 + 8 * m) with (i + 8 * (m + 1)) in * by lia.
  apply Hall; lia.
Qed.

Lemma cruWords_first_mismatch (passes : nat) (i k : Z) (b : Bench) :
  0 <= i -> pageSize32 - i <= 8 * Z.of_nat passes ->
  0 <= k -> i + 8 * k < pageSize32 ->
  load page (i + 8 * k) <> uint32 (patternFunction (i + 8 * k)) ->
  (forall m, 0 <= m < k ->
             load page (i + 8 * m) = uint32 (patternFunction (i + 8 * m))) ->
  cruWords patternFunction page pageSize32 eventNumber counter passes i b
    = (Returns true,
       recorded b (formatError eventNumber (i + 8 * k) counter
                     (uint32 (patternFunction (i + 8 * k))) (load page (i + 8 * k)))).
Proof using Hsize.
  revert i k. induction passes as [|passes IH]; intros i k Hi Hfuel Hk Hb Hne Hall;
    [lia|]. cbn [cruWords].
  replace (i <? pageSize32) with true by (symmetry; apply Z.ltb_lt; lia).
  destruct (Z.eq_dec k 0) as [->|Hk0].
  - replace (i + 8 * 0) with i in * by lia.
    replace (load page i =? uint32 (patternFunction i)) with false
      by (symmetry; apply Z.eqb_neq; exact Hne).
    cbn [negb]. unfold recorded, bind, gets, modify, ret. bench_simpl.
    destruct (_ && _); reflexivity.
  - pose proof (Hall 0 ltac:(lia)) as H0.
    replace (i + 8 * 0) with i in H0 by lia.
    rewrite H0, Z.eqb_refl. cbn [negb].
    rewrite (uint32_small (i + 8)) by lia.
    replace (i + 8 * k) with (i + 8 + 8 * (k - 1)) in * by lia.
    apply IH; [lia|lia|lia|lia|exact Hne|].
    intros m Hm. replace (i + 8 + 8 * m) with (i + 8 * (m + 1)) by lia.
    apply Hall. lia.
Qed.

End CruLoop.

(** The loop only reads the words at multiples of 8. *)
Lemma cruWords_stride (patternFunction : Z -> Z) (page page' : Page)
    (pageSize32 eventNumber counter : Z) (passes : nat) (i : Z) (b : Bench) :
  i mod 8 = 0 ->
  (forall j, j mod 8 = 0 -> page' j = page j) ->
  cruWords patternFunction page' pageSize32 eventNumber counter passes i b
    = cruWords patternFunction page pageSize32 eventNumber counter passes i b.
Proof.
  intros Hi Hsame. revert i Hi.
  induction passes as [|passes IH]; intros i Hi; cbn [cruWords]; [reflexivity|].
  unfold load. rewrite (Hsame i Hi).
  destruct (i <? pageSize32); [|reflexivity].
  destruct (negb _); [reflexivity|].
  apply IH. unfold uint32.
  rewrite Z.mod_mod_divide by (exists (2 ^ 29); reflexivity).
  rewrite <- Z.add_mod_idemp_l by lia. rewrite Hi. reflexivity.
Qed.

(** ** The loop of [checkErrorsCrorc] *)

Section CrorcLoop.
Context (patternFunction : Z -> Z) (page : Page) (pageSize32 eventNumber counter : Z).
Context (Hsize : pageSize32 + 8 <= 2 ^ 32).

Lemma crorcWords_all_match (passes : nat) (i : Z) (b : Bench) :
  0 <= i -> pageSize32 - i <= Z.of_nat passes ->
  (forall j, i <= j < pageSize32 -> load page j = uint32 (patternFunction j)) ->
  crorcWords patternFunction page pageSize32 eventNumber counter passes i b
    = (Returns false, b).
Proof using Hsize.
  revert i. induction passes as [|passes IH]; intros i Hi Hfuel Hall;
    cbn [crorcWords]; [reflexivity|].
  destruct (i <? pageSize32) eqn:Hlt; [|reflexivity].
  apply Z.ltb_lt in Hlt.
  rewrite (Hall i ltac:(lia)), Z.eqb_refl. cbn [negb].
  rewrite (uint32_small (i + 1)) by lia.
  apply IH; [lia|lia|]. intros j Hj. apply Hall. lia.
Qed.

Lemma crorcWords_first_mismatch (passes : nat) (i k : Z) (b : Bench) :
  0 <= i -> pageSize32 - i <= Z.of_nat passes ->
  i <= k < pageSize32 ->
  load page k <> uint32 (patternFunction k) ->
  (forall j, i <= j < k -> load page j = uint32 (patternFunction j)) ->
  crorcWords patternFunction page pageSize32 eventNumber counter passes i b
    = (Returns true,
       recorded b (formatError eventNumber (int32 k) (uint32 counter)
                     (uint32 (patternFunction k)) (load page k))).
Proof using Hsize.
  revert i. induction passes as [|passes IH]; intros i Hi Hfuel Hk Hne Hall;
    [lia|]. cbn [crorcWords].
  replace (i <? pageSize32) with true by (symmetry; apply Z.ltb_lt; lia).
  destruct (Z.eq_dec k i) as [->|Hki].
  - replace (load page i =? uint32 (patternFunction i)) with false
      by (symmetry; apply Z.eqb_neq; exact Hne).
    cbn [negb]. unfold bind. rewrite addError_recorded.
    rewrite uint32_idem, load_idem. reflexivity.
  - rewrite (Hall i ltac:(lia)), Z.eqb_refl. cbn [negb].
    rewrite (uint32_small (i + 1)) by lia.
    apply IH; [lia|lia|lia|exact Hne|]. intros j Hj. apply Hall. lia.
Qed.

(** The loop returns [true] only at a word that differs from the pattern. *)
Lemma crorcWords_true (passes : nat) (i : Z) (b b' : Bench) :
  0 <= i ->
  crorcWords patternFunction page pageSize32 eventNumber counter passes i b
    = (Returns true, b') ->
  exists k, i <= k < pageSize32 /\ load page k <> uint32 (patternFunction k).
Proof using Hsize.
  revert i. induction passes as [|passes IH]; intros i Hi H; cbn [crorcWords] in H;
    [discriminate|].
  destruct (i <? pageSize32) eqn:Hlt; [|discriminate].
  apply Z.ltb_lt in Hlt.
  destruct (load page i =? uint32 (patternFunction i)) eqn:Heq; cbn [negb] in H.
  - rewrite (uint32_small (i + 1)) in H by lia.
    destruct (IH (i + 1) ltac:(lia) H) as (k & Hk & Hne).
    exists k. split; [lia|exact Hne].
  - exists i. split; [lia|]. apply Z.eqb_neq. exact Heq.
Qed.

End CrorcLoop.

(** ** The two checkers on the incremental pattern *)

Lemma pageSize32_nonneg (pageSize : Z) : 0 <= to_size_t pageSize / 4.
Proof.
  unfold to_size_t. apply Z.div_pos; [|lia].
  apply Z.mod_pos_bound. lia.
Qed.

Lemma checkErrorsCru_incremental (page : Page) (pageSize eventNumber counter : Z)
    (b : Bench) :
  generatorPattern b = Incremental ->
  checkErrorsCru page pageSize eventNumber counter b =
    cruWords (fun i => uint32 counter * 256 + i / 8) page (to_size_t pageSize / 4)
      eventNumber (uint32 counter) (Z.to_nat (to_size_t pageSize / 4)) 0 b.
Proof.
  intros Hp. unfold checkErrorsCru, bind, gets. rewrite Hp. reflexivity.
Qed.

Lemma checkErrorsCrorc_supported (page : Page) (pageSize eventNumber counter : Z)
    (b : Bench) :
  supported (generatorPattern b) = true ->
  checkErrorsCrorc page pageSize eventNumber counter b =
    crorcWords (crorcPattern (generatorPattern b)) page (to_size_t pageSize / 4)
      eventNumber (uint32 counter) (Z.to_nat (to_size_t pageSize / 4)) 8
      (if load page 0 =? uint32 counter then b
       else recorded b (formatError eventNumber 0 (uint32 counter) (uint32 counter)
                          (load page 0))).
Proof.
  intros Hp. unfold checkErrorsCrorc. unfold bind at 1. unfold gets at 1.
  assert (forall pf,
    ((if negb (load page 0 =? uint32 counter)
      then addError eventNumber 0 (uint32 counter) (uint32 counter) (load page 0)
      else ret tt) ;;
     crorcWords pf page (to_size_t pageSize / 4) eventNumber (uint32 counter)
       (Z.to_nat (to_size_t pageSize / 4)) 8) b
    = crorcWords pf page (to_size_t pageSize / 4) eventNumber (uint32 counter)
        (Z.to_nat (to_size_t pageSize / 4)) 8
        (if load page 0 =? uint32 counter then b
         else recorded b (formatError eventNumber 0 (uint32 counter) (uint32 counter)
                            (load page 0)))) as E.
  { intros pf. unfold bind. destruct (load page 0 =? uint32 counter); cbn [negb].
    - reflexivity.
    - rewrite addError_recorded, uint32_idem, load_idem. reflexivity. }
  destruct (generatorPattern b); try discriminate; apply E.
Qed.

(** C7. With the incremental pattern: on CRU the checker reads only the
    words at multiples of 8 and compares word [i] with
    [counter * 256 + i / 8]; it returns [false] without a report when they all
    agree, and reports the first one that differs and returns [true]
    otherwise. On C-RORC it compares word 0 with the counter, reporting a
    mismatch, then the words [i >= 8] with [i - 1]; it returns [false] when
    these all agree, and reports the first one that differs and returns
    [true] otherwise. *)
Theorem incremental_pattern_check
    (page : Page) (pageSize eventNumber counter : Z) (b : Bench) :
  generatorPattern b = Incremental ->
  to_size_t pageSize / 4 + 8 <= 2 ^ 32 ->
  let pageSize32 := to_size_t pageSize / 4 in
  let c := uint32 counter in
  let cru i := uint32 (c * 256 + i / 8) in
  let b0 := if load page 0 =? c then b
            else recorded b (formatError eventNumber 0 c c (load page 0)) in
  ((forall i, 0 <= i < pageSize32 -> i mod 8 = 0 -> load page i = cru i) ->
   checkErrorsCru page pageSize eventNumber counter b = (Returns false, b)) /\
  (forall i,
     0 <= i < pageSize32 -> i mod 8 = 0 -> load page i <> cru i ->
     (forall j, 0 <= j < i -> j mod 8 = 0 -> load page j = cru j) ->
     checkErrorsCru page pageSize eventNumber counter b
       = (Returns true,
          recorded b (formatError eventNumber i c (cru i) (load page i)))) /\
  (forall page' : Page,
     (forall j, j mod 8 = 0 -> page' j = page j) ->
     checkErrorsCru page' pageSize eventNumber counter b
       = checkErrorsCru page pageSize eventNumber counter b) /\
  ((forall i, 8 <= i < pageSize32 -> load page i = uint32 (i - 1)) ->
   checkErrorsCrorc page pageSize eventNumber counter b = (Returns false, b0)) /\
  (forall i,
     8 <= i < pageSize32 -> load page i <> uint32 (i - 1) ->
     (forall j, 8 <= j < i -> load page j = uint32 (j - 1)) ->
     checkErrorsCrorc page pageSize eventNumber counter b
       = (Returns true,
          recorded b0 (formatError eventNumber (int32 i) c (uint32 (i - 1))
                         (load page i)))).
Proof.
  intros Hp Hsize pageSize32 c cru b0.
  pose proof (pageSize32_nonneg pageSize) as Hnn. fold pageSize32 in Hnn, Hsize.
  assert (forall i, i mod 8 = 0 -> 0 + 8 * (i / 8) = i) as Hdiv.
  { intros i Hi. pose proof (Z.div_mod i 8 ltac:(lia)). lia. }
  assert (forall m, (0 + 8 * m) mod 8 = 0) as Hmul.
  { intros m. rewrite Z.add_0_l, Z.mul_comm. apply Z_mod_mult. }
  repeat split.
  - intros Hall. rewrite checkErrorsCru_incremental by exact Hp.
    apply cruWords_all_match; [exact Hsize|lia|fold pageSize32; lia|].
    intros m Hm Hb. apply Hall; [lia|apply Hmul].
  - intros i Hi Hi8 Hne Hall.
    rewrite checkErrorsCru_incremental by exact Hp.
    pose proof (cruWords_first_mismatch (fun i => c * 256 + i / 8) page pageSize32
                  eventNumber c Hsize (Z.to_nat pageSize32) 0 (i / 8) b) as L.
    cbv beta in L. rewrite (Hdiv i Hi8) in L.
    apply L; [lia|lia| |lia|exact Hne|].
    + pose proof (Hdiv i Hi8). lia.
    + intros m Hm. apply Hall; [|apply Hmul].
      pose proof (Hdiv i Hi8). lia.
  - intros page' Hsame. rewrite !checkErrorsCru_incremental by exact Hp.
    apply cruWords_stride; [reflexivity|exact Hsame].
  - intros Hall. rewrite checkErrorsCrorc_supported by (rewrite Hp; reflexivity).
    rewrite Hp. apply crorcWords_all_match; [exact Hsize|lia|fold pageSize32; lia|].
    exact Hall.
  - intros i Hi Hne Hall.
    rewrite checkErrorsCrorc_supported by (rewrite Hp; reflexivity).
    rewrite Hp.
    rewrite (crorcWords_first_mismatch (crorcPattern Incremental) page pageSize32
               eventNumber c Hsize (Z.to_nat pageSize32) 8 i);
      [|lia|lia|exact Hi|exact Hne|exact Hall].
    unfold c. rewrite uint32_idem. reflexivity.
Qed.


(** ** The counter word of a C-RORC page *)

Lemma recorded_counter (b : Bench) (text : string) :
  mDataGeneratorCounter (recorded b text) = mDataGeneratorCounter b /\
  mCardType (recorded b text) = mCardType b /\
  noResyncCounter (recorded b text) = noResyncCounter b /\
  mErrorCount (recorded b text) = mErrorCount b + 1.
Proof. unfold recorded. bench_simpl. destruct (_ && _); repeat split. Qed.

(** [readoutPage] on a C-RORC page once the counter is seeded. *)
Lemma readoutPage_crorc (page : Page) (pageSize readoutCount : Z) (b : Bench) :
  mCardType b = Crorc -> noErrorCheck b = false -> mDataGeneratorCounter b <> -1 ->
  readoutPage page pageSize readoutCount b =
    match checkErrorsCrorc page pageSize readoutCount (mDataGeneratorCounter b) b with
    | (Returns hasError, b1) =>
        if hasError && negb (noResyncCounter b1) then
          match mCardType b1 with
          | Crorc => (Returns tt, set_mDataGeneratorCounter (getEventNumber page + 1) b1)
          | Cru =>
              (Returns tt, set_mDataGeneratorCounter (getEventNumber page / 256 + 1) b1)
          | OtherCard => (Throws UnsupportedCardType, b1)
          end
        else (Returns tt, set_mDataGeneratorCounter (mDataGeneratorCounter b1 + 1) b1)
    | (Throws x, b1) => (Throws x, b1)
    | (Undefined, b1) => (Undefined, b1)
    end.
Proof.
  intros Hc Hn Hs. unfold readoutPage.
  unfold bind at 1. unfold gets at 1. rewrite Hn. cbn [negb].
  unfold bind at 1. unfold bind at 1. unfold gets at 1. unfold bind at 1.
  replace (mDataGeneratorCounter b =? -1) with false
    by (symmetry; apply Z.eqb_neq; exact Hs).
  unfold ret at 1. unfold bind at 1. unfold gets at 1.
  unfold bind at 1. unfold checkErrors at 1. unfold bind at 1. unfold gets at 1.
  rewrite Hc.
  destruct (checkErrorsCrorc page pageSize readoutCount (mDataGeneratorCounter b) b)
    as [[hasError|x|] b1]; try reflexivity.
  unfold bind at 1. unfold gets at 1.
  destruct (hasError && negb (noResyncCounter b1)).
  - unfold getDataGeneratorCounterFromPage, bind, gets, ret, throw, modify.
    destruct (mCardType b1); bench_simpl; reflexivity.
  - unfold ret, modify. reflexivity.
Qed.

(** C10. In the C-RORC checker, for each supported pattern: when word 0
    differs from the counter and the words from 8 on follow the pattern, the
    mismatch is reported (the error count goes up by one) and the checker
    returns [false], so that [readoutPage] only increments the counter, where
    a [true] from the checker makes it take the counter from the page; and
    the checker returns [true] only when some word [i >= 8] differs from the
    pattern. *)
Theorem crorc_counter_mismatch_no_resync
    (page : Page) (pageSize eventNumber counter : Z) (b : Bench) :
  supported (generatorPattern b) = true ->
  to_size_t pageSize / 4 + 8 <= 2 ^ 32 ->
  let pageSize32 := to_size_t pageSize / 4 in
  let expected i := uint32 (crorcPattern (generatorPattern b) i) in
  let c := uint32 counter in
  let b0 := recorded b (formatError eventNumber 0 c c (load page 0)) in
  (load page 0 <> c ->
   (forall i, 8 <= i < pageSize32 -> load page i = expected i) ->
   checkErrorsCrorc page pageSize eventNumber counter b = (Returns false, b0) /\
   mErrorCount b0 = mErrorCount b + 1 /\
   (mCardType b = Crorc -> noErrorCheck b = false ->
    mDataGeneratorCounter b = counter -> counter <> -1 ->
    readoutPage page pageSize eventNumber b
      = (Returns tt, set_mDataGeneratorCounter (counter + 1) b0))) /\
  (forall b1,
     checkErrorsCrorc page pageSize eventNumber counter b = (Returns true, b1) ->
     (exists i, 8 <= i < pageSize32 /\ load page i <> expected i) /\
     (mCardType b = Crorc -> noErrorCheck b = false -> noResyncCounter b = false ->
      mDataGeneratorCounter b = counter -> counter <> -1 ->
      readoutPage page pageSize eventNumber b
        = (Returns tt, set_mDataGeneratorCounter (load page 0 + 1) b1))).
Proof.
  intros Hp Hsize pageSize32 expected c b0.
  pose proof (pageSize32_nonneg pageSize) as Hnn. fold pageSize32 in Hnn, Hsize.
  split.
  - intros Hne Hall.
    assert (checkErrorsCrorc page pageSize eventNumber counter b = (Returns false, b0))
      as E.
    { rewrite checkErrorsCrorc_supported by exact Hp.
      replace (load page 0 =? uint32 counter) with false
        by (symmetry; apply Z.eqb_neq; exact Hne).
      apply crorcWords_all_match; [exact Hsize|lia|fold pageSize32; lia|exact Hall]. }
    split; [exact E|]. split; [apply recorded_counter|].
    intros Hc Hn Hcnt Hs. subst counter.
    rewrite readoutPage_crorc by assumption. rewrite E. cbn [andb].
    unfold b0. rewrite (proj1 (recorded_counter b _)). reflexivity.
  - intros b1 H. split.
    + rewrite checkErrorsCrorc_supported in H by exact Hp.
      apply (crorcWords_true _ _ _ _ _ Hsize) in H; [exact H|lia].
    + intros Hc Hn Hr Hcnt Hs. subst counter.
      rewrite readoutPage_crorc by assumption. rewrite H.
      assert (noResyncCounter b1 = noResyncCounter b /\ mCardType b1 = mCardType b)
        as [Hr1 Hc1].
      { rewrite checkErrorsCrorc_supported in H by exact Hp.
        revert H. generalize (Z.to_nat (to_size_t pageSize / 4)).
        generalize 8.
        assert (forall b2, noResyncCounter b2 = noResyncCounter b ->
                           mCardType b2 = mCardType b ->
                forall z n,
                  crorcWords (crorcPattern (generatorPattern b)) page
                    (to_size_t pageSize / 4) eventNumber
                    (uint32 (mDataGeneratorCounter b)) n z b2 = (Returns true, b1) ->
                  noResyncCounter b1 = noResyncCounter b /\ mCardType b1 = mCardType b)
          as G.
        { intros b2 H1 H2 z n. revert z.
          induction n as [|n IH]; intros z H; cbn [crorcWords] in H; [discriminate|].
          destruct (z <? _); [|discriminate].
          destruct (negb _).
          - unfold bind in H. rewrite addError_recorded in H. inversion H; subst.
            destruct (recorded_counter b2
                        (formatError eventNumber (int32 z)
                           (uint32 (uint32 (mDataGeneratorCounter b)))
                           (uint32 (uint32 (crorcPattern (generatorPattern b) z)))
                           (uint32 (load page z)))) as (_ & -> & -> & _).
            auto.
          - eapply IH. exact H. }
        intros z n. apply G.
        - destruct (_ =? _); [reflexivity|apply recorded_counter].
        - destruct (_ =? _); [reflexivity|apply recorded_counter]. }
      rewrite Hr1, Hr, Hc1, Hc. reflexivity.
Qed.


(** ** The error stream *)

























(** The discrepancy that brings the count to 1000 is counted, not written. *)
Lemma thousandth_error_not_written (b : Bench) (eventNumber index counter expected actual : Z) :
  mErrorCount b = 999 ->
  addError eventNumber index counter expected actual b
    = (Returns tt, set_mErrorCount 1000 b).
Proof.
  intros Hc. rewrite addError_recorded. unfold recorded, MAX_RECORDED_ERRORS.
  rewrite Hc. cbn. rewrite andb_false_r. reflexivity.
Qed.


(** ** Concrete pages *)

Import BenchExamples.

Lemma incremental_pattern_check_witness :
  generatorPattern (midRun true Cru) = Incremental /\
  to_size_t 64 / 4 + 8 <= 2 ^ 32 /\
  checkErrorsCru goodCruPage 64 0 5 (midRun true Cru)
    = (Returns false, midRun true Cru) /\
  checkErrorsCrorc goodCrorcPage 64 0 5 (midRun true Crorc)
    = (Returns false, midRun true Crorc).
Proof.
  assert (to_size_t 64 / 4 + 8 <= 2 ^ 32) as Hsize by (vm_compute; discriminate).
  split; [reflexivity|]. split; [exact Hsize|]. split.
  - destruct (incremental_pattern_check goodCruPage 64 0 5 (midRun true Cru)
                eq_refl Hsize) as (Hgood & _).
    apply Hgood. intros i Hi H8. unfold load, goodCruPage. rewrite H8. reflexivity.
  - destruct (incremental_pattern_check goodCrorcPage 64 0 5 (midRun true Crorc)
                eq_refl Hsize) as (_ & _ & _ & Hgood & _).
    apply Hgood. intros i Hi. unfold load, goodCrorcPage.
    replace (i =? 0) with false by (symmetry; apply Z.eqb_neq; lia).
    reflexivity.
Defined.


(** The same run, verbose. *)
Lemma verbose_run_writes_line :
  outputErrors
    (snd (readoutPages [(badCrorcPage, 64, 0)] (fresh true Crorc Incremental false false)))
    = ("event:0 i:9 cnt:5 exp:0x8 val:0x0" ++ newline)%string.
Proof. vm_compute. reflexivity. Qed.


Lemma crorc_counter_mismatch_no_resync_witness :
  supported (generatorPattern (midRun true Crorc)) = true /\
  to_size_t 64 / 4 + 8 <= 2 ^ 32 /\
  load badCounterPage 0 <> uint32 5 /\
  fst (checkErrorsCrorc badCounterPage 64 0 5 (midRun true Crorc)) = Returns false /\
  mErrorCount (snd (checkErrorsCrorc badCounterPage 64 0 5 (midRun true Crorc))) = 1 /\
  mDataGeneratorCounter (snd (readoutPage badCounterPage 64 0 (midRun true Crorc))) = 6.
Proof.
  assert (to_size_t 64 / 4 + 8 <= 2 ^ 32) as Hsize by (vm_compute; discriminate).
  assert (load badCounterPage 0 <> uint32 5) as Hne by (vm_compute; discriminate).
  destruct (crorc_counter_mismatch_no_resync badCounterPage 64 0 5 (midRun true Crorc)
              eq_refl Hsize) as [Hword0 _].
  destruct (Hword0 Hne) as (Hcheck & Hcount & Hread).
  { intros i Hi. unfold load, badCounterPage, goodCrorcPage.
    replace (i =? 0) with false by (symmetry; apply Z.eqb_neq; lia).
    reflexivity. }
  split; [reflexivity|]. split; [exact Hsize|]. split; [exact Hne|].
  split; [rewrite Hcheck; reflexivity|].
  split; [rewrite Hcheck; exact Hcount|].
  rewrite Hread; [reflexivity|reflexivity|reflexivity|reflexivity|discriminate].
Defined.

End BenchFacts.

(** * More on the C-RORC channel: the client's view *)

Module ChannelUseFacts.
Import CrorcDmaChannel ChannelUse ChannelFacts.

Section Facts.
Context (decl : Declarations).

Abbreviation N := (MAX_SUPERPAGE_DESCRIPTORS decl).

Lemma wholeArrived_arrival (i : Z) (e : ReadyFifo.FifoEntry) :
  wholeArrived decl e = true <-> arrival decl i e = Returns WholeArrived.
Proof.
  unfold wholeArrived, arrival. cbn zeta.
  repeat match goal with |- context [if ?c then _ else _] => destruct c end;
    split; intros H; try discriminate; reflexivity.
Qed.

(** A slot that the walk from [b] over [rest] does not visit can hold
    anything. *)
Lemma deliveries_insert (es : list ReadyFifo.FifoEntry) (x : ReadyFifo.FifoEntry)
    (i : Z) (rest : list Superpage) (d : Z) :
  0 < N -> 0 <= i < N -> 1 <= d -> d + Z.of_nat (length rest) <= N ->
  deliveries decl (<[Z.to_nat i := x]> es) ((i + d) mod N) rest
    = deliveries decl es ((i + d) mod N) rest.
Proof.
  intros HN Hi. revert d. induction rest as [|sp rest IH]; intros d Hd Hlen;
    cbn [deliveries]; [reflexivity|].
  cbn [length] in Hlen.
  assert (0 <= (i + d) mod N < N) as Hb by (apply Z.mod_pos_bound; lia).
  assert ((i + d) mod N <> i) as Hne.
  { destruct (Z_lt_ge_dec (i + d) N) as [Hlt|Hge].
    - rewrite Z.mod_small by lia. lia.
    - replace (i + d) with (i + d - N + 1 * N) by lia.
      rewrite Z.mod_add by lia. rewrite Z.mod_small by lia. lia. }
  rewrite list_lookup_insert_ne by lia.
  destruct (es !! Z.to_nat ((i + d) mod N)) as [e|]; [|reflexivity].
  destruct (wholeArrived decl e); [|reflexivity].
  f_equal. rewrite Z.rem_mod_nonneg by lia.
  rewrite Z.add_mod_idemp_l by lia.
  replace (i + d + 1) with (i + (d + 1)) by lia.
  apply IH; lia.
Qed.

(** The sweep, from a consistent channel: the loop that resets descriptors
    as it goes hands over what [deliveries] reads off the ready-FIFO before
    the sweep. *)
Lemma arrivalLoop_deliveries (tq : list Superpage) (s : Channel) :
  mTransferQueue s = tq -> Inv decl s ->
  let d := deliveries decl (entries s) (mFreeFifoBack s) tq in
  let s' := snd (arrivalLoop decl s) in
  mReadyQueue s' = mReadyQueue s ++ d /\
  mTransferQueue s' = skipn (length d) tq /\
  mFreeFifoSize s' = mFreeFifoSize s - Z.of_nat (length d) /\
  mFreeFifoBack s' = (mFreeFifoBack s + Z.of_nat (length d)) mod N /\
  mFreeFifoFront s' = mFreeFifoFront s /\
  mPendingDmaStart s' = mPendingDmaStart s /\
  cardLog s' = cardLog s.
Proof.
  revert s. induction tq as [|sp rest IH]; intros s Hq HI; cbn zeta.
  - pose proof HI as [I1 I2 I3 I4 I5 I6]. rewrite Hq in I5. cbn [length] in I5.
    rewrite arrivalLoop_unfold.
    replace (mFreeFifoSize s >? 0) with false
      by (symmetry; rewrite Z.gtb_ltb; apply Z.ltb_ge; lia).
    cbn [snd deliveries length skipn]. rewrite app_nil_r, Z.add_0_r, Z.sub_0_r.
    rewrite Z.mod_small by lia. repeat split; auto.
  - pose proof HI as [I1 I2 I3 I4 I5 I6]. rewrite Hq in I5. cbn [length] in I5.
    assert (0 < mFreeFifoSize s) as Hpos by lia.
    destruct (Inv_entry decl s HI) as [Hb [e He]].
    rewrite arrivalLoop_unfold.
    replace (mFreeFifoSize s >? 0) with true by (symmetry; apply Z.gtb_lt; lia).
    cbn [deliveries]. rewrite He.
    destruct (wholeArrived decl e) eqn:Hw.
    + apply (wholeArrived_arrival (mFreeFifoBack s)) in Hw.
      rewrite (arrivalStep_whole decl s e sp rest Hb He Hw Hq).
      pose proof (Inv_complete decl e sp rest s HI Hpos Hq) as HI1.
      specialize (IH (complete decl e sp rest s) eq_refl HI1). cbn zeta in IH.
      change (entries (complete decl e sp rest s))
        with (<[Z.to_nat (mFreeFifoBack s) := ReadyFifo.reset]> (entries s)) in IH.
      change (mFreeFifoBack (complete decl e sp rest s))
        with (Z.rem (mFreeFifoBack s + 1) N) in IH.
      change (mReadyQueue (complete decl e sp rest s))
        with (mReadyQueue s ++ [setReady true (setReceived (lengthBytes e) sp)]) in IH.
      change (mFreeFifoSize (complete decl e sp rest s))
        with (mFreeFifoSize s - 1) in IH.
      change (mFreeFifoFront (complete decl e sp rest s)) with (mFreeFifoFront s) in IH.
      change (mPendingDmaStart (complete decl e sp rest s))
        with (mPendingDmaStart s) in IH.
      change (cardLog (complete decl e sp rest s)) with (cardLog s) in IH.
      rewrite Z.rem_mod_nonneg in * by lia.
      rewrite (deliveries_insert (entries s) ReadyFifo.reset (mFreeFifoBack s) rest 1)
        in IH by lia.
      destruct IH as (H1 & H2 & H3 & H4 & H5 & H6 & H7).
      cbn [length skipn]. rewrite H1, H2, H3, H4, H5, H6, H7.
      rewrite <- app_assoc. cbn [app].
      rewrite Z.add_mod_idemp_l by lia.
      repeat split; auto; try lia. f_equal. lia.
    + assert (arrival decl (mFreeFifoBack s) e <> Returns WholeArrived) as Hnw.
      { intros Ha. apply (wholeArrived_arrival (mFreeFifoBack s)) in Ha. congruence. }
      rewrite (arrivalStep_other decl s e Hb He Hnw).
      assert (snd (match arrival decl (mFreeFifoBack s) e with
                   | Returns _ => (Returns tt, s)
                   | Throws x => (Throws x, s)
                   | Undefined => (Undefined, s)
                   end) = s) as E
        by (destruct (arrival decl (mFreeFifoBack s) e) as [[]| |]; reflexivity).
      destruct (arrival decl (mFreeFifoBack s) e) as [[]| |];
        cbn [snd length skipn]; rewrite app_nil_r, Z.add_0_r, Z.sub_0_r;
        rewrite Z.mod_small by lia; repeat split; auto.
Qed.


Lemma arrivalLoop_stable (n : nat) (s : Channel) (r : Outcome Thrown unit) (s' : Channel) :
  Z.to_nat (mFreeFifoSize s) = n -> Inv decl s ->
  arrivalLoop decl s = (r, s') -> arrivalLoop decl s' = (r, s').
Proof.
  revert s. induction n as [|n IH]; intros s Hn HI H.
  - pose proof HI as [I1 I2 I3 I4 I5 I6].
    rewrite arrivalLoop_unfold in H.
    replace (mFreeFifoSize s >? 0) with false in H
      by (symmetry; rewrite Z.gtb_ltb; apply Z.ltb_ge; lia).
    inversion H; subst. rewrite arrivalLoop_unfold.
    replace (mFreeFifoSize s' >? 0) with false
      by (symmetry; rewrite Z.gtb_ltb; apply Z.ltb_ge; lia).
    reflexivity.
  - pose proof HI as [I1 I2 I3 I4 I5 I6].
    assert (0 < mFreeFifoSize s) as Hpos by lia.
    destruct (Inv_entry decl s HI) as [Hb [e He]].
    pose proof H as H0. rewrite arrivalLoop_unfold in H.
    replace (mFreeFifoSize s >? 0) with true in H by (symmetry; apply Z.gtb_lt; lia).
    destruct (wholeArrived decl e) eqn:Hw.
    + apply (wholeArrived_arrival (mFreeFifoBack s)) in Hw.
      destruct (mTransferQueue s) as [|sp rest] eqn:Hq; [cbn [length] in I5; lia|].
      rewrite (arrivalStep_whole decl s e sp rest Hb He Hw Hq) in H.
      apply (IH (complete decl e sp rest s)); auto.
      * change (mFreeFifoSize (complete decl e sp rest s)) with (mFreeFifoSize s - 1). lia.
      * apply Inv_complete; auto.
    + assert (arrival decl (mFreeFifoBack s) e <> Returns WholeArrived) as Hnw.
      { intros Ha. apply (wholeArrived_arrival (mFreeFifoBack s)) in Ha. congruence. }
      rewrite (arrivalStep_other decl s e Hb He Hnw) in H.
      assert (s' = s) as ->
        by (destruct (arrival decl (mFreeFifoBack s) e) as [[]| |]; congruence).
      exact H0.
Qed.

Lemma fillSuperpages_empty (faults : CardCmd -> bool) (s : Channel) :
  mTransferQueue s = [] -> fillSuperpages decl faults s = (Returns tt, s).
Proof.
  intros Hq. unfold fillSuperpages, bind, gets, isTransferQueueEmpty, ret.
  rewrite Hq. destruct (mPendingDmaStart s); cbn; rewrite ?Hq; reflexivity.
Qed.

Lemma fillSuperpages_running (faults : CardCmd -> bool) (s : Channel) :
  Inv decl s -> mPendingDmaStart s = false ->
  fillSuperpages decl faults s = arrivalLoop decl s.
Proof.
  intros HI Hp. destruct (mTransferQueue s) as [|sp rest] eqn:Hq.
  - rewrite fillSuperpages_empty by assumption.
    pose proof HI as [I1 I2 I3 I4 I5 I6]. rewrite Hq in I5. cbn [length] in I5.
    rewrite arrivalLoop_unfold.
    replace (mFreeFifoSize s >? 0) with false
      by (symmetry; rewrite Z.gtb_ltb; apply Z.ltb_ge; lia).
    reflexivity.
  - rewrite fillSuperpages_runs_scan by (rewrite Hq; discriminate).
    rewrite Hp. reflexivity.
Qed.

Lemma region_delivered (x : Z) (sp : Superpage) :
  region (setReady true (setReceived x sp)) = region sp.
Proof. reflexivity. Qed.

Lemma deliveries_regions (es : list ReadyFifo.FifoEntry) (b : Z) (tq : list Superpage) :
  map region (deliveries decl es b tq)
    = map region (firstn (length (deliveries decl es b tq)) tq).
Proof.
  revert b. induction tq as [|sp rest IH]; intros b; cbn [deliveries]; [reflexivity|].
  destruct (es !! Z.to_nat b) as [e|]; [|reflexivity].
  destruct (wholeArrived decl e); [|reflexivity].
  cbn [length firstn map]. rewrite region_delivered. f_equal. apply IH.
Qed.

(** What any [fillSuperpages] does to the two queues of a consistent
    channel: a head of the transfer queue moves to the tail of the ready
    queue. *)
Lemma fillSuperpages_queues (faults : CardCmd -> bool) (s : Channel) :
  Inv decl s ->
  exists d,
    mReadyQueue (snd (fillSuperpages decl faults s)) = mReadyQueue s ++ d /\
    mTransferQueue (snd (fillSuperpages decl faults s))
      = skipn (length d) (mTransferQueue s) /\
    map region d = map region (firstn (length d) (mTransferQueue s)).
Proof.
  intros HI. destruct (mTransferQueue s) as [|sp rest] eqn:Hq.
  - rewrite fillSuperpages_empty by assumption. exists []. cbn [snd].
    rewrite Hq, app_nil_r. auto.
  - rewrite fillSuperpages_runs_scan by (rewrite Hq; discriminate).
    unfold bind.
    destruct ((if mPendingDmaStart s then startPendingDma faults else ret tt) s)
      as [r1 s1] eqn:E1.
    destruct (pendingStart_shape faults s r1 s1 E1) as [(log & p & Hs1) Hr1].
    assert (mReadyQueue s1 = mReadyQueue s /\ mTransferQueue s1 = mTransferQueue s /\
            entries s1 = entries s /\ mFreeFifoBack s1 = mFreeFifoBack s /\
            mFreeFifoFront s1 = mFreeFifoFront s /\ mFreeFifoSize s1 = mFreeFifoSize s)
      as (Q1 & Q2 & Q3 & Q4 & Q5 & Q6)
      by (subst s1; destruct s; cbn; auto 10).
    destruct Hr1 as [->|(c & -> & Hc)].
    + assert (Inv decl s1) as HI1
        by (apply (Inv_same decl s s1); auto; rewrite Q3; reflexivity).
      pose proof (arrivalLoop_deliveries (mTransferQueue s1) s1 eq_refl HI1) as H.
      cbn zeta in H. destruct H as (H1 & H2 & _).
      exists (deliveries decl (entries s1) (mFreeFifoBack s1) (mTransferQueue s1)).
      rewrite H1, H2, Q1, Q2, Hq. repeat split; auto.
      rewrite <- Hq, <- Q2. apply deliveries_regions.
    + exists []. cbn [snd length skipn firstn map]. rewrite Q1, Q2, Hq, app_nil_r. auto.
Qed.


(** X2. On a running channel a second [fillSuperpages], the card having
    written nothing in between, changes nothing and ends as the first one
    did: a sweep leaves nothing it could have handed over. *)
Theorem fillSuperpages_twice (faults faults' : CardCmd -> bool) (s : Channel) :
  0 < N -> Reachable decl s -> mPendingDmaStart s = false ->
  fillSuperpages decl faults' (snd (fillSuperpages decl faults s))
    = fillSuperpages decl faults s.
Proof.
  intros HN HR Hp. pose proof (Reachable_Inv decl s HN HR) as HI.
  rewrite (fillSuperpages_running faults s HI Hp).
  destruct (arrivalLoop decl s) as [r s'] eqn:E. cbn [snd].
  pose proof (arrivalLoop_deliveries (mTransferQueue s) s eq_refl HI) as H.
  cbn zeta in H. rewrite E in H. cbn [snd] in H.
  destruct H as (_ & _ & _ & _ & _ & H6 & _).
  assert (Inv decl s') as HI'.
  { unfold arrivalLoop, bind, gets in E.
    exact (proj1 (arrivalPasses_Inv decl _ s r s' HI E)). }
  rewrite (fillSuperpages_running faults' s' HI') by congruence.
  exact (arrivalLoop_stable _ s r s' eq_refl HI E).
Qed.

(** *** Histories *)

Lemma getSuperpage_eq (s : Channel) :
  getSuperpage s =
    match mReadyQueue s with
    | [] => (Throws ReadyQueueEmptyOnGet, s)
    | sp :: _ => (Returns sp, s)
    end.
Proof.
  unfold getSuperpage, bind, gets, throw, ret. destruct (mReadyQueue s); reflexivity.
Qed.

Lemma popSuperpage_eq (s : Channel) :
  popSuperpage s =
    match mReadyQueue s with
    | [] => (Throws ReadyQueueEmptyOnPop, s)
    | sp :: rest => (Returns sp, set_mReadyQueue rest s)
    end.
Proof.
  unfold popSuperpage, bind, gets, throw, ret, modify.
  destruct (mReadyQueue s); reflexivity.
Qed.




(** *** The transfer queue within its capacity *)

Lemma Reachable_within_capacity (s : Channel) :
  0 < N -> 0 <= TRANSFER_QUEUE_CAPACITY decl -> Reachable decl s ->
  Z.of_nat (length (mTransferQueue s)) <= TRANSFER_QUEUE_CAPACITY decl.
Proof.
  intros HN Hcap HR. induction HR as [s f s' Hlen Hstart|s c HR IH|s es HR IH Hlen].
  - pose proof (deviceStartDma_shape decl f s) as H. rewrite Hstart in H.
    destruct H as [log ->]. destruct s; cbn. lia.
  - pose proof (Reachable_Inv decl s HN HR) as HI.
    destruct c as [f|f sp|f| |]; cbn [run].
    + pose proof (deviceStartDma_shape decl f s) as H.
      destruct (deviceStartDma decl f s) as [[a|x|] s1]; cbn [snd].
      * destruct H as [log ->]. destruct s; cbn. lia.
      * destruct x; try contradiction. destruct H as [_ [log ->]].
        destruct s; cbn in *. lia.
      * contradiction.
    + pose proof (pushSuperpage_shape decl f sp s) as H.
      destruct (pushSuperpage decl f sp s) as [[a|x|] s1]; cbn [snd].
      * destruct H as (_ & Hlt & _ & _ & ->).
        assert (mTransferQueue
                  (pushed decl sp (set_cardLog (cardLog s ++ [pushCall decl sp s]) s))
                = mTransferQueue s ++ [sp]) as -> by (destruct s; reflexivity).
        rewrite length_app. cbn [length]. lia.
      * destruct H as [-> _]. exact IH.
      * contradiction.
    + destruct (fillSuperpages_queues f s HI) as (d & _ & -> & _).
      rewrite length_skipn. lia.
    + unfold bind, ret. rewrite getSuperpage_eq.
      destruct (mReadyQueue s); exact IH.
    + unfold bind, ret. rewrite popSuperpage_eq.
      destruct (mReadyQueue s); [exact IH|]. destruct s; exact IH.
  - destruct s; exact IH.
Qed.

(** X4. At every reachable time the number [getTransferQueueAvailable]
    reports lies between 0 and the capacity and is the capacity less the
    descriptors in flight; and [pushSuperpage] returns exactly when the
    superpage is accepted, a slot is available, the card has a free
    descriptor and its call does not raise. *)
Theorem transfer_queue_available (s : Channel) :
  0 < N -> 0 <= TRANSFER_QUEUE_CAPACITY decl -> Reachable decl s ->
  0 <= getTransferQueueAvailable decl s <= TRANSFER_QUEUE_CAPACITY decl /\
  getTransferQueueAvailable decl s = TRANSFER_QUEUE_CAPACITY decl - mFreeFifoSize s /\
  forall (faults : CardCmd -> bool) (sp : Superpage),
    fst (pushSuperpage decl faults sp s) = Returns tt <->
    checkSuperpage decl sp = true /\ 0 < getTransferQueueAvailable decl s /\
    mFreeFifoSize s < N /\ faults (pushCall decl sp s) = false.
Proof.
  intros HN Hcap HR. pose proof (Reachable_within_capacity s HN Hcap HR) as Hq.
  pose proof (Reachable_Inv decl s HN HR) as [I1 I2 I3 I4 I5 I6].
  unfold getTransferQueueAvailable. split; [lia|]. split; [lia|].
  intros faults sp. split.
  - intros Hret. pose proof (pushSuperpage_shape decl faults sp s) as Hs.
    destruct (pushSuperpage decl faults sp s) as [[a|x|] s1]; cbn [fst] in Hret;
      try discriminate.
    destruct Hs as (? & ? & ? & ? & _). repeat split; auto; lia.
  - intros (Hok & Hav & Hsz & Hf).
    rewrite (pushSuperpage_returns decl faults sp s Hok) by (auto; lia). reflexivity.
Qed.

(** *** A superpage through the channel *)




(** *** The calls that start the flow of data *)

Lemma set_cardLog_same (s : Channel) : set_cardLog (cardLog s ++ []) s = s.
Proof. destruct s; cbn. rewrite app_nil_r. reflexivity. Qed.

Lemma set_cardLog_twice (s : Channel) (a b : list CardCmd) :
  set_cardLog (cardLog (set_cardLog (cardLog s ++ a) s) ++ b)
    (set_cardLog (cardLog s ++ a) s)
  = set_cardLog (cardLog s ++ a ++ b) s.
Proof. destruct s; cbn. rewrite app_assoc. reflexivity. Qed.

Lemma starts_app (a b : list CardCmd) : starts (a ++ b) = (starts a + starts b)%nat.
Proof. unfold starts. rewrite List.filter_app, length_app. reflexivity. Qed.

Lemma emits_ret {A : Type} (n : nat) (a : A) : emits n (ret a).
Proof.
  intros s. exists []. cbn. split; [rewrite set_cardLog_same; reflexivity|lia].
Qed.

Lemma emits_gets {A : Type} (n : nat) (f : Channel -> A) : emits n (gets f).
Proof.
  intros s. exists []. cbn. split; [rewrite set_cardLog_same; reflexivity|lia].
Qed.

Lemma emits_issue_quiet (faults : CardCmd -> bool) (n : nat) (c : CardCmd) :
  startsData c = false -> emits n (issue faults c).
Proof.
  intros Hc s. unfold issue. destruct (faults c).
  - exists []. cbn. split; [rewrite set_cardLog_same; reflexivity|reflexivity].
  - exists [c]. cbn. split; [reflexivity|].
    unfold starts. cbn [List.filter]. rewrite Hc. cbn. lia.
Qed.

Lemma emits_issue (faults : CardCmd -> bool) (n : nat) (c : CardCmd) :
  emits (S n) (issue faults c).
Proof.
  intros s. unfold issue. destruct (faults c).
  - exists []. cbn. split; [rewrite set_cardLog_same; reflexivity|reflexivity].
  - exists [c]. cbn. split; [reflexivity|].
    unfold starts. cbn [List.filter]. destruct (startsData c); cbn; lia.
Qed.

Lemma emits_bind {A B : Type} (n : nat) (m : Op A) (k : A -> Op B) :
  emits 0 m -> (forall a, emits n (k a)) -> emits n (bind m k).
Proof.
  intros Hm Hk s. unfold bind. destruct (Hm s) as (c1 & H1 & R1).
  destruct (m s) as [[a|x|] s1]; cbn [fst snd] in H1, R1; subst s1.
  - destruct (Hk a (set_cardLog (cardLog s ++ c1) s)) as (c2 & H2 & R2).
    exists (c1 ++ c2). rewrite H2, set_cardLog_twice. split; [reflexivity|].
    rewrite starts_app.
    destruct (fst (k a (set_cardLog (cardLog s ++ c1) s))); [lia|lia|exact R2].
  - exists c1. cbn. auto.
  - contradiction.
Qed.

Lemma emits_if {A : Type} (n : nat) (b : bool) (m1 m2 : Op A) :
  emits n m1 -> emits n m2 -> emits n (if b then m1 else m2).
Proof. destruct b; auto. Qed.

Ltac emits_tac :=
  repeat first
    [ apply emits_ret | apply emits_gets
    | apply emits_issue_quiet; reflexivity
    | apply emits_issue | apply emits_if
    | apply emits_bind; [|intros ?]
    | match goal with |- emits _ (match ?x with _ => _ end) => destruct x end ].

Lemma emits_armDdl (faults : CardCmd -> bool) (n : nat) (l : ResetLevel) :
  emits n (armDdl decl faults l).
Proof. unfold armDdl. destruct l; emits_tac. Qed.

Lemma emits_startDataGenerator (faults : CardCmd -> bool) :
  emits 1 (startDataGenerator faults).
Proof. unfold startDataGenerator. emits_tac. Qed.

Lemma bind_emits {A B : Type} (n : nat) (m : Op A) (k : A -> Op B) (s : Channel) :
  emits n m ->
  (exists a cmds, (starts cmds <= n)%nat /\
                  bind m k s = k a (set_cardLog (cardLog s ++ cmds) s)) \/
  (exists x cmds, starts cmds = 0%nat /\
                  bind m k s = (Throws x, set_cardLog (cardLog s ++ cmds) s)).
Proof.
  intros Hm. destruct (Hm s) as (c1 & H1 & R1). unfold bind.
  destruct (m s) as [[a|x|] s1]; cbn [fst snd] in H1, R1; subst s1.
  - left. eauto.
  - right. eauto.
  - contradiction.
Qed.

(** [deviceStartDma] issues no call that starts the flow of data. *)
Lemma deviceStartDma_quiet (faults : CardCmd -> bool) (s : Channel) :
  exists cmds,
    cardLog (snd (deviceStartDma decl faults s)) = cardLog s ++ cmds /\
    starts cmds = 0%nat.
Proof.
  unfold deviceStartDma.
  match goal with |- context [bind ?m ?k s] =>
    destruct (bind_emits 0 m k s) as
      [(a1 & c1 & S1 & ->)|(x & c & Sc & ->)] end.
  { apply emits_issue_quiet. reflexivity. }
  2:{ exists c. split; [destruct s; reflexivity|exact Sc]. }
  unfold bind at 1. unfold gets at 1.
  match goal with |- context [bind ?m ?k (set_cardLog ?l s)] =>
    destruct (bind_emits 0 m k (set_cardLog l s)) as
      [(a2 & c2 & S2 & ->)|(x & c & Sc & ->)] end.
  { destruct (mDataSource (set_cardLog (cardLog s ++ c1) s)); apply emits_armDdl. }
  2:{ rewrite set_cardLog_twice. exists (c1 ++ c).
      split; [destruct s; reflexivity|rewrite starts_app; lia]. }
  rewrite set_cardLog_twice.
  match goal with |- context [bind ?m ?k (set_cardLog ?l s)] =>
    destruct (bind_emits 0 m k (set_cardLog l s)) as
      [(a3 & c3 & S3 & ->)|(x & c & Sc & ->)] end.
  { apply emits_issue_quiet. reflexivity. }
  2:{ rewrite set_cardLog_twice. exists ((c1 ++ c2) ++ c).
      split; [destruct s; reflexivity|rewrite !starts_app; lia]. }
  rewrite set_cardLog_twice. exists ((c1 ++ c2) ++ c3).
  split; [destruct s; reflexivity|rewrite !starts_app; lia].
Qed.

(** [startPendingDma] starts the flow of data at most once, and only as it
    clears the pending flag. *)
Lemma startPendingDma_emits (faults : CardCmd -> bool) (s : Channel)
    (r : Outcome Thrown unit) (s' : Channel) :
  startPendingDma faults s = (r, s') ->
  exists cmds,
    cardLog s' = cardLog s ++ cmds /\
    ((mPendingDmaStart s' = mPendingDmaStart s /\ starts cmds = 0%nat) \/
     (mPendingDmaStart s = true /\ mPendingDmaStart s' = false /\
      (starts cmds <= 1)%nat)).
Proof.
  intros H. unfold startPendingDma in H.
  unfold bind at 1 in H. unfold gets at 1 in H.
  destruct (mPendingDmaStart s) eqn:Hp; cbn [negb] in H.
  2:{ inversion H; subst. exists []. rewrite app_nil_r. auto. }
  unfold bind at 1 in H. unfold gets at 1 in H.
  destruct (mTransferQueue s) as [|sp rest] eqn:Hq.
  { inversion H; subst. exists []. rewrite app_nil_r. auto. }
  unfold bind at 1 in H. unfold gets at 1 in H.
  match type of H with context [bind ?m _] =>
    assert (emits 1 m) as Hm by emits_tac;
    destruct (Hm s) as (cmds & H1 & R1); unfold bind at 1 in H;
    destruct (m s) as [[a|x|] s1] end; cbn [fst snd] in H1, R1; subst s1.
  - inversion H; subst. exists cmds. split; [destruct s; reflexivity|].
    right. repeat split; auto; destruct s; reflexivity.
  - inversion H; subst. exists cmds. split; [destruct s; reflexivity|].
    left. split; [destruct s; cbn in *; congruence|exact R1].
  - contradiction.
Qed.

Lemma fillSuperpages_emits (faults : CardCmd -> bool) (s : Channel) :
  exists cmds,
    cardLog (snd (fillSuperpages decl faults s)) = cardLog s ++ cmds /\
    ((mPendingDmaStart (snd (fillSuperpages decl faults s)) = mPendingDmaStart s /\
      starts cmds = 0%nat) \/
     (mPendingDmaStart s = true /\
      mPendingDmaStart (snd (fillSuperpages decl faults s)) = false /\
      (starts cmds <= 1)%nat)).
Proof.
  destruct (mTransferQueue s) as [|sp rest] eqn:Hq.
  - rewrite fillSuperpages_empty by assumption. exists []. cbn [snd].
    rewrite app_nil_r. auto.
  - rewrite fillSuperpages_runs_scan by (rewrite Hq; discriminate).
    unfold bind.
    destruct ((if mPendingDmaStart s then startPendingDma faults else ret tt) s)
      as [r1 s1] eqn:E1.
    assert (exists cmds,
               cardLog s1 = cardLog s ++ cmds /\
               ((mPendingDmaStart s1 = mPendingDmaStart s /\ starts cmds = 0%nat) \/
                (mPendingDmaStart s = true /\ mPendingDmaStart s1 = false /\
                 (starts cmds <= 1)%nat))) as (cmds & L1 & L2).
    { destruct (mPendingDmaStart s) eqn:Hp.
      - destruct (startPendingDma_emits faults s r1 s1 E1) as (cmds & L1 & L2).
        rewrite Hp in L2. eauto.
      - inversion E1; subst. exists []. rewrite app_nil_r. auto. }
    destruct r1 as [a| |]; cbn [snd]; eauto.
    unfold arrivalLoop, bind, gets.
    destruct (arrivalPasses decl (Z.to_nat (mFreeFifoSize s1)) s1) as [r2 s2] eqn:E2.
    destruct (arrivalPasses_delivers decl _ s1 r2 s2 E2) as (D1 & D2 & _).
    cbn [snd]. exists cmds. rewrite D1, D2. auto.
Qed.

Lemma step_emits (e : Event) (s : Channel) :
  isRestart e = false ->
  exists cmds,
    cardLog (step decl e s) = cardLog s ++ cmds /\
    ((mPendingDmaStart (step decl e s) = mPendingDmaStart s /\ starts cmds = 0%nat) \/
     (mPendingDmaStart s = true /\ mPendingDmaStart (step decl e s) = false /\
      (starts cmds <= 1)%nat)).
Proof.
  intros Hr. destruct e as [[f|f sp|f| |]|es]; cbn [step run]; try discriminate.
  - pose proof (pushSuperpage_shape decl f sp s) as H.
    destruct (pushSuperpage decl f sp s) as [[a|x|] s1]; cbn [snd].
    + destruct H as (_ & _ & _ & _ & ->). exists [pushCall decl sp s].
      split; [destruct s; reflexivity|]. left. split; [destruct s|]; reflexivity.
    + destruct H as [-> _]. exists []. rewrite app_nil_r. auto.
    + contradiction.
  - apply fillSuperpages_emits.
  - unfold bind, ret. rewrite getSuperpage_eq. exists []. rewrite app_nil_r.
    destruct (mReadyQueue s); auto.
  - unfold bind, ret. rewrite popSuperpage_eq. exists []. rewrite app_nil_r.
    destruct (mReadyQueue s); cbn [snd]; [auto|]. destruct s; auto.
  - exists []. rewrite app_nil_r.
    destruct (Nat.eqb (length es) (length (entries s))); [destruct s|]; auto.
Qed.

Lemma after_emits (evs : list Event) (s : Channel) :
  forallb (fun e => negb (isRestart e)) evs = true ->
  exists cmds,
    cardLog (after decl evs s) = cardLog s ++ cmds /\
    ((mPendingDmaStart (after decl evs s) = mPendingDmaStart s /\
      starts cmds = 0%nat) \/
     (mPendingDmaStart s = true /\ mPendingDmaStart (after decl evs s) = false /\
      (starts cmds <= 1)%nat)).
Proof.
  revert s. induction evs as [|e evs IH]; intros s Hev; cbn [after].
  - exists []. rewrite app_nil_r. auto.
  - cbn [forallb] in Hev. apply andb_prop in Hev as [He Hev].
    apply negb_true_iff in He.
    destruct (step_emits e s He) as (c1 & L1 & P1).
    destruct (IH (step decl e s) Hev) as (c2 & L2 & P2).
    exists (c1 ++ c2). rewrite L2, L1, app_assoc. split; [reflexivity|].
    rewrite starts_app.
    destruct P1 as [[Q1 S1]|(Q0 & Q1 & S1)], P2 as [[Q2 S2]|(Q2' & Q2 & S2)].
    + left. split; [congruence|lia].
    + right. repeat split; [congruence|assumption|lia].
    + right. repeat split; [assumption|congruence|lia].
    + congruence.
Qed.

(** X6. The generator or the trigger is started at most once for each
    [startDma]: [deviceStartDma] itself issues no call that starts the flow of
    data, and over any history of calls and card writes that follows, up to
    the next [startDma], at most one such call is issued, and none as long as
    the start is still pending. *)
Theorem data_flow_started_once
    (faults : CardCmd -> bool) (s0 s1 : Channel) (evs : list Event) :
  deviceStartDma decl faults s0 = (Returns tt, s1) ->
  forallb (fun e => negb (isRestart e)) evs = true ->
  exists cmds0 cmds,
    cardLog s1 = cardLog s0 ++ cmds0 /\ starts cmds0 = 0%nat /\
    cardLog (after decl evs s1) = cardLog s1 ++ cmds /\ (starts cmds <= 1)%nat /\
    (mPendingDmaStart (after decl evs s1) = true -> starts cmds = 0%nat).
Proof.
  intros Hstart Hev.
  destruct (deviceStartDma_quiet faults s0) as (c0 & L0 & S0).
  rewrite Hstart in L0. cbn [snd] in L0.
  assert (mPendingDmaStart s1 = true) as Hp.
  { pose proof (deviceStartDma_shape decl faults s0) as H. rewrite Hstart in H.
    destruct H as [log ->]. destruct s0; reflexivity. }
  destruct (after_emits evs s1 Hev) as (c & L & P).
  exists c0, c. repeat split; auto.
  - destruct P as [[_ S]|(_ & _ & S)]; lia.
  - intros Hpf. destruct P as [[_ S]|(_ & Hf & _)]; [exact S|congruence].
Qed.

End Facts.

Import Examples.


Lemma fillSuperpages_twice_witness :
  0 < MAX_SUPERPAGE_DESCRIPTORS declarations128 /\
  Reachable declarations128 arrived /\
  mPendingDmaStart arrived = false /\
  fillSuperpages declarations128 noFaults
    (snd (fillSuperpages declarations128 noFaults arrived))
  = fillSuperpages declarations128 noFaults arrived.
Proof.
  assert (0 < MAX_SUPERPAGE_DESCRIPTORS declarations128) as HN by (cbn; lia).
  assert (mPendingDmaStart arrived = false) as Hp by (vm_compute; reflexivity).
  split; [exact HN|]. split; [apply cardWrites_reachable|]. split; [exact Hp|].
  exact (fillSuperpages_twice declarations128 noFaults noFaults arrived HN
           (cardWrites_reachable _) Hp).
Defined.


Lemma transfer_queue_available_witness :
  0 < MAX_SUPERPAGE_DESCRIPTORS declarations128 /\
  0 <= TRANSFER_QUEUE_CAPACITY declarations128 /\
  Reachable declarations128 afterPush /\
  0 <= getTransferQueueAvailable declarations128 afterPush
    <= TRANSFER_QUEUE_CAPACITY declarations128.
Proof.
  assert (0 < MAX_SUPERPAGE_DESCRIPTORS declarations128) as HN by (cbn; lia).
  assert (0 <= TRANSFER_QUEUE_CAPACITY declarations128) as Hcap by (cbn; lia).
  split; [exact HN|]. split; [exact Hcap|]. split; [exact afterPush_reachable|].
  exact (proj1 (transfer_queue_available declarations128 afterPush HN Hcap
                  afterPush_reachable)).
Defined.



Lemma data_flow_started_once_witness :
  let evs :=
    [ClientCall (CallPushSuperpage noFaults (superpageAt 0));
     ClientCall (CallFillSuperpages noFaults);
     ClientCall (CallPushSuperpage noFaults (superpageAt 8192));
     ClientCall (CallFillSuperpages noFaults)] in
  deviceStartDma declarations128 noFaults constructed = (Returns tt, afterStart) /\
  forallb (fun e => negb (isRestart e)) evs = true /\
  exists cmds,
    cardLog (after declarations128 evs afterStart) = cardLog afterStart ++ cmds /\
    (starts cmds <= 1)%nat.
Proof.
  intros evs.
  assert (deviceStartDma declarations128 noFaults constructed = (Returns tt, afterStart))
    as Hstart by (vm_compute; reflexivity).
  split; [exact Hstart|]. split; [reflexivity|].
  destruct (data_flow_started_once declarations128 noFaults constructed afterStart
              evs Hstart eq_refl) as (c0 & c & _ & _ & L & S & _).
  exists c. split; [exact L|exact S].
Defined.

End ChannelUseFacts.

(** * More on the pattern verifier: runs of pages *)

Module BenchRunsFacts.
Import ProgramDmaBench BenchRuns BenchFacts.

Lemma uint32_nonneg (x : Z) : 0 <= uint32 x.
Proof. unfold uint32. apply Z.mod_pos_bound. lia. Qed.

Lemma uint32_succ (x y : Z) : uint32 x = uint32 y -> uint32 (x + 1) = uint32 (y + 1).
Proof.
  unfold uint32. intros H.
  rewrite <- (Z.add_mod_idemp_l x), <- (Z.add_mod_idemp_l y) by lia.
  rewrite H. reflexivity.
Qed.

Lemma set_counter_same (b : Bench) :
  set_mDataGeneratorCounter (mDataGeneratorCounter b) b = b.
Proof. destruct b; reflexivity. Qed.

Lemma set_counter_twice (x y : Z) (b : Bench) :
  set_mDataGeneratorCounter x (set_mDataGeneratorCounter y b)
    = set_mDataGeneratorCounter x b.
Proof. destruct b; reflexivity. Qed.

(** The first page of a run seeds the counter. *)
Lemma readoutPage_seed (page : Page) (pageSize readoutCount : Z) (b : Bench) :
  noErrorCheck b = false -> mDataGeneratorCounter b = -1 ->
  mCardType b <> OtherCard ->
  readoutPage page pageSize readoutCount b =
    readoutPage page pageSize readoutCount
      (set_mDataGeneratorCounter
         (match mCardType b with
          | Cru => getEventNumber page / 256
          | _ => getEventNumber page
          end) b).
Proof.
  intros Hn Hc Hcard.
  assert (0 <= getEventNumber page) as H0 by apply uint32_nonneg.
  assert (0 <= getEventNumber page / 256) as H1 by (apply Z.div_pos; lia).
  unfold readoutPage.
  unfold bind at 1. unfold gets at 1. rewrite Hn. cbn [negb].
  unfold bind at 1. unfold bind at 1. unfold gets at 1. unfold bind at 1.
  rewrite Hc. cbn [Z.eqb Pos.eqb].
  unfold bind at 1. unfold getDataGeneratorCounterFromPage at 1.
  unfold bind at 1. unfold gets at 1.
  symmetry.
  unfold bind at 1. unfold gets at 1.
  replace (noErrorCheck (set_mDataGeneratorCounter _ b)) with false
    by (destruct b; cbn in *; congruence).
  cbn [negb].
  unfold bind at 1. unfold bind at 1. unfold gets at 1. unfold bind at 1.
  destruct (mCardType b) eqn:Ecard; [| |congruence].
  - replace (mDataGeneratorCounter (set_mDataGeneratorCounter (getEventNumber page) b)
             =? -1) with false
      by (symmetry; apply Z.eqb_neq; destruct b; cbn; lia).
    reflexivity.
  - replace (mDataGeneratorCounter
               (set_mDataGeneratorCounter (getEventNumber page / 256) b) =? -1)
      with false
      by (symmetry; apply Z.eqb_neq; destruct b; cbn; lia).
    reflexivity.
Qed.

(** *** The C-RORC *)

Lemma checkErrorsCrorc_clean (pattern : GeneratorPattern) (c : Z) (page : Page)
    (pageSize eventNumber : Z) (b : Bench) :
  generatorPattern b = pattern -> supported pattern = true ->
  to_size_t pageSize / 4 + 8 <= 2 ^ 32 ->
  crorcPage pattern c page pageSize ->
  checkErrorsCrorc page pageSize eventNumber (mDataGeneratorCounter b) b =
    (Returns false,
     if load page 0 =? uint32 (mDataGeneratorCounter b) then b
     else recorded b (formatError eventNumber 0 (uint32 (mDataGeneratorCounter b))
                        (uint32 (mDataGeneratorCounter b)) (load page 0))).
Proof.
  intros Hp Hs Hsize [_ Hwords].
  rewrite checkErrorsCrorc_supported by (rewrite Hp; exact Hs).
  rewrite Hp. apply crorcWords_all_match; auto; lia.
Qed.

(** One page of the expected event, or of another one. *)
Lemma readoutPage_crorc_page (pattern : GeneratorPattern) (c : Z) (page : Page)
    (pageSize readoutCount : Z) (b : Bench) :
  mCardType b = Crorc -> noErrorCheck b = false ->
  generatorPattern b = pattern -> supported pattern = true ->
  to_size_t pageSize / 4 + 8 <= 2 ^ 32 ->
  crorcPage pattern c page pageSize ->
  0 <= mDataGeneratorCounter b ->
  readoutPage page pageSize readoutCount b =
    (Returns tt,
     set_mDataGeneratorCounter (mDataGeneratorCounter b + 1)
       (if uint32 c =? uint32 (mDataGeneratorCounter b) then b
        else recorded b (formatError readoutCount 0 (uint32 (mDataGeneratorCounter b))
                           (uint32 (mDataGeneratorCounter b)) (uint32 c)))).
Proof.
  intros Hcard Hn Hp Hs Hsize Hpage Hc.
  rewrite readoutPage_crorc by (auto; lia).
  rewrite (checkErrorsCrorc_clean pattern c) by auto.
  destruct Hpage as [-> _]. cbn [andb].
  destruct (uint32 c =? uint32 (mDataGeneratorCounter b)); [reflexivity|].
  destruct (recorded_counter b
              (formatError readoutCount 0 (uint32 (mDataGeneratorCounter b))
                 (uint32 (mDataGeneratorCounter b)) (uint32 c))) as (-> & _).
  reflexivity.
Qed.

Lemma recorded_options (b : Bench) (text : string) :
  mCardType (recorded b text) = mCardType b /\
  generatorPattern (recorded b text) = generatorPattern b /\
  noErrorCheck (recorded b text) = noErrorCheck b /\
  noResyncCounter (recorded b text) = noResyncCounter b /\
  mVerbose (recorded b text) = mVerbose b /\
  mDataGeneratorCounter (recorded b text) = mDataGeneratorCounter b /\
  mErrorCount (recorded b text) = mErrorCount b + 1.
Proof.
  unfold recorded. cbn zeta.
  destruct (mVerbose b && (mErrorCount b + 1 <? MAX_RECORDED_ERRORS));
    destruct b; cbn; auto 10.
Qed.

Lemma set_counter_options (k : Z) (b : Bench) :
  mCardType (set_mDataGeneratorCounter k b) = mCardType b /\
  generatorPattern (set_mDataGeneratorCounter k b) = generatorPattern b /\
  noErrorCheck (set_mDataGeneratorCounter k b) = noErrorCheck b /\
  noResyncCounter (set_mDataGeneratorCounter k b) = noResyncCounter b /\
  mVerbose (set_mDataGeneratorCounter k b) = mVerbose b /\
  mDataGeneratorCounter (set_mDataGeneratorCounter k b) = k /\
  mErrorCount (set_mDataGeneratorCounter k b) = mErrorCount b /\
  mErrorStream (set_mDataGeneratorCounter k b) = mErrorStream b.
Proof. destruct b; cbn; auto 10. Qed.

Lemma uint32_pred (x y : Z) : uint32 (x + 1) = uint32 (y + 1) -> uint32 x = uint32 y.
Proof.
  unfold uint32. intros H.
  replace x with (x + 1 + (-1)) by lia. replace y with (y + 1 + (-1)) by lia.
  rewrite <- (Z.add_mod_idemp_l (x + 1)), <- (Z.add_mod_idemp_l (y + 1)) by lia.
  rewrite H. reflexivity.
Qed.

(** A run of pages of the events the counter expects. *)
Lemma readoutPages_crorc_clean (pattern : GeneratorPattern)
    (pages : list (Page * Z * Z)) (c : Z) (b : Bench) :
  mCardType b = Crorc -> noErrorCheck b = false ->
  generatorPattern b = pattern -> supported pattern = true ->
  expects (2 ^ 32) b c ->
  crorcStream pattern c pages ->
  readoutPages pages b =
    (Returns tt,
     set_mDataGeneratorCounter (mDataGeneratorCounter b + Z.of_nat (length pages)) b).
Proof.
  revert c b. induction pages as [|[[page pageSize] rc] rest IH];
    intros c b Hcard Hn Hp Hs [Hc0 Hc] Hpages.
  - cbn [readoutPages length]. unfold ret. rewrite Z.add_0_r, set_counter_same.
    reflexivity.
  - cbn [crorcStream] in Hpages. destruct Hpages as (Hpage & Hsize & Hrest).
    cbn [readoutPages]. unfold bind.
    rewrite (readoutPage_crorc_page pattern c) by auto.
    replace (uint32 c =? uint32 (mDataGeneratorCounter b)) with true
      by (symmetry; apply Z.eqb_eq; unfold uint32; congruence).
    destruct (set_counter_options (mDataGeneratorCounter b + 1) b)
      as (O1 & O2 & O3 & _ & _ & O6 & _).
    rewrite (IH (c + 1)); auto; try congruence.
    + rewrite O6, set_counter_twice. do 2 f_equal. cbn [length]. lia.
    + split; [rewrite O6; lia|]. rewrite O6.
      apply (uint32_succ (mDataGeneratorCounter b) c). exact Hc.
Qed.

(** X7. A clean C-RORC run, from the start of the readout: when the pages
    are those of consecutive events, each with the event counter in word 0
    and the pattern from word 8 on, the whole run returns, counts no error,
    writes nothing to the error stream, and leaves the counter at the first
    event plus the number of pages. *)
Theorem crorc_clean_run (pattern : GeneratorPattern) (pages : list (Page * Z * Z))
    (c : Z) (verbose noResync : bool) :
  supported pattern = true ->
  crorcStream pattern c pages -> pages <> [] ->
  readoutPages pages (fresh verbose Crorc pattern false noResync) =
    (Returns tt,
     set_mDataGeneratorCounter (uint32 c + Z.of_nat (length pages))
       (fresh verbose Crorc pattern false noResync)).
Proof.
  intros Hs Hpages Hne. destruct pages as [|[[page pageSize] rc] rest]; [congruence|].
  pose proof Hpages as Hpages0.
  cbn [crorcStream] in Hpages. destruct Hpages as ([Hw0 _] & _ & _).
  cbn [readoutPages]. unfold bind at 1.
  rewrite readoutPage_seed by (cbn; congruence).
  cbn [mCardType fresh]. unfold getEventNumber. rewrite Hw0.
  set (b0 := set_mDataGeneratorCounter (uint32 c)
               (fresh verbose Crorc pattern false noResync)).
  change (match readoutPage page pageSize rc b0 with
          | (Returns a, s') => readoutPages rest s'
          | (Throws e, s') => (Throws e, s')
          | (Undefined, s') => (Undefined, s')
          end) with (readoutPages ((page, pageSize, rc) :: rest) b0).
  assert (expects (2 ^ 32) b0 c) as Hexp.
  { subst b0. split; cbn; [apply uint32_nonneg|]. apply Z.mod_mod. lia. }
  rewrite (readoutPages_crorc_clean pattern _ c b0 eq_refl eq_refl eq_refl Hs Hexp
             Hpages0).
  subst b0. reflexivity.
Qed.

(** X8. A lost page on the C-RORC is never recovered from: once the counter
    expects another event than the one the pages carry on with, every page
    of the rest of the run, clean as it is, counts one error, whatever the
    resynchronisation option says. *)
Theorem crorc_lost_page_cascade (pattern : GeneratorPattern)
    (pages : list (Page * Z * Z)) (c0 c : Z) (b : Bench) :
  mCardType b = Crorc -> noErrorCheck b = false ->
  generatorPattern b = pattern -> supported pattern = true ->
  expects (2 ^ 32) b c0 -> c mod 2 ^ 32 <> c0 mod 2 ^ 32 ->
  crorcStream pattern c pages ->
  fst (readoutPages pages b) = Returns tt /\
  mErrorCount (snd (readoutPages pages b)) = mErrorCount b + Z.of_nat (length pages) /\
  mDataGeneratorCounter (snd (readoutPages pages b))
    = mDataGeneratorCounter b + Z.of_nat (length pages).
Proof.
  revert c0 c b. induction pages as [|[[page pageSize] rc] rest IH];
    intros c0 c b Hcard Hn Hp Hs [Hc0 Hc] Hne Hpages.
  - cbn. repeat split; lia.
  - cbn [crorcStream] in Hpages. destruct Hpages as (Hpage & Hsize & Hrest).
    cbn [readoutPages]. unfold bind.
    rewrite (readoutPage_crorc_page pattern c) by auto.
    replace (uint32 c =? uint32 (mDataGeneratorCounter b)) with false
      by (symmetry; apply Z.eqb_neq; unfold uint32; congruence).
    set (b1 := recorded b _).
    destruct (recorded_options b
                (formatError rc 0 (uint32 (mDataGeneratorCounter b))
                   (uint32 (mDataGeneratorCounter b)) (uint32 c)))
      as (R1 & R2 & R3 & _ & _ & R6 & R7).
    fold b1 in R1, R2, R3, R6, R7.
    destruct (set_counter_options (mDataGeneratorCounter b + 1) b1)
      as (O1 & O2 & O3 & _ & _ & O6 & O7 & _).
    destruct (IH (c0 + 1) (c + 1)
                (set_mDataGeneratorCounter (mDataGeneratorCounter b + 1) b1))
      as (I1 & I2 & I3); auto; try congruence.
    + split; [rewrite O6; lia|]. rewrite O6.
      apply (uint32_succ (mDataGeneratorCounter b) c0). exact Hc.
    + intros E. apply Hne. apply (uint32_pred c c0). exact E.
    + rewrite I1, I2, I3, O6, O7, R7. cbn [length]. repeat split; lia.
Qed.

(** *** The CRU *)

Lemma checkErrorsCru_supported (page : Page) (pageSize eventNumber counter : Z)
    (b : Bench) :
  supported (generatorPattern b) = true ->
  checkErrorsCru page pageSize eventNumber counter b =
    cruWords (cruPattern (generatorPattern b) (uint32 counter)) page
      (to_size_t pageSize / 4) eventNumber (uint32 counter)
      (Z.to_nat (to_size_t pageSize / 4)) 0 b.
Proof.
  intros Hs. unfold checkErrorsCru, bind, gets.
  destruct (generatorPattern b); try discriminate; reflexivity.
Qed.

(** [readoutPage] on a CRU page once the counter is seeded. *)
Lemma readoutPage_cru (page : Page) (pageSize readoutCount : Z) (b : Bench) :
  mCardType b = Cru -> noErrorCheck b = false -> mDataGeneratorCounter b <> -1 ->
  readoutPage page pageSize readoutCount b =
    match checkErrorsCru page pageSize readoutCount (mDataGeneratorCounter b) b with
    | (Returns hasError, b1) =>
        if hasError && negb (noResyncCounter b1) then
          match mCardType b1 with
          | Crorc => (Returns tt, set_mDataGeneratorCounter (getEventNumber page + 1) b1)
          | Cru =>
              (Returns tt, set_mDataGeneratorCounter (getEventNumber page / 256 + 1) b1)
          | OtherCard => (Throws UnsupportedCardType, b1)
          end
        else (Returns tt, set_mDataGeneratorCounter (mDataGeneratorCounter b1 + 1) b1)
    | (Throws x, b1) => (Throws x, b1)
    | (Undefined, b1) => (Undefined, b1)
    end.
Proof.
  intros Hc Hn Hs. unfold readoutPage.
  unfold bind at 1. unfold gets at 1. rewrite Hn. cbn [negb].
  unfold bind at 1. unfold bind at 1. unfold gets at 1. unfold bind at 1.
  replace (mDataGeneratorCounter b =? -1) with false
    by (symmetry; apply Z.eqb_neq; exact Hs).
  unfold ret at 1. unfold bind at 1. unfold gets at 1.
  unfold bind at 1. unfold checkErrors at 1. unfold bind at 1. unfold gets at 1.
  rewrite Hc.
  destruct (checkErrorsCru page pageSize readoutCount (mDataGeneratorCounter b) b)
    as [[hasError|x|] b1]; try reflexivity.
  unfold bind at 1. unfold gets at 1.
  destruct (hasError && negb (noResyncCounter b1)).
  - unfold getDataGeneratorCounterFromPage, bind, gets, ret, throw, modify.
    destruct (mCardType b1); bench_simpl; reflexivity.
  - unfold ret, modify. reflexivity.
Qed.

(** The words the CRU checker expects depend on the counter modulo [2^24]
    only. *)
Lemma cruPattern_congr (p : GeneratorPattern) (counter c i : Z) :
  counter mod 2 ^ 24 = c mod 2 ^ 24 ->
  uint32 (cruPattern p (uint32 counter) i) = uint32 (cruPattern p c i).
Proof.
  intros H. destruct p; cbn [cruPattern]; try reflexivity.
  unfold uint32.
  rewrite <- (Z.add_mod_idemp_l (counter mod 2 ^ 32 * 256)) by lia.
  rewrite <- (Z.add_mod_idemp_l (c * 256)) by lia.
  f_equal. f_equal.
  rewrite Z.mul_mod_idemp_l by lia.
  change (2 ^ 32) with (2 ^ 24 * 256).
  rewrite !Z.mul_mod_distr_r by lia. rewrite H. reflexivity.
Qed.

Lemma cruPattern_differ (counter c : Z) :
  counter mod 2 ^ 24 <> c mod 2 ^ 24 ->
  uint32 (cruPattern Incremental (uint32 counter) 0)
    <> uint32 (cruPattern Incremental c 0).
Proof.
  intros H E. apply H. cbn [cruPattern] in E. unfold uint32 in E.
  change (0 / 8) with 0 in E. rewrite !Z.add_0_r in E.
  rewrite Z.mul_mod_idemp_l in E by lia.
  change (2 ^ 32) with (2 ^ 24 * 256) in E.
  rewrite !Z.mul_mod_distr_r in E by lia. lia.
Qed.

Lemma readoutPage_cru_clean (pattern : GeneratorPattern) (c : Z) (page : Page)
    (pageSize readoutCount : Z) (b : Bench) :
  mCardType b = Cru -> noErrorCheck b = false ->
  generatorPattern b = pattern -> supported pattern = true ->
  to_size_t pageSize / 4 + 8 <= 2 ^ 32 ->
  cruPage pattern c page pageSize ->
  expects (2 ^ 24) b c ->
  readoutPage page pageSize readoutCount b =
    (Returns tt, set_mDataGeneratorCounter (mDataGeneratorCounter b + 1) b).
Proof.
  intros Hcard Hn Hp Hs Hsize [_ Hwords] [Hc0 Hc].
  rewrite readoutPage_cru by (auto; lia).
  rewrite checkErrorsCru_supported by (rewrite Hp; exact Hs).
  rewrite Hp.
  rewrite cruWords_all_match; auto; try lia.
  intros m Hm Hlt. cbn [Z.add].
  rewrite (cruPattern_congr pattern _ c) by exact Hc.
  apply Hwords; [lia|]. rewrite Z.mul_comm. apply Z.mod_mul. lia.
Qed.

Lemma readoutPages_cru_clean (pattern : GeneratorPattern)
    (pages : list (Page * Z * Z)) (c : Z) (b : Bench) :
  mCardType b = Cru -> noErrorCheck b = false ->
  generatorPattern b = pattern -> supported pattern = true ->
  expects (2 ^ 24) b c ->
  cruStream pattern c pages ->
  readoutPages pages b =
    (Returns tt,
     set_mDataGeneratorCounter (mDataGeneratorCounter b + Z.of_nat (length pages)) b).
Proof.
  revert c b. induction pages as [|[[page pageSize] rc] rest IH];
    intros c b Hcard Hn Hp Hs Hexp Hpages.
  - cbn [readoutPages length]. unfold ret. rewrite Z.add_0_r, set_counter_same.
    reflexivity.
  - cbn [cruStream] in Hpages. destruct Hpages as (Hpage & Hsize & Hrest).
    cbn [readoutPages]. unfold bind.
    rewrite (readoutPage_cru_clean pattern c) by auto.
    destruct Hexp as [Hc0 Hc].
    destruct (set_counter_options (mDataGeneratorCounter b + 1) b)
      as (O1 & O2 & O3 & _ & _ & O6 & _).
    rewrite (IH (c + 1)); auto; try congruence.
    + rewrite O6, set_counter_twice. do 2 f_equal. cbn [length]. lia.
    + split; [rewrite O6; lia|]. rewrite O6.
      rewrite <- (Z.add_mod_idemp_l (mDataGeneratorCounter b)) by lia.
      rewrite <- (Z.add_mod_idemp_l c) by lia. rewrite Hc. reflexivity.
Qed.

(** Only the incremental pattern depends on the event. *)
Lemma cruStream_counter (pattern : GeneratorPattern) (pages : list (Page * Z * Z))
    (c c' : Z) :
  cruStream pattern c pages ->
  pattern = Incremental \/ cruStream pattern c' pages.
Proof.
  destruct pattern; [left; reflexivity| | |]; intros H; right; revert c c' H;
    (induction pages as [|[[pg sz] r] ps IH]; intros c c'; [auto|];
     cbn [cruStream]; intros (H1 & H2 & H3);
     split; [exact H1|]; split; [exact H2|]; apply (IH (c + 1)); exact H3).
Qed.

(** X9. A clean CRU run, from the start of the readout: when the pages are
    those of consecutive events, every 8th word following the pattern (for
    the incremental pattern: 256 times the event counter plus the index of
    the 8-word group), the whole run returns, counts no error and writes
    nothing; the counter is seeded with the 24 low bits of the first event. *)
Theorem cru_clean_run (pattern : GeneratorPattern) (pages : list (Page * Z * Z))
    (c : Z) (verbose noResync : bool) :
  supported pattern = true ->
  cruStream pattern c pages -> pages <> [] ->
  exists seed,
    (pattern = Incremental -> seed = c mod 2 ^ 24) /\
    readoutPages pages (fresh verbose Cru pattern false noResync) =
      (Returns tt,
       set_mDataGeneratorCounter (seed + Z.of_nat (length pages))
         (fresh verbose Cru pattern false noResync)).
Proof.
  intros Hs Hpages Hne. destruct pages as [|[[page pageSize] rc] rest]; [congruence|].
  pose proof Hpages as Hpages0.
  cbn [cruStream] in Hpages. destruct Hpages as ([Hw0 _] & _ & _).
  exists (getEventNumber page / 256).
  assert (0 <= getEventNumber page / 256) as Hseed
    by (apply Z.div_pos; [apply uint32_nonneg|lia]).
  assert (pattern = Incremental -> getEventNumber page / 256 = c mod 2 ^ 24) as Hinc.
  { intros ->. unfold getEventNumber. rewrite Hw0. cbn [cruPattern]. unfold uint32.
    change (0 / 8) with 0. rewrite Z.add_0_r.
    change (2 ^ 32) with (2 ^ 24 * 256).
    rewrite Z.mul_mod_distr_r by lia. apply Z.div_mul. lia. }
  split; [exact Hinc|].
  cbn [readoutPages]. unfold bind at 1.
  rewrite readoutPage_seed by (cbn; congruence).
  cbn [mCardType fresh].
  set (b0 := set_mDataGeneratorCounter (getEventNumber page / 256)
               (fresh verbose Cru pattern false noResync)).
  change (match readoutPage page pageSize rc b0 with
          | (Returns a, s') => readoutPages rest s'
          | (Throws e, s') => (Throws e, s')
          | (Undefined, s') => (Undefined, s')
          end) with (readoutPages ((page, pageSize, rc) :: rest) b0).
  assert (exists c', expects (2 ^ 24) b0 c' /\ cruStream pattern c' ((page, pageSize, rc) :: rest))
    as (c' & Hexp & Hstream).
  { destruct (cruStream_counter pattern ((page, pageSize, rc) :: rest) c
                (getEventNumber page / 256) Hpages0) as [->|Hany].
    - exists c. split; [|exact Hpages0]. split; [exact Hseed|].
      subst b0. cbn. rewrite (Hinc eq_refl). apply Z.mod_mod. lia.
    - exists (getEventNumber page / 256).
      split; [split; [exact Hseed|reflexivity]|exact Hany]. }
  rewrite (readoutPages_cru_clean pattern _ c' b0 eq_refl eq_refl eq_refl Hs Hexp
             Hstream).
  subst b0. reflexivity.
Qed.

(** X10. A lost page on the CRU with the incremental pattern: the first page
    of another event than the expected one counts one error, at word 0; with
    resynchronisation the counter is taken from that page and the rest of the
    run is clean, so that the run counts exactly one error. *)
Theorem cru_lost_page_resync
    (page : Page) (pageSize rc : Z) (rest : list (Page * Z * Z)) (c0 c : Z) (b : Bench) :
  mCardType b = Cru -> noErrorCheck b = false -> noResyncCounter b = false ->
  generatorPattern b = Incremental ->
  expects (2 ^ 24) b c0 -> c mod 2 ^ 24 <> c0 mod 2 ^ 24 ->
  4 <= to_size_t pageSize ->
  cruStream Incremental c ((page, pageSize, rc) :: rest) ->
  fst (readoutPages ((page, pageSize, rc) :: rest) b) = Returns tt /\
  mErrorCount (snd (readoutPages ((page, pageSize, rc) :: rest) b)) = mErrorCount b + 1 /\
  mDataGeneratorCounter (snd (readoutPages ((page, pageSize, rc) :: rest) b))
    = c mod 2 ^ 24 + 1 + Z.of_nat (length rest).
Proof.
  intros Hcard Hn Hr Hp [Hc0 Hc] Hne Hsz Hpages.
  cbn [cruStream] in Hpages. destruct Hpages as ([Hw0 Hwords] & Hsize & Hrest).
  assert (1 <= to_size_t pageSize / 4) as HP
    by (apply Z.div_le_lower_bound; lia).
  assert (getEventNumber page / 256 = c mod 2 ^ 24) as Hseed.
  { unfold getEventNumber. rewrite Hw0. cbn [cruPattern]. unfold uint32.
    change (0 / 8) with 0. rewrite Z.add_0_r.
    change (2 ^ 32) with (2 ^ 24 * 256).
    rewrite Z.mul_mod_distr_r by lia. apply Z.div_mul. lia. }
  assert (0 <= c mod 2 ^ 24) as Hpos by (apply Z.mod_pos_bound; lia).
  set (b1 := recorded b
               (formatError rc 0 (uint32 (mDataGeneratorCounter b))
                  (uint32 (cruPattern Incremental (uint32 (mDataGeneratorCounter b)) 0))
                  (load page 0))).
  destruct (recorded_options b
              (formatError rc 0 (uint32 (mDataGeneratorCounter b))
                 (uint32 (cruPattern Incremental (uint32 (mDataGeneratorCounter b)) 0))
                 (load page 0)))
    as (R1 & R2 & R3 & R4 & _ & R6 & R7).
  fold b1 in R1, R2, R3, R4, R6, R7.
  assert (readoutPage page pageSize rc b
          = (Returns tt, set_mDataGeneratorCounter (c mod 2 ^ 24 + 1) b1)) as Hpage.
  { rewrite readoutPage_cru by (auto; lia).
    rewrite checkErrorsCru_supported by (rewrite Hp; reflexivity).
    rewrite Hp.
    pose proof (cruWords_first_mismatch
                  (cruPattern Incremental (uint32 (mDataGeneratorCounter b))) page
                  (to_size_t pageSize / 4) rc (uint32 (mDataGeneratorCounter b)) Hsize
                  (Z.to_nat (to_size_t pageSize / 4)) 0 0 b) as Hm.
    change (0 + 8 * 0) with 0 in Hm.
    rewrite Hm; try lia.
    - fold b1. rewrite R4, Hr, R1, Hcard, Hseed. reflexivity.
    - rewrite Hw0. intros E. symmetry in E. revert E.
      apply cruPattern_differ. congruence. }
  cbn [readoutPages]. unfold bind. rewrite Hpage.
  destruct (set_counter_options (c mod 2 ^ 24 + 1) b1)
    as (O1 & O2 & O3 & _ & _ & O6 & O7 & _).
  assert (expects (2 ^ 24) (set_mDataGeneratorCounter (c mod 2 ^ 24 + 1) b1) (c + 1))
    as Hexp.
  { split; [rewrite O6; lia|]. rewrite O6.
    rewrite Z.add_mod_idemp_l by lia. reflexivity. }
  rewrite (readoutPages_cru_clean Incremental rest (c + 1)
             (set_mDataGeneratorCounter (c mod 2 ^ 24 + 1) b1)
             ltac:(congruence) ltac:(congruence) ltac:(congruence) eq_refl Hexp Hrest).
  cbn [fst snd]. rewrite set_counter_twice.
  destruct (set_counter_options (c mod 2 ^ 24 + 1 + Z.of_nat (length rest)) b1)
    as (_ & _ & _ & _ & _ & P6 & P7 & _).
  rewrite O6, P6, P7, R7. auto.
Qed.

(** *** Runs that are not checked, and runs that cannot be *)

Lemma readoutPage_unchecked (page : Page) (pageSize readoutCount : Z) (b : Bench) :
  noErrorCheck b = true ->
  readoutPage page pageSize readoutCount b =
    (Returns tt, set_mDataGeneratorCounter (mDataGeneratorCounter b + 1) b).
Proof.
  intros Hn. unfold readoutPage, bind, gets, ret, modify. rewrite Hn. reflexivity.
Qed.

Lemma readoutPage_unsupported (page : Page) (pageSize readoutCount : Z) (b : Bench) :
  noErrorCheck b = false ->
  mCardType b = OtherCard \/ generatorPattern b = Random ->
  exists b',
    readoutPage page pageSize readoutCount b =
      (Throws (match mCardType b with
               | Crorc => UnsupportedPatternCrorc Random
               | Cru => UnsupportedPatternCru Random
               | OtherCard => UnsupportedCardType
               end), b') /\
    mErrorCount b' = mErrorCount b /\ mErrorStream b' = mErrorStream b.
Proof.
  intros Hn Hu.
  destruct (Z.eq_dec (mDataGeneratorCounter b) (-1)) as [Hc|Hc].
  - destruct (mCardType b) eqn:Hcard.
    + destruct Hu as [Hu|Hp]; [discriminate|].
      rewrite readoutPage_seed by (auto; congruence). rewrite Hcard.
      pose proof (uint32_nonneg (page 0)) as H0.
      destruct (set_counter_options (getEventNumber page) b)
        as (O1 & O2 & O3 & _ & _ & O6 & O7 & O8).
      rewrite readoutPage_crorc
        by (try congruence; rewrite O6; unfold getEventNumber, load; lia).
      unfold checkErrorsCrorc, bind, gets, throw. rewrite O2, Hp.
      eexists. split; [reflexivity|]. auto.
    + destruct Hu as [Hu|Hp]; [discriminate|].
      rewrite readoutPage_seed by (auto; congruence). rewrite Hcard.
      assert (0 <= getEventNumber page / 256) as H0
        by (apply Z.div_pos; [apply uint32_nonneg|lia]).
      destruct (set_counter_options (getEventNumber page / 256) b)
        as (O1 & O2 & O3 & _ & _ & O6 & O7 & O8).
      rewrite readoutPage_cru by (try congruence; rewrite O6; lia).
      unfold checkErrorsCru, bind, gets, throw. rewrite O2, Hp.
      eexists. split; [reflexivity|]. auto.
    + exists b. split; [|auto].
      unfold readoutPage.
      unfold bind at 1. unfold gets at 1. rewrite Hn. cbn [negb].
      unfold bind at 1. unfold bind at 1. unfold gets at 1. unfold bind at 1.
      rewrite Hc. cbn [Z.eqb Pos.eqb].
      unfold bind at 1. unfold getDataGeneratorCounterFromPage at 1.
      unfold bind at 1. unfold gets at 1. rewrite Hcard. reflexivity.
  - destruct (mCardType b) eqn:Hcard.
    + destruct Hu as [Hu|Hp]; [discriminate|].
      rewrite readoutPage_crorc by auto.
      unfold checkErrorsCrorc, bind, gets, throw. rewrite Hp. eauto.
    + destruct Hu as [Hu|Hp]; [discriminate|].
      rewrite readoutPage_cru by auto.
      unfold checkErrorsCru, bind, gets, throw. rewrite Hp. eauto.
    + exists b. split; [|auto].
      unfold readoutPage.
      unfold bind at 1. unfold gets at 1. rewrite Hn. cbn [negb].
      unfold bind at 1. unfold bind at 1. unfold gets at 1. unfold bind at 1.
      replace (mDataGeneratorCounter b =? -1) with false
        by (symmetry; apply Z.eqb_neq; exact Hc).
      unfold ret at 1. unfold bind at 1. unfold gets at 1.
      unfold bind at 1. unfold checkErrors at 1. unfold bind at 1. unfold gets at 1.
      rewrite Hcard. reflexivity.
Qed.

(** X11. The error check on what it does not support. With the check on, a
    run on a card type other than the C-RORC and the CRU, or with the random
    pattern, stops at its first page with the exception of that case, having
    counted no error and written nothing; with the check off the same run
    returns for every card and pattern, and only counts the pages. *)
Theorem error_check_unsupported
    (page : Page) (pageSize rc : Z) (rest : list (Page * Z * Z)) (b : Bench) :
  mCardType b = OtherCard \/ generatorPattern b = Random ->
  (noErrorCheck b = false ->
   fst (readoutPages ((page, pageSize, rc) :: rest) b)
     = Throws (match mCardType b with
               | Crorc => UnsupportedPatternCrorc Random
               | Cru => UnsupportedPatternCru Random
               | OtherCard => UnsupportedCardType
               end) /\
   mErrorCount (snd (readoutPages ((page, pageSize, rc) :: rest) b)) = mErrorCount b /\
   mErrorStream (snd (readoutPages ((page, pageSize, rc) :: rest) b)) = mErrorStream b)
  /\
  (noErrorCheck b = true ->
   forall pages,
     readoutPages pages b =
       (Returns tt,
        set_mDataGeneratorCounter (mDataGeneratorCounter b + Z.of_nat (length pages)) b)).
Proof.
  intros Hu. split.
  - intros Hn.
    destruct (readoutPage_unsupported page pageSize rc b Hn Hu) as (b' & E & H1 & H2).
    cbn [readoutPages]. unfold bind. rewrite E. cbn [fst snd]. auto.
  - intros Hn pages. clear Hu. revert b Hn.
    induction pages as [|[[pg sz] r] ps IH]; intros b Hn.
    + cbn [readoutPages length]. unfold ret. rewrite Z.add_0_r, set_counter_same.
      reflexivity.
    + cbn [readoutPages]. unfold bind. rewrite readoutPage_unchecked by exact Hn.
      destruct (set_counter_options (mDataGeneratorCounter b + 1) b)
        as (_ & _ & O3 & _ & _ & O6 & _).
      rewrite IH by congruence.
      rewrite O6, set_counter_twice. do 2 f_equal. cbn [length]. lia.
Qed.

(** *** How many errors a page can count *)

Lemma Adds_le {A : Type} (card : CardType) (n n' : Z) (m : Op A) :
  Adds card n m -> n <= n' -> Adds card n' m.
Proof.
  intros H Hle b r b' Hc E. destruct (H b r b' Hc E) as [H1 H2]. split; [exact H1|lia].
Qed.

Lemma Adds_ret {A : Type} (card : CardType) (n : Z) (a : A) :
  0 <= n -> Adds card n (ret a).
Proof. intros Hn b r b' Hc E. inversion E; subst. split; [reflexivity|lia]. Qed.

Lemma Adds_throw {A : Type} (card : CardType) (n : Z) (x : Thrown) :
  0 <= n -> Adds card n (throw (A := A) x).
Proof. intros Hn b r b' Hc E. inversion E; subst. split; [reflexivity|lia]. Qed.

Lemma Adds_gets {A : Type} (card : CardType) (n : Z) (f : Bench -> A) :
  0 <= n -> Adds card n (gets f).
Proof. intros Hn b r b' Hc E. inversion E; subst. split; [reflexivity|lia]. Qed.

Lemma Adds_counter (card : CardType) (n : Z) (f : Bench -> Z) :
  0 <= n -> Adds card n (modify (fun b => set_mDataGeneratorCounter (f b) b)).
Proof.
  intros Hn b r b' Hc E. inversion E; subst. destruct b; cbn in *. split; [reflexivity|lia].
Qed.

Lemma Adds_bind {A B : Type} (card : CardType) (n k : Z) (m : Op A) (f : A -> Op B) :
  0 <= k -> Adds card n m -> (forall a, Adds card k (f a)) -> Adds card (n + k) (bind m f).
Proof.
  intros Hk Hm Hf b r b' Hc E. unfold bind in E.
  destruct (m b) as [[a|x|] b1] eqn:E1; destruct (Hm b _ b1 Hc E1) as [C1 L1].
  - destruct (Hf a b1 r b' C1 E) as [C2 L2]. split; [exact C2|lia].
  - inversion E; subst. split; [exact C1|lia].
  - inversion E; subst. split; [exact C1|lia].
Qed.

Lemma Adds_bind_quiet {A B : Type} (card : CardType) (k : Z) (m : Op A) (f : A -> Op B) :
  0 <= k -> Adds card 0 m -> (forall a, Adds card k (f a)) -> Adds card k (bind m f).
Proof. intros Hk Hm Hf. apply (Adds_bind card 0 k); assumption. Qed.

(** After [gets mCardType] the card is known. *)
Lemma Adds_cardType {B : Type} (card : CardType) (k : Z) (f : CardType -> Op B) :
  Adds card k (f card) -> Adds card k (bind (gets mCardType) f).
Proof.
  intros Hf b r b' Hc E. unfold bind, gets in E. rewrite Hc in E.
  exact (Hf b r b' Hc E).
Qed.

Lemma Adds_if {A : Type} (card : CardType) (n : Z) (c : bool) (m1 m2 : Op A) :
  Adds card n m1 -> Adds card n m2 -> Adds card n (if c then m1 else m2).
Proof. destruct c; auto. Qed.

Lemma Adds_addError (card : CardType) (eventNumber index counter expected actual : Z) :
  Adds card 1 (addError eventNumber index counter expected actual).
Proof.
  intros b r b' Hc E. rewrite addError_recorded in E. inversion E; subst.
  destruct (recorded_options b
              (formatError eventNumber (int32 index) (uint32 counter) (uint32 expected)
                 (uint32 actual))) as (R1 & _ & _ & _ & _ & _ & R7).
  split; [congruence|lia].
Qed.

Lemma Adds_cruWords (card : CardType) (pf : Z -> Z) (page : Page)
    (pageSize32 eventNumber counter : Z) (passes : nat) (i : Z) :
  Adds card 1 (cruWords pf page pageSize32 eventNumber counter passes i).
Proof.
  revert i. induction passes as [|passes IH]; intros i; cbn [cruWords].
  - apply Adds_ret. lia.
  - destruct (i <? pageSize32); [|apply Adds_ret; lia].
    destruct (negb (load page i =? uint32 (pf i))); [|apply IH].
    intros b r b' Hc E. unfold bind, modify, gets, ret in E.
    destruct b; cbn [set_mErrorCount set_mErrorStream mVerbose mErrorCount
                     mErrorStream mCardType] in *.
    match type of E with context [if ?c then _ else _] => destruct c end;
      inversion E; subst; cbn; split; auto; lia.
Qed.

Lemma Adds_crorcWords (card : CardType) (pf : Z -> Z) (page : Page)
    (pageSize32 eventNumber counter : Z) (passes : nat) (i : Z) :
  Adds card 1 (crorcWords pf page pageSize32 eventNumber counter passes i).
Proof.
  revert i. induction passes as [|passes IH]; intros i; cbn [crorcWords].
  - apply Adds_ret. lia.
  - destruct (i <? pageSize32); [|apply Adds_ret; lia].
    destruct (negb (load page i =? uint32 (pf i))); [|apply IH].
    apply (Adds_bind card 1 0); [lia|apply Adds_addError|].
    intros _. apply Adds_ret. lia.
Qed.

Lemma Adds_checkErrorsCru (card : CardType) (page : Page)
    (pageSize eventNumber counter : Z) :
  Adds card 1 (checkErrorsCru page pageSize eventNumber counter).
Proof.
  unfold checkErrorsCru. apply Adds_bind_quiet; [lia|apply Adds_gets; lia|].
  intros p. destruct p; try apply Adds_cruWords. apply Adds_throw. lia.
Qed.

Lemma Adds_checkErrorsCrorc (card : CardType) (page : Page)
    (pageSize eventNumber counter : Z) :
  Adds card 2 (checkErrorsCrorc page pageSize eventNumber counter).
Proof.
  unfold checkErrorsCrorc. apply Adds_bind_quiet; [lia|apply Adds_gets; lia|].
  intros p. destruct p; try (apply Adds_throw; lia);
    (apply (Adds_bind card 1 1); [lia| |intros _; apply Adds_crorcWords];
     apply Adds_if; [apply Adds_addError|apply Adds_ret; lia]).
Qed.

Lemma Adds_checkErrors (card : CardType) (page : Page)
    (pageSize eventNumber counter : Z) :
  Adds card (perPage card) (checkErrors page pageSize eventNumber counter).
Proof.
  unfold checkErrors. apply Adds_cardType. destruct card; cbn [perPage].
  - apply Adds_checkErrorsCrorc.
  - apply Adds_checkErrorsCru.
  - apply Adds_throw. lia.
Qed.

Lemma Adds_fromPage (card : CardType) (page : Page) :
  Adds card 0 (getDataGeneratorCounterFromPage page).
Proof.
  unfold getDataGeneratorCounterFromPage. apply Adds_cardType.
  destruct card; [apply Adds_ret|apply Adds_ret|apply Adds_throw]; lia.
Qed.

Lemma Adds_seed (card : CardType) (page : Page) :
  Adds card 0 (c <- getDataGeneratorCounterFromPage page ;;
               modify (set_mDataGeneratorCounter c)).
Proof.
  apply Adds_bind_quiet; [lia|apply Adds_fromPage|].
  intros c. apply (Adds_counter card 0 (fun _ => c)). lia.
Qed.

Lemma perPage_nonneg (card : CardType) : 0 <= perPage card.
Proof. destruct card; cbn; lia. Qed.

Lemma Adds_readoutPage (card : CardType) (page : Page) (pageSize readoutCount : Z) :
  Adds card (perPage card) (readoutPage page pageSize readoutCount).
Proof.
  pose proof (perPage_nonneg card) as Hp.
  unfold readoutPage.
  apply Adds_bind_quiet; [lia|apply Adds_gets; lia|]. intros noCheck.
  replace (perPage card) with (perPage card + 0) by lia.
  apply Adds_bind; [lia| |intros _; apply Adds_counter; lia].
  apply Adds_if; [|apply Adds_ret; lia].
  apply Adds_bind_quiet; [lia|apply Adds_gets; lia|]. intros counter.
  apply Adds_bind_quiet; [lia| |].
  { apply Adds_if; [apply Adds_seed|apply Adds_ret; lia]. }
  intros _. apply Adds_bind_quiet; [lia|apply Adds_gets; lia|]. intros counter'.
  replace (perPage card) with (perPage card + 0) by lia.
  apply Adds_bind; [lia|apply Adds_checkErrors|]. intros hasError.
  apply Adds_bind_quiet; [lia|apply Adds_gets; lia|]. intros noResync.
  apply Adds_if; [apply Adds_seed|apply Adds_ret; lia].
Qed.

(** X12. The error count is not the number of bad pages. Over any run, and
    however it ends, the count never goes down, and it goes up by at most two
    for each page on the C-RORC, where one page can report its event counter
    and its first bad word, by at most one for each page on the CRU, and not
    at all for another card type. *)
Theorem error_count_per_page (pages : list (Page * Z * Z)) (b : Bench) :
  mErrorCount b <= mErrorCount (snd (readoutPages pages b))
    <= mErrorCount b + perPage (mCardType b) * Z.of_nat (length pages).
Proof.
  assert (forall card, Adds card (perPage card * Z.of_nat (length pages))
                         (readoutPages pages)) as H.
  { intros card. pose proof (perPage_nonneg card) as Hp.
    induction pages as [|[[pg sz] r] ps IH]; cbn [readoutPages length].
    - apply Adds_ret. lia.
    - replace (perPage card * Z.of_nat (S (length ps)))
        with (perPage card + perPage card * Z.of_nat (length ps)) by lia.
      apply Adds_bind; [lia|apply Adds_readoutPage|intros _; exact IH]. }
  exact (proj2 (H (mCardType b) b _ _ eq_refl (surjective_pairing _))).
Qed.

(** *** Pages the card did not write *)

Lemma resetWords_spec (pageSize32 : Z) (passes : nat) (i : Z) (page : Page) (j : Z) :
  0 <= i -> pageSize32 < 2 ^ 64 -> pageSize32 - i <= Z.of_nat passes ->
  resetWords page pageSize32 passes i j
    = if (i <=? j) && (j <? pageSize32) then BUFFER_DEFAULT_VALUE else page j.
Proof.
  revert i page. induction passes as [|passes IH]; intros i page Hi HP Hpasses;
    cbn [resetWords].
  - replace ((i <=? j) && (j <? pageSize32)) with false; [reflexivity|].
    symmetry. apply andb_false_iff.
    destruct (Z.leb_spec i j); [right; apply Z.ltb_ge; lia|left; reflexivity].
  - destruct (Z.ltb_spec i pageSize32) as [Hlt|Hge].
    + unfold to_size_t. rewrite Z.mod_small by lia.
      rewrite IH by lia. unfold store.
      destruct (Z.eqb_spec j i) as [->|Hne].
      * replace (i + 1 <=? i) with false by (symmetry; apply Z.leb_gt; lia).
        replace (i <=? i) with true by (symmetry; apply Z.leb_le; lia).
        replace (i <? pageSize32) with true by (symmetry; apply Z.ltb_lt; lia).
        reflexivity.
      * destruct (Z.leb_spec (i + 1) j), (Z.leb_spec i j); try lia; reflexivity.
    + replace ((i <=? j) && (j <? pageSize32)) with false; [reflexivity|].
      symmetry. apply andb_false_iff.
      destruct (Z.leb_spec i j); [right; apply Z.ltb_ge; lia|left; reflexivity].
Qed.

Lemma pageSize32_small (pageSize : Z) : to_size_t pageSize / 4 < 2 ^ 64.
Proof.
  unfold to_size_t.
  pose proof (Z.mod_pos_bound pageSize (2 ^ 64) ltac:(lia)) as H.
  apply Z.div_lt_upper_bound; lia.
Qed.

Lemma resetPage_load (page : Page) (pageSize i : Z) :
  load (resetPage page pageSize) i
    = if (0 <=? i) && (i <? to_size_t pageSize / 4) then BUFFER_DEFAULT_VALUE
      else load page i.
Proof.
  unfold load, resetPage. cbn zeta.
  pose proof (pageSize32_nonneg pageSize) as H0.
  rewrite resetWords_spec; [|lia|apply pageSize32_small|lia].
  destruct ((0 <=? i) && (i <? to_size_t pageSize / 4)); reflexivity.
Qed.

Lemma checkErrors_card (page : Page) (pageSize eventNumber counter : Z) (b : Bench) :
  checkErrors page pageSize eventNumber counter b =
    match mCardType b with
    | Crorc => checkErrorsCrorc page pageSize eventNumber counter b
    | Cru => checkErrorsCru page pageSize eventNumber counter b
    | OtherCard => (Throws UnsupportedCardType, b)
    end.
Proof.
  unfold checkErrors, bind, gets, throw. destruct (mCardType b); reflexivity.
Qed.

(** X13. [resetPage] writes the default value over the words of the page
    and nothing else, and a page left at the default value never passes the
    check: for every supported pattern and every counter the checker of the
    CRU reports an error on a page of at least one word, and the checker of
    the C-RORC on a page of at least nine words. *)
Theorem reset_page_fails_check
    (page : Page) (pageSize eventNumber counter : Z) (b : Bench) :
  supported (generatorPattern b) = true ->
  to_size_t pageSize / 4 + 8 <= 2 ^ 32 ->
  (forall i, load (resetPage page pageSize) i
             = if (0 <=? i) && (i <? to_size_t pageSize / 4) then 0xCCCCCCCC
               else load page i) /\
  (mCardType b = Cru -> 1 <= to_size_t pageSize / 4 ->
   fst (checkErrors (resetPage page pageSize) pageSize eventNumber counter b)
     = Returns true /\
   mErrorCount (snd (checkErrors (resetPage page pageSize) pageSize eventNumber counter b))
     = mErrorCount b + 1) /\
  (mCardType b = Crorc -> 9 <= to_size_t pageSize / 4 ->
   fst (checkErrors (resetPage page pageSize) pageSize eventNumber counter b)
     = Returns true /\
   mErrorCount b + 1
     <= mErrorCount (snd (checkErrors (resetPage page pageSize) pageSize eventNumber
                            counter b))).
Proof.
  intros Hs Hsize. split; [intros i; apply resetPage_load|]. split.
  - intros Hcard HP. rewrite checkErrors_card, Hcard.
    rewrite checkErrorsCru_supported by exact Hs.
    pose proof (cruWords_first_mismatch
                  (cruPattern (generatorPattern b) (uint32 counter))
                  (resetPage page pageSize) (to_size_t pageSize / 4) eventNumber
                  (uint32 counter) Hsize
                  (Z.to_nat (to_size_t pageSize / 4)) 0 0 b) as Hm.
    change (0 + 8 * 0) with 0 in Hm.
    rewrite Hm; try lia.
    + cbn [fst snd]. split; [reflexivity|]. apply recorded_options.
    + rewrite resetPage_load.
      replace ((0 <=? 0) && (0 <? to_size_t pageSize / 4)) with true
        by (symmetry; apply andb_true_iff; split; [reflexivity|apply Z.ltb_lt; lia]).
      clear Hm.
      destruct (generatorPattern b); try discriminate; cbn [cruPattern].
      intros E. apply (f_equal (fun x => x mod 256)) in E. cbv beta in E.
      unfold uint32 in E. change (0 / 8) with 0 in E. rewrite Z.add_0_r in E.
      rewrite (Z.mod_mod_divide (counter mod 2 ^ 32 * 256) (2 ^ 32) 256) in E
        by (exists (2 ^ 24); reflexivity).
      rewrite Z.mod_mul in E by lia. vm_compute in E. discriminate.
  - intros Hcard HP. rewrite checkErrors_card, Hcard.
    rewrite checkErrorsCrorc_supported by exact Hs.
    set (b0 := if load (resetPage page pageSize) 0 =? uint32 counter then b else _).
    assert (mErrorCount b <= mErrorCount b0) as Hb0.
    { subst b0. destruct (load (resetPage page pageSize) 0 =? uint32 counter); [lia|].
      match goal with |- _ <= mErrorCount (recorded b ?t) =>
        destruct (recorded_options b t) as (_ & _ & _ & _ & _ & _ & ->) end. lia. }
    rewrite (crorcWords_first_mismatch
               (crorcPattern (generatorPattern b)) (resetPage page pageSize)
               (to_size_t pageSize / 4) eventNumber (uint32 counter) Hsize
               (Z.to_nat (to_size_t pageSize / 4)) 8 8 b0); try lia.
    + cbn [fst snd]. split; [reflexivity|].
      match goal with |- _ <= mErrorCount (recorded b0 ?t) =>
        destruct (recorded_options b0 t) as (_ & _ & _ & _ & _ & _ & ->) end. lia.
    + rewrite resetPage_load.
      replace ((0 <=? 8) && (8 <? to_size_t pageSize / 4)) with true
        by (symmetry; apply andb_true_iff; split; [reflexivity|apply Z.ltb_lt; lia]).
      destruct (generatorPattern b); try discriminate; vm_compute; discriminate.
Qed.

Import BenchExamples.

(** Pages of 16 words on the examples: a C-RORC page for any event, a CRU
    page for any event. *)
Lemma crorcPage_example (c : Z) :
  crorcPage Incremental c (fun i => if i =? 0 then c else i - 1) 64.
Proof.
  split; [reflexivity|]. intros i Hi. unfold load.
  replace (i =? 0) with false by (symmetry; apply Z.eqb_neq; lia). reflexivity.
Qed.

Lemma cruPage_example (c : Z) :
  cruPage Incremental c (fun i => if i mod 8 =? 0 then c * 256 + i / 8 else 0) 64.
Proof.
  split; [reflexivity|]. intros i Hi Hm. unfold load. rewrite Hm. reflexivity.
Qed.

Lemma size_example : to_size_t 64 / 4 + 8 <= 2 ^ 32.
Proof. change (to_size_t 64 / 4) with 16. lia. Qed.

Lemma crorc_clean_run_witness :
  let pages := [(goodCrorcPage, 64, 0); ((fun i => if i =? 0 then 6 else i - 1), 64, 1)] in
  supported Incremental = true /\
  crorcStream Incremental 5 pages /\
  readoutPages pages (fresh true Crorc Incremental false false)
    = (Returns tt,
       set_mDataGeneratorCounter 7 (fresh true Crorc Incremental false false)).
Proof.
  intros pages.
  assert (crorcStream Incremental 5 pages) as Hpages.
  { repeat split; try exact size_example; try exact (proj2 (crorcPage_example _)). }
  split; [reflexivity|]. split; [exact Hpages|].
  exact (crorc_clean_run Incremental pages 5 true false eq_refl Hpages
           ltac:(discriminate)).
Defined.

Lemma crorc_lost_page_cascade_witness :
  let pages := [((fun i => if i =? 0 then 6 else i - 1), 64, 0);
                ((fun i => if i =? 0 then 7 else i - 1), 64, 1)] in
  expects (2 ^ 32) (midRun false Crorc) 5 /\
  crorcStream Incremental 6 pages /\
  mErrorCount (snd (readoutPages pages (midRun false Crorc))) = 2.
Proof.
  intros pages.
  assert (expects (2 ^ 32) (midRun false Crorc) 5) as Hexp
    by (split; [cbn; lia|reflexivity]).
  assert (crorcStream Incremental 6 pages) as Hpages.
  { repeat split; try exact size_example; try exact (proj2 (crorcPage_example _)). }
  split; [exact Hexp|]. split; [exact Hpages|].
  exact (proj1 (proj2
           (crorc_lost_page_cascade Incremental pages 5 6 (midRun false Crorc)
              eq_refl eq_refl eq_refl eq_refl Hexp ltac:(discriminate) Hpages))).
Defined.

Lemma cru_clean_run_witness :
  supported Incremental = true /\
  cruStream Incremental 5 [(goodCruPage, 64, 0)] /\
  exists seed,
    readoutPages [(goodCruPage, 64, 0)] (fresh true Cru Incremental false false)
      = (Returns tt,
         set_mDataGeneratorCounter (seed + 1) (fresh true Cru Incremental false false)).
Proof.
  assert (cruStream Incremental 5 [(goodCruPage, 64, 0)]) as Hpages.
  { repeat split; try exact size_example; try exact (proj2 (cruPage_example 5)). }
  split; [reflexivity|]. split; [exact Hpages|].
  destruct (cru_clean_run Incremental [(goodCruPage, 64, 0)] 5 true false eq_refl Hpages
              ltac:(discriminate)) as (seed & _ & Hrun).
  exists seed. exact Hrun.
Defined.

Lemma cru_lost_page_resync_witness :
  let page := fun i => if i mod 8 =? 0 then 7 * 256 + i / 8 else 0 in
  expects (2 ^ 24) (midRun false Cru) 5 /\
  cruStream Incremental 7 [(page, 64, 0)] /\
  mErrorCount (snd (readoutPages [(page, 64, 0)] (midRun false Cru))) = 1 /\
  mDataGeneratorCounter (snd (readoutPages [(page, 64, 0)] (midRun false Cru))) = 8.
Proof.
  intros page.
  assert (expects (2 ^ 24) (midRun false Cru) 5) as Hexp
    by (split; [cbn; lia|reflexivity]).
  assert (cruStream Incremental 7 [(page, 64, 0)]) as Hpages.
  { repeat split; try exact size_example; try exact (proj2 (cruPage_example 7)). }
  split; [exact Hexp|]. split; [exact Hpages|].
  exact (proj2
           (cru_lost_page_resync page 64 0 [] 5 7 (midRun false Cru)
              eq_refl eq_refl eq_refl eq_refl Hexp ltac:(discriminate)
              ltac:(discriminate) Hpages)).
Defined.

Lemma error_check_unsupported_witness :
  generatorPattern (fresh true Crorc Random false false) = Random /\
  fst (readoutPages [(goodCrorcPage, 64, 0)] (fresh true Crorc Random false false))
    = Throws (UnsupportedPatternCrorc Random).
Proof.
  split; [reflexivity|].
  exact (proj1 (proj1
           (error_check_unsupported goodCrorcPage 64 0 []
              (fresh true Crorc Random false false) (or_intror eq_refl)) eq_refl)).
Defined.

Lemma reset_page_fails_check_witness :
  supported (generatorPattern (midRun true Cru)) = true /\
  to_size_t 64 / 4 + 8 <= 2 ^ 32 /\
  fst (checkErrors (resetPage goodCruPage 64) 64 0 5 (midRun true Cru)) = Returns true.
Proof.
  split; [reflexivity|]. split; [exact size_example|].
  refine (proj1 (proj1 (proj2
            (reset_page_fails_check goodCruPage 64 0 5 (midRun true Cru) eq_refl
               size_example)) eq_refl _)).
  change (to_size_t 64 / 4) with 16. lia.
Defined.

End BenchRunsFacts.

(** * The buffer of the DMA benchmark *)

Module BenchSetupFacts.
Import BenchSetup.

Section Facts.
Context (isMultiple : Z -> Z -> bool) (iommuEnabled : bool)
        (mapFails : HugePageType -> bool).

(** What a [run] that returns has checked. *)
Lemma run_returns (ascii bin : bool) (B S P : Z) (l : Layout) :
  run isMultiple iommuEnabled mapFails ascii bin B S P = Returns l ->
  isMultiple B SIZE_2MiB = true /\
  (iommuEnabled = false ->
   isMultiple (if isMultiple B SIZE_1GiB then SIZE_1GiB else SIZE_2MiB) S = true) /\
  S <= B /\ isMultiple S P = true /\ S <> 0 /\ P <> 0 /\
  mMaxSuperpages l = B / S /\ mPagesPerSuperpage l = S / P /\
  (hugePageType l = SIZE_1GB ->
   isMultiple B SIZE_1GiB = true /\ mapFails SIZE_1GB = false) /\
  (hugePageType l = SIZE_2MB ->
   mapFails SIZE_2MB = false /\
   (isMultiple B SIZE_1GiB = true -> mapFails SIZE_1GB = true)).
Proof.
  unfold run, createBufferBlock, createBuffer, divide. intros H.
  destruct (ascii && bin); [discriminate|].
  destruct (isMultiple B SIZE_2MiB); cbn [negb] in H; [|discriminate].
  destruct (negb iommuEnabled &&
            negb (isMultiple (if isMultiple B SIZE_1GiB then SIZE_1GiB else SIZE_2MiB) S))
    eqn:Hio; [discriminate|].
  destruct (Z.ltb_spec B S) as [Hlt|Hge]; [discriminate|].
  assert (iommuEnabled = false ->
          isMultiple (if isMultiple B SIZE_1GiB then SIZE_1GiB else SIZE_2MiB) S = true)
    as Hhuge.
  { intros ->. cbn [negb andb] in Hio. apply negb_false_iff in Hio. exact Hio. }
  clear Hio.
  destruct (isMultiple B SIZE_1GiB) eqn:Hg;
    destruct (mapFails SIZE_1GB) eqn:F1; destruct (mapFails SIZE_2MB) eqn:F2;
    try discriminate;
    destruct (isMultiple S P); cbn [negb] in H; try discriminate;
    destruct (Z.eqb_spec S 0); try discriminate;
    destruct (Z.eqb_spec P 0); try discriminate;
    inversion H; subst; cbn; repeat split; auto; try discriminate.
Qed.


Lemma multiples_within (H S i : Z) :
  0 < S -> 0 < H -> H mod S = 0 -> 0 <= i -> withinHugePage H (i * S) S.
Proof.
  intros HS HH Hmod Hi. unfold withinHugePage.
  assert (H = S * (H / S)) as Hk by (apply Z.div_exact; lia).
  set (k := H / S) in *.
  assert (0 < k) as Hkpos by nia.
  pose proof (Z.div_mod i k ltac:(lia)) as Hqr.
  pose proof (Z.mod_pos_bound i k Hkpos) as Hr.
  set (q := i / k) in *. set (r := i mod k) in *.
  assert (i * S = H * q + r * S) as E by nia.
  rewrite <- (Z.div_unique (i * S) H q (r * S)); [|left; nia|exact E].
  rewrite <- (Z.div_unique (i * S + S - 1) H q (r * S + S - 1)); [reflexivity|left; nia|lia].
Qed.

(** X15. Without an IOMMU no superpage crosses a hugepage boundary, as long
    as the buffer is on the hugepages its size selects (1 GiB for a multiple
    of 1 GiB, 2 MiB otherwise): when [run] returns, every superpage lies
    within one hugepage of the buffer. *)
Theorem superpages_within_hugepages (ascii bin : bool) (B S P : Z) (l : Layout) :
  isMultipleSpec isMultiple ->
  0 <= S -> iommuEnabled = false ->
  run isMultiple iommuEnabled mapFails ascii bin B S P = Returns l ->
  hugePageType l = (if isMultiple B SIZE_1GiB then SIZE_1GB else SIZE_2MB) ->
  forall i, 0 <= i -> withinHugePage (hugePageBytes (hugePageType l)) (i * S) S.
Proof.
  intros [Hsound _] HS Hio Hrun Htype i Hi.
  destruct (run_returns ascii bin B S P l Hrun)
    as (_ & Hhuge & _ & _ & HS0 & _).
  specialize (Hhuge Hio). rewrite Htype.
  assert (0 < S) as HS' by lia.
  destruct (isMultiple B SIZE_1GiB); cbn [hugePageBytes];
    (apply multiples_within; [exact HS'|reflexivity| |exact Hi]);
    apply Hsound; assumption.
Qed.

(** X16. The fallback to 2 MiB hugepages is not checked. Without an IOMMU,
    for a buffer of a multiple of 1 GiB and a superpage size that divides
    1 GiB and is larger than 2 MiB: when the buffer file cannot be created on
    1 GiB hugepages and is created on 2 MiB hugepages instead, [run] returns
    all the same, and the superpage at offset 0, the first that [dmaLoop]
    hands out, crosses a hugepage boundary. *)
Theorem fallback_crosses_hugepages (B S P : Z) :
  isMultipleSpec isMultiple ->
  iommuEnabled = false ->
  mapFails SIZE_1GB = true -> mapFails SIZE_2MB = false ->
  0 < B -> B mod SIZE_1GiB = 0 ->
  SIZE_2MiB < S <= SIZE_1GiB -> SIZE_1GiB mod S = 0 ->
  0 < P <= S -> S mod P = 0 ->
  exists l,
    run isMultiple iommuEnabled mapFails false false B S P = Returns l /\
    hugePageType l = SIZE_2MB /\
    (exists rest, freeQueueOffsets (mMaxSuperpages l) S = Returns (0 :: rest)) /\
    ~ withinHugePage (hugePageBytes (hugePageType l)) 0 S.
Proof.
  intros [_ Hcomplete] Hio F1 F2 HB HBg HS HSg HP HPs.
  assert (SIZE_1GiB <= B) as HBle.
  { pose proof (Z.div_exact B SIZE_1GiB ltac:(discriminate)) as [_ Hex].
    specialize (Hex HBg). change SIZE_1GiB with 1073741824 in *.
    assert (0 < B / 1073741824) by nia. nia. }
  assert (isMultiple B SIZE_1GiB = true) as M1
    by (apply Hcomplete; [change SIZE_1GiB with 1073741824 in *; lia|exact HBg]).
  assert (isMultiple B SIZE_2MiB = true) as M2.
  { apply Hcomplete; [change SIZE_2MiB with 2097152;
                      change SIZE_1GiB with 1073741824 in *; lia|].
    rewrite <- (Z.mod_mod_divide B SIZE_1GiB SIZE_2MiB) by (exists 512; reflexivity).
    rewrite HBg. reflexivity. }
  assert (isMultiple SIZE_1GiB S = true) as M3
    by (apply Hcomplete; [change SIZE_2MiB with 2097152 in *; lia|exact HSg]).
  assert (isMultiple S P = true) as M4 by (apply Hcomplete; [lia|exact HPs]).
  assert (1 <= B / S) as Hmax by (apply Z.div_le_lower_bound; lia).
  exists {| hugePageType := SIZE_2MB; mMaxSuperpages := B / S;
            mPagesPerSuperpage := S / P |}.
  split.
  - unfold run, createBufferBlock, createBuffer, divide.
    rewrite M2, M1, Hio, M3, F1, F2, M4. cbn [andb negb].
    replace (B <? S) with false by (symmetry; apply Z.ltb_ge; lia).
    replace (S =? 0) with false
      by (symmetry; apply Z.eqb_neq; change SIZE_2MiB with 2097152 in *; lia).
    replace (P =? 0) with false by (symmetry; apply Z.eqb_neq; lia).
    reflexivity.
  - split; [reflexivity|]. cbn [hugePageType mMaxSuperpages hugePageBytes]. split.
    + unfold freeQueueOffsets.
      replace (B / S <? 1) with false by (symmetry; apply Z.ltb_ge; lia).
      destruct (Z.to_nat (B / S)) as [|n] eqn:En; [lia|].
      cbn [seq map]. eexists. reflexivity.
    + unfold withinHugePage. change SIZE_2MiB with 2097152 in *.
      rewrite Z.div_0_l by lia. intros E. symmetry in E.
      apply Z.div_small_iff in E; lia.
Qed.

End Facts.

(** An [isMultiple] that tests divisibility. *)
Lemma isMultipleSpec_example :
  isMultipleSpec (fun x y => (y <=? x) && (x mod y =? 0)).
Proof.
  split; intros x y Hy H.
  - apply andb_prop in H as [_ H]. apply Z.eqb_eq in H. exact H.
  - apply andb_true_intro. split; [apply Z.leb_le; lia|apply Z.eqb_eq; exact H].
Qed.


Lemma superpages_within_hugepages_witness :
  let isMultiple := fun x y => (y <=? x) && (x mod y =? 0) in
  let l := {| hugePageType := SIZE_2MB; mMaxSuperpages := 10; mPagesPerSuperpage := 128 |} in
  run isMultiple false (fun _ => false) false false 10485760 1048576 8192 = Returns l /\
  withinHugePage (hugePageBytes (hugePageType l)) (9 * 1048576) 1048576.
Proof.
  intros isMultiple l.
  assert (run isMultiple false (fun _ => false) false false 10485760 1048576 8192
          = Returns l) as Hrun by (vm_compute; reflexivity).
  split; [exact Hrun|].
  refine (superpages_within_hugepages isMultiple false (fun _ => false) false false
            10485760 1048576 8192 l isMultipleSpec_example _ eq_refl Hrun _ 9 _);
    [lia|vm_compute; reflexivity|lia].
Defined.

Lemma fallback_crosses_hugepages_witness :
  let isMultiple := fun x y => (y <=? x) && (x mod y =? 0) in
  let mapFails := fun t => match t with SIZE_1GB => true | SIZE_2MB => false end in
  exists l,
    run isMultiple false mapFails false false 1073741824 4194304 8192 = Returns l /\
    hugePageType l = SIZE_2MB /\
    ~ withinHugePage (hugePageBytes (hugePageType l)) 0 4194304.
Proof.
  intros isMultiple mapFails.
  destruct (fallback_crosses_hugepages isMultiple false mapFails
              1073741824 4194304 8192 isMultipleSpec_example eq_refl eq_refl eq_refl)
    as (l & Hrun & Ht & _ & Hcross);
    try (vm_compute; reflexivity); try (change SIZE_2MiB with 2097152;
                                        change SIZE_1GiB with 1073741824; lia).
  exists l. auto.
Defined.

End BenchSetupFacts.

(** * The life of a C-RORC channel *)

Module LifecycleFacts.
Import CrorcDmaChannel ChannelLifecycle.

Section Facts.
Context (decl : Declarations) (DMA_PAGE_SIZE FIFO_SIZE : Z).

Abbreviation N := (MAX_SUPERPAGE_DESCRIPTORS decl).

(** The calls of a reset at the level of the constructor. *)
Lemma deviceResetChannel_internal (faults : CardCall -> bool) (diuStatus timeout : Z)
    (l : list CardCall) :
  deviceResetChannel faults diuStatus timeout LevelInternal = (Returns tt, l) ->
  l = [Transfer InitDiuVersion;
       Transfer (ResetCommand [RORC; FF; FIFOS; ERROR; COUNTERS])].
Proof.
  unfold deviceResetChannel, andThen, call, raise.
  destruct (faults (Transfer InitDiuVersion)); [discriminate|].
  destruct (faults (Transfer (ResetCommand [RORC; FF; FIFOS; ERROR; COUNTERS])));
    [discriminate|].
  cbn. congruence.
Qed.

(** X17. What the constructor leaves. A channel the constructor returns has
    the one supported page size, a data source other than the data
    generator, the generator enabled exactly for a source other than the
    front-end and then exactly one of the two triggers selected, and a
    ready-FIFO of [MAX_SUPERPAGE_DESCRIPTORS] reset descriptors; the card was
    reset at the internal level only. So a first [startDma] that returns
    leads to a reachable channel with these flags. The page size and the data
    source are refused before any call on the card. *)
Theorem constructor_establishes
    (faults : CardCall -> bool) (diuStatus timeout : Z)
    (blank : Channel) (parameters : Parameters) (entrySize : Z) :
  let built :=
    construct decl DMA_PAGE_SIZE FIFO_SIZE faults diuStatus timeout blank parameters
      entrySize in
  let pageSize := get_value_or (getDmaPageSize parameters) DMA_PAGE_SIZE in
  let source := get_value_or (getDataSource parameters) Internal in
  (pageSize <> DMA_PAGE_SIZE -> built = (Throws (PageSizeNotSupported pageSize), [])) /\
  (pageSize = DMA_PAGE_SIZE -> source = Ddg ->
   built = (Throws (DataSourceNotSupported Ddg), [])) /\
  (forall c l,
     built = (Returns c, l) ->
     mPageSize c = DMA_PAGE_SIZE /\
     mDataSource c = source /\ source <> Ddg /\
     FIFO_SIZE <= entrySize /\
     flagsFromConstructor c /\
     entries c = replicate (Z.to_nat N) ReadyFifo.reset /\
     l = [Transfer InitDiuVersion;
          Transfer (ResetCommand [RORC; FF; FIFOS; ERROR; COUNTERS])] /\
     forall f s',
       CrorcDmaChannel.deviceStartDma decl f c = (Returns tt, s') ->
       Reachable decl s' /\ flagsFromConstructor s' /\
       mPendingDmaStart s' = true).
Proof.
  cbn zeta. unfold construct. split; [|split].
  - intros Hne.
    replace (get_value_or (getDmaPageSize parameters) DMA_PAGE_SIZE =? DMA_PAGE_SIZE)
      with false by (symmetry; apply Z.eqb_neq; exact Hne).
    reflexivity.
  - intros -> ->. rewrite Z.eqb_refl. reflexivity.
  - intros c l.
    destruct (Z.eqb_spec (get_value_or (getDmaPageSize parameters) DMA_PAGE_SIZE)
                DMA_PAGE_SIZE) as [Hp|Hp]; cbn [negb]; [|discriminate].
    destruct (get_value_or (getDataSource parameters) Internal) eqn:Hsrc;
      try discriminate;
      (destruct (Z.ltb_spec entrySize FIFO_SIZE) as [Hlt|Hge]; [discriminate|]);
      (destruct (deviceResetChannel faults diuStatus timeout LevelInternal)
         as [[[]|x|] l0] eqn:Hreset; try discriminate);
      intros Hbuilt; inversion Hbuilt; subst c l; clear Hbuilt;
      cbn [mPageSize mDataSource entries];
      (split; [exact Hp|]); (split; [reflexivity|]); (split; [discriminate|]);
      (split; [exact Hge|]);
      (split; [unfold flagsFromConstructor; cbn; split;
               [reflexivity|try discriminate;
                intros _; destruct (get_value_or (getStbrdEnabled parameters) false);
                reflexivity]|]);
      (split; [reflexivity|]);
      (split; [exact (deviceResetChannel_internal _ _ _ _ Hreset)|]);
      intros f s' Hstart;
      (split; [eapply reach_start; [|exact Hstart]; cbn; apply length_replicate|]);
      match type of Hstart with
      | CrorcDmaChannel.deviceStartDma _ _ ?c = _ =>
          pose proof (ChannelFacts.deviceStartDma_shape decl f c) as Hshape
      end;
      rewrite Hstart in Hshape; destruct Hshape as [log ->];
      (split; [|reflexivity]);
      unfold flagsFromConstructor; cbn; split;
        try reflexivity; try discriminate;
        intros _; destruct (get_value_or (getStbrdEnabled parameters) false);
        reflexivity.
Qed.


(** X19. What [fillSuperpages] started is what [deviceStopDma] stops. On a
    channel with the flags of the constructor and a card that raises nothing,
    the deferred start starts the data generator and the stop stops it, or
    the start sends the trigger to the front-end and the stop stops the
    trigger, and the stop ends with the data receiver; the stop does not ask
    whether the start is still pending. *)
Theorem stop_mirrors_start
    (faults : CardCmd -> bool) (faults' : CardCall -> bool) (s : Channel) :
  flagsFromConstructor s ->
  (forall c, faults c = false) -> (forall c, faults' c = false) ->
  mPendingDmaStart s = true -> mTransferQueue s <> [] ->
  exists cmds,
    startPendingDma faults s
      = (Returns tt, set_mPendingDmaStart false (set_cardLog (cardLog s ++ cmds) s)) /\
    (if mGeneratorEnabled s
     then In StartDataGenerator cmds /\
          (forall c, ~ In (StartTrigger c) cmds) /\
          deviceStopDma faults' s = (Returns tt, [StopDataGenerator; StopDataReceiver])
     else In (StartTrigger (if mRDYRX s then RDYRX else STBRD)) cmds /\
          ~ In StartDataGenerator cmds /\
          deviceStopDma faults' s = (Returns tt, [StopTrigger; StopDataReceiver])) /\
    deviceStopDma faults' (set_mPendingDmaStart false s) = deviceStopDma faults' s.
Proof.
  intros [Hg Hr] Hf Hf' Hp Hq.
  unfold deviceStopDma, andThen, call.
  destruct s as [src stbrd gen rdyrx ps fr ba sz tq rq pend es log].
  cbn [mGeneratorEnabled mDataSource mRDYRX mSTBRD mPendingDmaStart mTransferQueue
       cardLog set_mPendingDmaStart] in *.
  subst pend. destruct tq as [|sp rest]; [congruence|]. clear Hq.
  rewrite !Hf'.
  unfold startPendingDma, startDataGenerator, bind, gets, issue, modify, ret.
  cbn [mGeneratorEnabled mDataSource mRDYRX mSTBRD mPendingDmaStart mTransferQueue
       cardLog mPageSize negb].
  destruct gen.
  - destruct src; try discriminate; rewrite !Hf; cbn;
      rewrite <- ?app_assoc; cbn [app];
      eexists; (split; [reflexivity|]); cbn;
      (split; [|reflexivity]); (split; [tauto|]);
      (split; [|reflexivity]); intros c; intuition discriminate.
  - specialize (Hr eq_refl). subst rdyrx.
    destruct stbrd; cbn [negb orb]; rewrite !Hf; cbn;
      rewrite <- ?app_assoc; cbn [app];
      eexists; (split; [reflexivity|]); cbn;
      (split; [|reflexivity]); (split; [tauto|]);
      (split; [|reflexivity]); intuition discriminate.
Qed.

End Facts.

Import Examples.

Lemma constructor_establishes_witness :
  let built :=
    construct declarations128 8192 1024 (fun _ => false) 0 1000 constructed
      {| getDmaPageSize := None; getStbrdEnabled := None;
         getDataSource := Some Fee |} 4096 in
  exists c l,
    built = (Returns c, l) /\
    mGeneratorEnabled c = false /\ mRDYRX c = true /\
    flagsFromConstructor c /\
    entries c = replicate 128 ReadyFifo.reset.
Proof.
  intros built.
  destruct built as [[c| |] l] eqn:Hbuilt; try (vm_compute in Hbuilt; discriminate).
  exists c, l. split; [reflexivity|].
  destruct (proj2 (proj2
              (constructor_establishes declarations128 8192 1024 (fun _ => false) 0 1000
                 constructed
                 {| getDmaPageSize := None; getStbrdEnabled := None;
                    getDataSource := Some Fee |} 4096)) c l Hbuilt)
    as (_ & _ & _ & _ & Hflags & Hentries & _).
  vm_compute in Hbuilt. inversion Hbuilt; subst c l.
  split; [reflexivity|]. split; [reflexivity|]. split; [exact Hflags|exact Hentries].
Defined.


Lemma stop_mirrors_start_witness :
  flagsFromConstructor afterPush /\
  mPendingDmaStart afterPush = true /\ mTransferQueue afterPush <> [] /\
  deviceStopDma (fun _ => false) afterPush
    = (Returns tt, [StopDataGenerator; StopDataReceiver]).
Proof.
  assert (flagsFromConstructor afterPush) as Hflags
    by (split; [reflexivity|intros H; vm_compute in H; discriminate]).
  assert (mPendingDmaStart afterPush = true) as Hp by (vm_compute; reflexivity).
  assert (mTransferQueue afterPush <> []) as Hq by (vm_compute; discriminate).
  split; [exact Hflags|]. split; [exact Hp|]. split; [exact Hq|].
  destruct (stop_mirrors_start noFaults (fun _ => false) afterPush Hflags
              (fun _ => eq_refl) (fun _ => eq_refl) Hp Hq) as (cmds & _ & Hstop & _).
  change (mGeneratorEnabled afterPush) with true in Hstop.
  exact (proj2 (proj2 Hstop)).
Defined.

End LifecycleFacts.
